(** * graph.js: the expression compiler and the function analysis engine

    A shallow embedding of [ExpressionParser], [FunctionAnalyzer] and the
    scanning part of [drawAsymptotes] from [src/graph.js].

    - JavaScript numbers are IEEE 754 binary64 values: the kernel's
      primitive [float].
    - JavaScript strings are [string]s of ASCII characters.
    - The regular expressions of the source are terms of [regex], run by a
      backtracking matcher with the priorities of the JavaScript one.
    - [new Function("x", body)] is a lexer, a parser and an evaluator for the
      arithmetic fragment of JavaScript expressions; text outside of the
      fragment is reported as [Unmodelled], never guessed.
    - The functions of [Math] that ECMAScript leaves implementation
      approximated ([sin], [cos], [tan], [log], [log10], [exp] and the
      operator [**]) are parameters of the development. *)

From Stdlib Require Import Bool Ascii String List ZArith Lia.
From Stdlib Require Uint63.
From Stdlib Require Import Floats.
Import ListNotations.

#[local] Set Warnings "-inexact-float".

Open Scope string_scope.

(* ------------------------------------------------------------------ *)
(** * Characters and strings                                            *)
(* ------------------------------------------------------------------ *)

Module Chars.

Definition code (c : ascii) : N := N_of_ascii c.

Definition between (lo hi : N) (c : ascii) : bool :=
  (lo <=? code c)%N && (code c <=? hi)%N.

(** [\d] *)
Definition is_digit : ascii -> bool := between 48 57.
(** [[a-z]] *)
Definition is_lower : ascii -> bool := between 97 122.
Definition is_upper : ascii -> bool := between 65 90.
(** The word characters of [\b]: [[A-Za-z0-9_]]. *)
Definition is_word (c : ascii) : bool :=
  is_digit c || is_lower c || is_upper c || (code c =? 95)%N.
(** White space removed by [String.prototype.trim] (ASCII part). *)
Definition is_space (c : ascii) : bool :=
  between 9 13 c || (code c =? 32)%N.

Definition lower (c : ascii) : ascii :=
  if is_upper c then ascii_of_N (code c + 32) else c.

End Chars.

Module Str.

Fixpoint all (p : ascii -> bool) (s : string) : bool :=
  match s with
  | EmptyString => true
  | String c s' => p c && all p s'
  end.

Fixpoint map (f : ascii -> ascii) (s : string) : string :=
  match s with
  | EmptyString => EmptyString
  | String c s' => String (f c) (map f s')
  end.

Fixpoint take (n : nat) (s : string) : string :=
  match n, s with
  | S n', String c s' => String c (take n' s')
  | _, _ => EmptyString
  end.

Fixpoint drop (n : nat) (s : string) : string :=
  match n, s with
  | S n', String _ s' => drop n' s'
  | _, _ => s
  end.

(** [s.toLowerCase()] *)
Definition toLowerCase : string -> string := map Chars.lower.

(** [s.trim() === ""] *)
Definition blank : string -> bool := all Chars.is_space.

Fixpoint starts_with (p s : string) : bool :=
  match p, s with
  | EmptyString, _ => true
  | String a p', String b s' => Ascii.eqb a b && starts_with p' s'
  | String _ _, EmptyString => false
  end.

(** [s.includes(p)] *)
Fixpoint includes (p s : string) : bool :=
  starts_with p s ||
  match s with
  | EmptyString => false
  | String _ s' => includes p s'
  end.

Fixpoint chars (s : string) : list ascii :=
  match s with
  | EmptyString => []
  | String c s' => c :: chars s'
  end.

End Str.

(* ------------------------------------------------------------------ *)
(** * Regular expressions                                               *)
(* ------------------------------------------------------------------ *)

Module Re.

(** The constructs the source's patterns use. [Star p] is the greedy
    [[...]*] over a character class; [[...]+] is [Cat (Cls p) (Star p)]. *)
Inductive regex : Type :=
| Eps
| Lit (c : ascii)
| Cls (p : ascii -> bool)
| WordB
| Cat (r1 r2 : regex)
| Alt (r1 r2 : regex)
| Star (p : ascii -> bool)
| Grp (r : regex).

Definition word_before (prev : option ascii) : bool :=
  match prev with Some c => Chars.is_word c | None => false end.

Definition word_after (s : string) : bool :=
  match s with String c _ => Chars.is_word c | EmptyString => false end.

Section Matcher.
Context {A : Type}.

(** Greedy iteration: the longest run first, shorter runs on failure of
    the continuation. *)
Fixpoint star (p : ascii -> bool) (prev : option ascii) (s : string)
         (k : option ascii -> string -> option A) : option A :=
  match s with
  | String c s' =>
      if p c then
        match star p (Some c) s' k with
        | Some r => Some r
        | None => k prev s
        end
      else k prev s
  | EmptyString => k prev s
  end.

(** [run r prev s caps k]: match [r] at the head of [s], where [prev] is
    the character before it; the continuation receives the position after
    the match and the captures closed so far. *)
Fixpoint run (r : regex) (prev : option ascii) (s : string)
         (caps : list string)
         (k : option ascii -> string -> list string -> option A)
  : option A :=
  match r with
  | Eps => k prev s caps
  | Lit c =>
      match s with
      | String d s' => if Ascii.eqb c d then k (Some d) s' caps else None
      | EmptyString => None
      end
  | Cls p =>
      match s with
      | String d s' => if p d then k (Some d) s' caps else None
      | EmptyString => None
      end
  | WordB =>
      if xorb (word_before prev) (word_after s) then k prev s caps
      else None
  | Cat r1 r2 =>
      run r1 prev s caps (fun prev' s' caps' => run r2 prev' s' caps' k)
  | Alt r1 r2 =>
      match run r1 prev s caps k with
      | Some x => Some x
      | None => run r2 prev s caps k
      end
  | Star p => star p prev s (fun prev' s' => k prev' s' caps)
  | Grp r0 =>
      run r0 prev s caps
          (fun prev' s' caps' =>
             k prev' s'
               (caps' ++ [Str.take (String.length s - String.length s') s])%list)
  end.
End Matcher.

(** A match at the head of [s]: the captures and the text left. *)
Definition match_at (r : regex) (prev : option ascii) (s : string)
  : option (list string * string) :=
  run r prev s [] (fun _ s' caps => Some (caps, s')).

(** [r.test(s)], [s.match(r)] as a truth value. *)
Fixpoint search_from (r : regex) (prev : option ascii) (s : string) : bool :=
  match match_at r prev s with
  | Some _ => true
  | None =>
      match s with
      | EmptyString => false
      | String c s' => search_from r (Some c) s'
      end
  end.

Definition test (r : regex) (s : string) : bool := search_from r None s.

(** Replacement text: [$1] ... [$9] stand for the captures. *)
Fixpoint expand (tmpl : string) (caps : list string) : string :=
  match tmpl with
  | EmptyString => EmptyString
  | String c rest =>
      if Ascii.eqb c "$"%char then
        match rest with
        | String d rest' =>
            if Chars.between 49 57 d then
              match nth_error caps (N.to_nat (Chars.code d) - 49) with
              | Some t => t ++ expand rest' caps
              | None => String c (String d (expand rest' caps))
              end
            else String c (expand rest caps)
        | EmptyString => String c EmptyString
        end
      else String c (expand rest caps)
  end.

(** [s.replace(/r/g, tmpl)]: matches are looked for from left to right and
    do not overlap; [skip] counts the characters of the current match that
    are still to be passed over. *)
Fixpoint replace_from (r : regex) (tmpl : string) (prev : option ascii)
         (s : string) (skip : nat) : string :=
  match s with
  | EmptyString =>
      match skip, match_at r prev s with
      | O, Some (caps, _) => expand tmpl caps
      | _, _ => EmptyString
      end
  | String c s' =>
      match skip with
      | S n => replace_from r tmpl (Some c) s' n
      | O =>
          match match_at r prev s with
          | Some (caps, rest) =>
              match String.length s - String.length rest with
              | O => expand tmpl caps
                     ++ String c (replace_from r tmpl (Some c) s' 0)
              | S n => expand tmpl caps
                       ++ replace_from r tmpl (Some c) s' n
              end
          | None => String c (replace_from r tmpl (Some c) s' 0)
          end
      end
  end.

Definition replace_all (r : regex) (tmpl : string) (s : string) : string :=
  replace_from r tmpl None s 0.

(** The characters of a literal word, in sequence, before [tail]. *)
Fixpoint word (w : string) (tail : regex) : regex :=
  match w with
  | EmptyString => tail
  | String c w' => Cat (Lit c) (word w' tail)
  end.

Definition text (w : string) : regex := word w Eps.

End Re.

(* ------------------------------------------------------------------ *)
(** * JavaScript numbers                                                *)
(* ------------------------------------------------------------------ *)

Module Num.

Local Open Scope float_scope.

Definition NaN : float := nan.
Definition Infinity : float := infinity.

(** The global [isFinite] and [isNaN] on a number. *)
Definition isFinite (y : float) : bool := is_finite y.
Definition isNaN (y : float) : bool := is_nan y.

(** The binary64 value nearest to the integer [z], for [|z| < 2^63]: the
    conversion goes through a 63-bit integer, so larger numbers are not to
    be given to it. *)
Definition of_Z (z : Z) : float :=
  if (z <? 0)%Z then - of_uint63 (Uint63.of_Z (- z))
  else of_uint63 (Uint63.of_Z z).

Definition of_nat (n : nat) : float := of_Z (Z.of_nat n).

(** A decimal literal [digits.frac], with [n] the integer its digits spell
    and [k] the number of digits after the point: the binary64 value nearest
    to [n / 10^k]. For [n < 2^53] and [k <= 18] both [n] and [10^k] are
    below [2^63] and exact in binary64, and their quotient is rounded once,
    so the result is the literal's value; longer literals are not
    modelled. *)
Definition of_decimal (n : Z) (k : nat) : option float :=
  if (n <? 2 ^ 53)%Z && (k <=? 18)%nat
  then Some (of_Z n / of_Z (10 ^ Z.of_nat k))
  else None.

Definition two52 : float := 4503599627370496.

(** The integer part of a finite [0 <= a < 2^52]. *)
Definition trunc_small (a : float) : float :=
  let t := (a + two52) - two52 in
  if a <? t then t - 1 else t.

Definition Math_abs : float -> float := abs.
Definition Math_sqrt : float -> float := sqrt.

Definition Math_floor (x : float) : float :=
  if is_nan x || is_infinity x || (two52 <=? abs x) || is_zero x then x
  else
    let a := abs x in
    let t := trunc_small a in
    if 0 <? x then t
    else if t =? a then - t else - (t + 1).

Definition Math_ceil (x : float) : float := - Math_floor (- x).

(** The nearest integer, ties towards [+Infinity]; a zero result keeps the
    sign of a negative argument. *)
Definition Math_round (x : float) : float :=
  let f := Math_floor x in
  let r := if 0.5 <=? x - f then f + 1 else f in
  if is_zero r && (x <? 0) then neg_zero else r.

Definition Math_sign (x : float) : float :=
  if is_nan x then x
  else if is_zero x then x
  else if 0 <? x then 1 else -1.

Definition Math_min (a b : float) : float :=
  if is_nan a then a
  else if is_nan b then b
  else if a <? b then a
  else if b <? a then b
  else if get_sign a then a else b.

Definition Math_max (a b : float) : float :=
  if is_nan a then a
  else if is_nan b then b
  else if a <? b then b
  else if b <? a then a
  else if get_sign a then b else a.

End Num.

(** The functions of [Math] whose results ECMAScript leaves to the
    implementation, and the operator [**] ([Number::exponentiate]). *)
Record MathHost : Type := {
  h_sin : float -> float;
  h_cos : float -> float;
  h_tan : float -> float;
  h_log : float -> float;
  h_log10 : float -> float;
  h_exp : float -> float;
  h_pow : float -> float -> float
}.

(* ------------------------------------------------------------------ *)
(** * The normalizer: the rewriting steps of [ExpressionParser.parse]   *)
(* ------------------------------------------------------------------ *)

Module Normalizer.

Import Re.

(** [this.constants], in the order of [Object.entries], each with the text
    of [value.toString()]: [Math.PI] and [Math.E]. *)
Definition constants : list (string * string) :=
  [ ("pi", "3.141592653589793"); ("e", "2.718281828459045") ].

(** The keys of [this.functions], in the order of [Object.entries]. *)
Definition functions : list string :=
  [ "sin"; "cos"; "tan"; "csc"; "sec"; "cot"; "log"; "ln"; "sqrt"; "abs";
    "floor"; "ceil"; "round"; "exp" ].

Definition not_rparen (c : ascii) : bool := negb (Ascii.eqb c ")"%char).

(** [/\^/g] *)
Definition caret_re : regex := Lit "^"%char.

(** [new RegExp(`\\b${name}\\b`, "g")] *)
Definition constant_re (name : string) : regex :=
  Cat WordB (word name WordB).

(** [new RegExp(`\\b${name}\\(`, "g")] *)
Definition head_re (name : string) : regex :=
  Cat WordB (word name (Lit "("%char)).

(** [new RegExp(`\\bcsc\\(([^)]+)\\)`, "g")] and its two siblings. *)
Definition full_re (name : string) : regex :=
  Cat WordB
      (word name
            (Cat (Lit "("%char)
                 (Cat (Grp (Cat (Cls not_rparen) (Star not_rparen)))
                      (Lit ")"%char)))).

Definition replace_constant (expression : string) (entry : string * string)
  : string :=
  replace_all (constant_re (fst entry)) (snd entry) expression.

(** The body of the loop over [this.functions]. *)
Definition replace_function (expression name : string) : string :=
  if (name =? "log")%string then
    replace_all (head_re name) "Math.log10(" expression
  else if (name =? "ln")%string then
    replace_all (head_re name) "Math.log(" expression
  else if (name =? "csc")%string then
    replace_all (full_re "csc") "(1/Math.sin($1))" expression
  else if (name =? "sec")%string then
    replace_all (full_re "sec") "(1/Math.cos($1))" expression
  else if (name =? "cot")%string then
    replace_all (full_re "cot") "(1/Math.tan($1))" expression
  else
    replace_all (head_re name) ("Math." ++ name ++ "(") expression.

(** [/(\d)([a-z])/g], [/\)([a-z])/g], [/(\d)\(/g], [/\)(\d)/g] and
    [/\b([a-z])\(/g]. *)
Definition digit_letter_re : regex :=
  Cat (Grp (Cls Chars.is_digit)) (Grp (Cls Chars.is_lower)).
Definition rparen_letter_re : regex :=
  Cat (Lit ")"%char) (Grp (Cls Chars.is_lower)).
Definition digit_lparen_re : regex :=
  Cat (Grp (Cls Chars.is_digit)) (Lit "("%char).
Definition rparen_digit_re : regex :=
  Cat (Lit ")"%char) (Grp (Cls Chars.is_digit)).
Definition variable_lparen_re : regex :=
  Cat WordB (Cat (Grp (Cls Chars.is_lower)) (Lit "("%char)).

Definition implicit_multiplication (expression : string) : string :=
  let expression := replace_all digit_letter_re "$1*$2" expression in
  let expression := replace_all rparen_letter_re ")*$1" expression in
  let expression := replace_all digit_lparen_re "$1*(" expression in
  let expression := replace_all rparen_digit_re ")*$1" expression in
  replace_all variable_lparen_re "$1*(" expression.

(** The text handed to [new Function]: lines 59 to 106 of the source. *)
Definition normalize (expression : string) : string :=
  let expression := Str.toLowerCase expression in
  let expression := replace_all caret_re "**" expression in
  let expression := fold_left replace_constant constants expression in
  let expression := fold_left replace_function functions expression in
  implicit_multiplication expression.

(** The parenthesis scan: [None] as soon as the counter is negative. *)
Fixpoint scan_parens (s : string) (openParens : Z) : option Z :=
  match s with
  | EmptyString => Some openParens
  | String c s' =>
      let openParens :=
        if Ascii.eqb c "("%char then (openParens + 1)%Z else openParens in
      let openParens :=
        if Ascii.eqb c ")"%char then (openParens - 1)%Z else openParens in
      if (openParens <? 0)%Z then None else scan_parens s' openParens
  end.

Definition parens_balanced (s : string) : bool :=
  match scan_parens s 0 with
  | Some n => (n =? 0)%Z
  | None => false
  end.

End Normalizer.

(* ------------------------------------------------------------------ *)
(** * The generated function: [new Function("x", body)]                 *)
(* ------------------------------------------------------------------ *)

(** Three answers about a piece of JavaScript text: it belongs to the
    modelled fragment, it is rejected by every JavaScript engine
    ([SyntaxError]), or it is outside of the fragment. *)
Inductive parsed (A : Type) : Type :=
| Parsed (a : A)
| Rejected
| Unmodelled.
Arguments Parsed {A} a.
Arguments Rejected {A}.
Arguments Unmodelled {A}.

Module Js.

(** The members of [Math] the normalizer can write. *)
Inductive mathfn : Set :=
| Msin | Mcos | Mtan | Mlog10 | Mlog | Msqrt | Mabs | Mfloor | Mceil
| Mround | Mexp.

Definition mathfn_of_name (name : string) : option mathfn :=
  if (name =? "sin")%string then Some Msin
  else if (name =? "cos")%string then Some Mcos
  else if (name =? "tan")%string then Some Mtan
  else if (name =? "log10")%string then Some Mlog10
  else if (name =? "log")%string then Some Mlog
  else if (name =? "sqrt")%string then Some Msqrt
  else if (name =? "abs")%string then Some Mabs
  else if (name =? "floor")%string then Some Mfloor
  else if (name =? "ceil")%string then Some Mceil
  else if (name =? "round")%string then Some Mround
  else if (name =? "exp")%string then Some Mexp
  else None.

Inductive token : Type :=
| TNum (v : float)
| TId (name : string)
| TMath (f : mathfn)
| TPlus | TMinus | TStar | TSlash | TPow | TLParen | TRParen.

(** Words that are not plain identifier references inside a function body:
    the reserved words, the literals and the names every function or every
    global scope binds. *)
Definition special_words : list string :=
  [ "arguments"; "async"; "await"; "break"; "case"; "catch"; "class";
    "const"; "continue"; "debugger"; "default"; "delete"; "do"; "else";
    "enum"; "eval"; "export"; "extends"; "false"; "finally"; "for";
    "function"; "get"; "if"; "implements"; "import"; "in"; "instanceof";
    "interface"; "let"; "new"; "null"; "of"; "package"; "private";
    "protected"; "public"; "return"; "set"; "static"; "super"; "switch";
    "this"; "throw"; "true"; "try"; "typeof"; "undefined"; "var"; "void";
    "while"; "with"; "yield" ].

Definition is_special (name : string) : bool :=
  existsb (String.eqb name) special_words.

Definition is_id_start (c : ascii) : bool :=
  Chars.is_lower c || Chars.is_upper c
  || Ascii.eqb c "_"%char || Ascii.eqb c "$"%char.

Definition is_id_part (c : ascii) : bool :=
  is_id_start c || Chars.is_digit c.

(** The longest prefix of characters in [p], and the rest. *)
Fixpoint span (p : ascii -> bool) (s : string) : string * string :=
  match s with
  | String c s' =>
      if p c then let (a, b) := span p s' in (String c a, b)
      else (EmptyString, s)
  | EmptyString => (EmptyString, EmptyString)
  end.

Fixpoint digits_value (s : string) (acc : Z) : Z :=
  match s with
  | EmptyString => acc
  | String c s' =>
      digits_value s' (10 * acc + Z.of_N (Chars.code c) - 48)%Z
  end.

Definition next_is (p : ascii -> bool) (s : string) : bool :=
  match s with String c _ => p c | EmptyString => false end.

(** A decimal literal whose integer digits are [ip] and whose fraction
    digits are [fp], followed by [rest]. *)
Definition number_token (ip fp rest : string)
  : parsed (token * string) :=
  if next_is is_id_start rest then Unmodelled
  else if (1 <? String.length ip)%nat && Str.starts_with "0" ip
  then Unmodelled
  else
    match Num.of_decimal (digits_value (ip ++ fp) 0) (String.length fp) with
    | Some v => Parsed (TNum v, rest)
    | None => Unmodelled
    end.

(** One token from the head of [s], after white space. *)
Definition next_token (c : ascii) (s' : string) : parsed (token * string) :=
  let s := String c s' in
  if Chars.is_digit c then
    let (ip, r) := span Chars.is_digit s in
    match r with
    | String "."%char r' =>
        let (fp, r'') := span Chars.is_digit r' in number_token ip fp r''
    | _ => number_token ip EmptyString r
    end
  else if Ascii.eqb c "."%char then
    if next_is Chars.is_digit s' then
      let (fp, r) := span Chars.is_digit s' in number_token EmptyString fp r
    else Unmodelled
  else if Str.starts_with "Math." s then
    let (name, r) := span is_id_part (Str.drop 5 s) in
    match mathfn_of_name name with
    | Some f => Parsed (TMath f, r)
    | None => Unmodelled
    end
  else if is_id_start c then
    let (name, r) := span is_id_part s in
    if negb (Str.all (fun d => negb (Chars.is_upper d)) name) then Unmodelled
    else if is_special name then Unmodelled
    else Parsed (TId name, r)
  else if Ascii.eqb c "+"%char then
    if next_is (Ascii.eqb "+"%char) s' then Unmodelled
    else Parsed (TPlus, s')
  else if Ascii.eqb c "-"%char then
    if next_is (Ascii.eqb "-"%char) s' then Unmodelled
    else Parsed (TMinus, s')
  else if Ascii.eqb c "*"%char then
    match s' with
    | String "*"%char r => Parsed (TPow, r)
    | _ => Parsed (TStar, s')
    end
  else if Ascii.eqb c "/"%char then
    if next_is (fun d => Ascii.eqb d "/"%char || Ascii.eqb d "*"%char) s'
    then Unmodelled
    else Parsed (TSlash, s')
  else if Ascii.eqb c "("%char then Parsed (TLParen, s')
  else if Ascii.eqb c ")"%char then Parsed (TRParen, s')
  else Unmodelled.

(** The tokens of [s]; every token takes at least one character, so
    [String.length s] units of fuel are enough. *)
Fixpoint lex (fuel : nat) (s : string) : parsed (list token) :=
  match s with
  | EmptyString => Parsed []
  | String c s' =>
      match fuel with
      | O => Unmodelled
      | S fuel' =>
          if Ascii.eqb c " "%char || Ascii.eqb c "009"%char then lex fuel' s'
          else
            match next_token c s' with
            | Parsed (t, rest) =>
                match lex fuel' rest with
                | Parsed ts => Parsed (t :: ts)
                | Rejected => Rejected
                | Unmodelled => Unmodelled
                end
            | Rejected => Rejected
            | Unmodelled => Unmodelled
            end
      end
  end.

Definition tokens (s : string) : parsed (list token) :=
  lex (String.length s) s.

End Js.

Module Ast.

Import Js.

Inductive binop : Set := Add | Sub | Mul | Div | Pow.

(** Expressions of the fragment. [Free] is a reference to an identifier
    other than the parameter; a call has no argument or one. *)
Inductive expr : Type :=
| Lit (v : float)
| Var
| Free (name : string)
| Member (f : mathfn)
| Call0 (callee : expr)
| Call1 (callee arg : expr)
| Neg (e : expr)
| Plus (e : expr)
| Bin (op : binop) (l r : expr).

Section Parser.

(** [bound name]: the global scope of the page binds [name]. What such a
    reference yields is not modelled. *)
Variable bound : string -> bool.

Definition rest := list token.

(** Recursive descent over the grammar of ECMAScript, restricted to the
    tokens of the fragment:
    - additive, multiplicative: left associative;
    - [**]: right associative, and its left operand may not be a unary
      expression ([-x ** 2] is a [SyntaxError]);
    - unary [+] and [-]; calls; parenthesised expressions.
    Every call of a function below takes one unit of [fuel]. The flag
    returned with an operand says that it is a unary expression. *)
Fixpoint p_additive (fuel : nat) (ts : rest) : parsed (expr * rest) :=
  match fuel with
  | O => Unmodelled
  | S fuel =>
      match p_multiplicative fuel ts with
      | Parsed (l, ts') => p_additive_more fuel l ts'
      | Rejected => Rejected
      | Unmodelled => Unmodelled
      end
  end
with p_additive_more (fuel : nat) (l : expr) (ts : rest)
     : parsed (expr * rest) :=
  match fuel with
  | O => Unmodelled
  | S fuel =>
      match ts with
      | TPlus :: ts' =>
          match p_multiplicative fuel ts' with
          | Parsed (r, ts'') => p_additive_more fuel (Bin Add l r) ts''
          | Rejected => Rejected
          | Unmodelled => Unmodelled
          end
      | TMinus :: ts' =>
          match p_multiplicative fuel ts' with
          | Parsed (r, ts'') => p_additive_more fuel (Bin Sub l r) ts''
          | Rejected => Rejected
          | Unmodelled => Unmodelled
          end
      | _ => Parsed (l, ts)
      end
  end
with p_multiplicative (fuel : nat) (ts : rest) : parsed (expr * rest) :=
  match fuel with
  | O => Unmodelled
  | S fuel =>
      match p_exponent fuel ts with
      | Parsed (l, ts') => p_multiplicative_more fuel l ts'
      | Rejected => Rejected
      | Unmodelled => Unmodelled
      end
  end
with p_multiplicative_more (fuel : nat) (l : expr) (ts : rest)
     : parsed (expr * rest) :=
  match fuel with
  | O => Unmodelled
  | S fuel =>
      match ts with
      | TStar :: ts' =>
          match p_exponent fuel ts' with
          | Parsed (r, ts'') =>
              p_multiplicative_more fuel (Bin Mul l r) ts''
          | Rejected => Rejected
          | Unmodelled => Unmodelled
          end
      | TSlash :: ts' =>
          match p_exponent fuel ts' with
          | Parsed (r, ts'') =>
              p_multiplicative_more fuel (Bin Div l r) ts''
          | Rejected => Rejected
          | Unmodelled => Unmodelled
          end
      | _ => Parsed (l, ts)
      end
  end
with p_exponent (fuel : nat) (ts : rest) : parsed (expr * rest) :=
  match fuel with
  | O => Unmodelled
  | S fuel =>
      match p_unary fuel ts with
      | Parsed (l, unary, ts') =>
          match ts' with
          | TPow :: ts'' =>
              if unary then Rejected
              else
                match p_exponent fuel ts'' with
                | Parsed (r, ts''') => Parsed (Bin Pow l r, ts''')
                | Rejected => Rejected
                | Unmodelled => Unmodelled
                end
          | _ => Parsed (l, ts')
          end
      | Rejected => Rejected
      | Unmodelled => Unmodelled
      end
  end
with p_unary (fuel : nat) (ts : rest) : parsed (expr * bool * rest) :=
  match fuel with
  | O => Unmodelled
  | S fuel =>
      match ts with
      | TMinus :: ts' =>
          match p_unary fuel ts' with
          | Parsed (e, _, ts'') => Parsed (Neg e, true, ts'')
          | Rejected => Rejected
          | Unmodelled => Unmodelled
          end
      | TPlus :: ts' =>
          match p_unary fuel ts' with
          | Parsed (e, _, ts'') => Parsed (Plus e, true, ts'')
          | Rejected => Rejected
          | Unmodelled => Unmodelled
          end
      | _ =>
          match p_primary fuel ts with
          | Parsed (e, ts') =>
              match p_calls fuel e ts' with
              | Parsed (e', ts'') => Parsed (e', false, ts'')
              | Rejected => Rejected
              | Unmodelled => Unmodelled
              end
          | Rejected => Rejected
          | Unmodelled => Unmodelled
          end
      end
  end
with p_calls (fuel : nat) (callee : expr) (ts : rest)
     : parsed (expr * rest) :=
  match fuel with
  | O => Unmodelled
  | S fuel =>
      match ts with
      | TLParen :: TRParen :: ts' => p_calls fuel (Call0 callee) ts'
      | TLParen :: ts' =>
          match p_additive fuel ts' with
          | Parsed (a, TRParen :: ts'') =>
              p_calls fuel (Call1 callee a) ts''
          | Parsed _ => Rejected
          | Rejected => Rejected
          | Unmodelled => Unmodelled
          end
      | _ => Parsed (callee, ts)
      end
  end
with p_primary (fuel : nat) (ts : rest) : parsed (expr * rest) :=
  match fuel with
  | O => Unmodelled
  | S fuel =>
      match ts with
      | TNum v :: ts' => Parsed (Lit v, ts')
      | TId name :: ts' =>
          if (name =? "x")%string then Parsed (Var, ts')
          else if bound name then Unmodelled
          else Parsed (Free name, ts')
      | TMath f :: ts' => Parsed (Member f, ts')
      | TLParen :: ts' =>
          match p_additive fuel ts' with
          | Parsed (e, TRParen :: ts'') => Parsed (e, ts'')
          | Parsed _ => Rejected
          | Rejected => Rejected
          | Unmodelled => Unmodelled
          end
      | TSlash :: _ => Unmodelled
      | _ => Rejected
      end
  end.

(** The expression spelled by the whole list of tokens. *)
Definition p_expression (ts : rest) : parsed expr :=
  match p_additive (8 * List.length ts + 8) ts with
  | Parsed (e, []) => Parsed e
  | Parsed (_, _ :: _) => Rejected
  | Rejected => Rejected
  | Unmodelled => Unmodelled
  end.

Definition parse_text (s : string) : parsed expr :=
  match tokens s with
  | Parsed ts => p_expression ts
  | Rejected => Rejected
  | Unmodelled => Unmodelled
  end.

End Parser.

End Ast.

Module Eval.

Import Js Ast.

Local Open Scope float_scope.

(** The values an expression of the fragment can have: a number, one of
    the functions of [Math], or the string that [+] makes of a function. *)
Inductive value : Type :=
| VNum (v : float)
| VNative (f : mathfn)
| VText.

(** [typeof v === "number"] *)
Definition is_number (v : value) : bool :=
  match v with VNum _ => true | _ => false end.

(** The conversion every arithmetic operator applies to its operands: a
    function, and a string holding the source text of one, convert to
    [NaN]. *)
Definition ToNumber (v : value) : float :=
  match v with VNum n => n | _ => Num.NaN end.

(** How a call ends. *)
Inductive completion : Type :=
| Return (v : value)
| Throw.

Definition jsfun : Type := float -> completion.

Section Host.

Variable host : MathHost.

Definition apply_math (f : mathfn) (a : float) : float :=
  match f with
  | Msin => h_sin host a
  | Mcos => h_cos host a
  | Mtan => h_tan host a
  | Mlog10 => h_log10 host a
  | Mlog => h_log host a
  | Msqrt => Num.Math_sqrt a
  | Mabs => Num.Math_abs a
  | Mfloor => Num.Math_floor a
  | Mceil => Num.Math_ceil a
  | Mround => Num.Math_round a
  | Mexp => h_exp host a
  end.

Definition binary (op : binop) (a b : value) : value :=
  match op with
  | Add =>
      match a, b with
      | VNum m, VNum n => VNum (m + n)
      | _, _ => VText
      end
  | Sub => VNum (ToNumber a - ToNumber b)
  | Mul => VNum (ToNumber a * ToNumber b)
  | Div => VNum (ToNumber a / ToNumber b)
  | Pow => VNum (h_pow host (ToNumber a) (ToNumber b))
  end.

(** The value of [e] for the argument [x]; [None] when the evaluation
    throws: a [ReferenceError] for an identifier that is not bound, a
    [TypeError] for a call of something that is not a function. *)
Fixpoint eval (e : expr) (x : float) : option value :=
  match e with
  | Lit v => Some (VNum v)
  | Var => Some (VNum x)
  | Free _ => None
  | Member f => Some (VNative f)
  | Call0 c =>
      match eval c x with
      | Some (VNative f) => Some (VNum (apply_math f Num.NaN))
      | _ => None
      end
  | Call1 c a =>
      match eval c x, eval a x with
      | Some (VNative f), Some v => Some (VNum (apply_math f (ToNumber v)))
      | _, _ => None
      end
  | Neg e1 =>
      match eval e1 x with
      | Some v => Some (VNum (- ToNumber v))
      | None => None
      end
  | Plus e1 =>
      match eval e1 x with
      | Some v => Some (VNum (ToNumber v))
      | None => None
      end
  | Bin op l r =>
      match eval l x, eval r x with
      | Some a, Some b => Some (binary op a b)
      | _, _ => None
      end
  end.

(** The function built from
    [try { const result = e; return result; } catch (e) { return NaN; }]. *)
Definition generated (e : expr) : jsfun :=
  fun x =>
    match eval e x with
    | Some v => Return v
    | None => Return (VNum Num.NaN)
    end.

End Host.

End Eval.

(* ------------------------------------------------------------------ *)
(** * [class ExpressionParser]                                          *)
(* ------------------------------------------------------------------ *)

Module ExpressionParser.

Import Eval.

Local Open Scope float_scope.

(** The errors [parse] throws, by the message they carry. *)
Inductive error : Set :=
| EmptyExpression        (* "Expression cannot be empty" *)
| MismatchedParentheses  (* "Mismatched parentheses" *)
| EngineSyntaxError      (* the SyntaxError thrown by [new Function] *)
| NoValidResult.         (* "Expression does not produce valid numeric results" *)

Inductive result (A : Type) : Type :=
| Ok (a : A)
| Err (e : error)
| OutsideModel.
Arguments Ok {A} a.
Arguments Err {A} e.
Arguments OutsideModel {A}.

(** [const testValues = [0, 1, -1, 0.5, 2]] *)
Definition testValues : list float := [0; 1; -1; 0.5; 2].

(** The self test: some probe gives a finite number. *)
Definition hasValidResult (func : jsfun) : bool :=
  existsb
    (fun testX =>
       match func testX with
       | Return testResult =>
           is_number testResult && Num.isFinite (ToNumber testResult)
       | Throw => false
       end)
    testValues.

Section Environment.

Variable host : MathHost.
Variable bound : string -> bool.

Definition new_Function (body : string) : parsed jsfun :=
  match Ast.parse_text bound body with
  | Parsed e => Parsed (generated host e)
  | Rejected => Rejected
  | Unmodelled => Unmodelled
  end.

(** [parse(expression)] *)
Definition parse (expression : string) : result jsfun :=
  if Str.blank expression then Err EmptyExpression
  else
    let expression := Normalizer.normalize expression in
    if negb (Normalizer.parens_balanced expression)
    then Err MismatchedParentheses
    else
      match new_Function expression with
      | Rejected => Err EngineSyntaxError
      | Unmodelled => OutsideModel
      | Parsed func =>
          if hasValidResult func then Ok func else Err NoValidResult
      end.

End Environment.

(** [evaluate(func, x)] *)
Definition evaluate (func : jsfun) (x : float) : value :=
  match func x with
  | Return result => if is_number result then result else VNum Num.NaN
  | Throw => VNum Num.NaN
  end.

(** The number [evaluate] makes of the value of an expression. *)
Definition number_of_result (r : option value) : float :=
  match r with
  | Some (VNum y) => y
  | _ => Num.NaN
  end.

(** [evaluate(func, x)] where the caller uses it as a number. *)
Definition evaluate_number (func : jsfun) (x : float) : float :=
  ToNumber (evaluate func x).

End ExpressionParser.

(* ------------------------------------------------------------------ *)
(** * A reference host                                                  *)
(* ------------------------------------------------------------------ *)

(** One admissible implementation of the functions ECMAScript leaves to the
    engine, by argument reduction and truncated series. It shows that what
    the theorems below assume of a host can be met. *)
Module Reference.

Local Open Scope float_scope.

Definition two_pi : float := 6.283185307179586.
Definition ln2 : float := 0.6931471805599453.
Definition ln10 : float := 2.302585092994046.

(** [1 - r2/(k(k+1)) (1 - r2/((k+2)(k+3)) (1 - ...))], [n] factors. *)
Fixpoint alternating (n : nat) (r2 k : float) : float :=
  match n with
  | O => 1
  | S n' => 1 - r2 / (k * (k + 1)) * alternating n' r2 (k + 2)
  end.

Definition reduce (x : float) : float :=
  x - Num.Math_round (x / two_pi) * two_pi.

Definition sin (x : float) : float :=
  if is_zero x then x
  else let r := reduce x in r * alternating 14 (r * r) 2.

Definition cos (x : float) : float :=
  let r := reduce x in alternating 14 (r * r) 1.

Definition tan (x : float) : float := sin x / cos x.

(** [1 + r/k (1 + r/(k+1) (1 + ...))], [n] factors. *)
Fixpoint exponential (n : nat) (r k : float) : float :=
  match n with
  | O => 1
  | S n' => 1 + r / k * exponential n' r (k + 1)
  end.

Fixpoint squarings (n : nat) (y : float) : float :=
  match n with
  | O => y
  | S n' => squarings n' (y * y)
  end.

Definition exp (x : float) : float :=
  if x =? neg_infinity then 0
  else if x =? infinity then x
  else squarings 10 (exponential 14 (x / 1024) 1).

(** [2 (t + t^3/3 + t^5/5 + ...)], the terms up to [t^(2n+1)]. *)
Fixpoint atanh2 (n : nat) (t2 k : float) : float :=
  match n with
  | O => 1 / k
  | S n' => 1 / k + t2 * atanh2 n' t2 (k + 2)
  end.

Definition log (x : float) : float :=
  if is_nan x || (x <? 0) then nan
  else if is_zero x then neg_infinity
  else if is_infinity x then x
  else
    let (m, e) := frshiftexp x in
    let t := (m - 1) / (m + 1) in
    2 * t * atanh2 40 (t * t) 1
    + Num.of_Z (Uint63.to_Z e - FloatOps.shift) * ln2.

Definition log10 (x : float) : float := log x / ln10.

Fixpoint power (n : nat) (b : float) : float :=
  match n with
  | O => 1
  | S O => b
  | S n' => power n' b * b
  end.

(** The natural number [e] is, among the first [n]. *)
Fixpoint as_nat (n : nat) (e : float) : option nat :=
  match n with
  | O => if e =? 0 then Some O else None
  | S n' => if e =? Num.of_nat n then Some n else as_nat n' e
  end.

Definition pow (b e : float) : float :=
  match as_nat 64 e, as_nat 64 (- e) with
  | Some n, _ => power n b
  | None, Some n => 1 / power n b
  | None, None =>
      if is_nan e then nan
      else if is_zero b then (if 0 <? e then 0 else infinity)
      else exp (e * log b)
  end.

Definition host : MathHost :=
  {| h_sin := sin; h_cos := cos; h_tan := tan; h_log := log;
     h_log10 := log10; h_exp := exp; h_pow := pow |}.

(** A page whose global scope binds none of the identifiers typed. *)
Definition nothing_bound : string -> bool := fun _ => false.

End Reference.

(* ------------------------------------------------------------------ *)
(** * Loops over a range of numbers                                     *)
(* ------------------------------------------------------------------ *)

Module Loop.

Local Open Scope float_scope.

(** [for (let x = x0; x <= hi; x += step) state = body(state, x)]: the
    final state, [None] when [fuel] iterations were not enough. *)
Fixpoint for_loop {S : Type} (fuel : nat) (x hi step : float)
         (body : S -> float -> S) (s : S) : option S :=
  match fuel with
  | O => None
  | S fuel' =>
      if x <=? hi then for_loop fuel' (x + step) hi step body (body s x)
      else Some s
  end.

(** The successive values of the loop variable. *)
Definition for_values (fuel : nat) (x hi step : float)
  : option (list float) :=
  for_loop fuel x hi step (fun acc x => acc ++ [x])%list [].

End Loop.

(* ------------------------------------------------------------------ *)
(** * [class FunctionAnalyzer]                                          *)
(* ------------------------------------------------------------------ *)

Module FunctionAnalyzer.

Import Eval ExpressionParser Re.

Local Open Scope float_scope.

(** ** [isFunction] *)

Definition isFunction_points : list float := [-5; -2; 0; 1; 3; 5].

Fixpoint isFunction_loop (func : jsfun) (testPoints : list float) : bool :=
  match testPoints with
  | [] => true
  | x :: rest =>
      let y := evaluate func x in
      if negb (is_number y) then false else isFunction_loop func rest
  end.

Definition isFunction (func : jsfun) : bool :=
  isFunction_loop func isFunction_points.

(** ** [checkSymmetry] *)

Record symmetry : Set := { isEven : bool; isOdd : bool }.

Record symmetry_counts : Set :=
  { oddCount : nat; evenCount : nat; totalTests : nat }.

Definition symmetry_points : list float :=
  [-3; -2; -1; -0.5; 0.5; 1; 2; 3].

Definition symmetry_tolerance : float := 1e-10.

Definition symmetry_step (func : jsfun) (c : symmetry_counts) (x : float)
  : symmetry_counts :=
  if x =? 0 then c
  else
    let fx := evaluate_number func x in
    let fNegX := evaluate_number func (- x) in
    if Num.isNaN fx || Num.isNaN fNegX
       || negb (Num.isFinite fx) || negb (Num.isFinite fNegX)
    then c
    else
      let total := S (totalTests c) in
      let even :=
        if Num.Math_abs (fNegX - fx) <? symmetry_tolerance
        then S (evenCount c) else evenCount c in
      let odd :=
        if Num.Math_abs (fNegX - - fx) <? symmetry_tolerance
        then S (oddCount c) else oddCount c in
      {| oddCount := odd; evenCount := even; totalTests := total |}.

Definition symmetry_threshold : float := 0.8.

(** [totalTests > 0 && count / totalTests >= threshold] *)
Definition reaches_threshold (count total : nat) : bool :=
  (0 <? total)%nat
  && (symmetry_threshold <=? Num.of_nat count / Num.of_nat total).

Definition count_symmetry (func : jsfun) : symmetry_counts :=
  fold_left (symmetry_step func) symmetry_points
            {| oddCount := 0; evenCount := 0; totalTests := 0 |}.

Definition checkSymmetry (func : jsfun) : symmetry :=
  let c := count_symmetry func in
  {| isEven := reaches_threshold (evenCount c) (totalTests c);
     isOdd := reaches_threshold (oddCount c) (totalTests c) |}.

(** ** [isOneToOne] *)

Definition injectivity_tolerance : float := 1e-8.

(** [for (let i = -5; i <= 5; i += 0.5) testPoints.push(i)] *)
Definition injectivity_points : option (list float) :=
  Loop.for_values 40 (-5) 5 0.5.

(** The loop over [testPoints]; [yValues] holds the finite values seen. *)
Fixpoint isOneToOne_loop (func : jsfun) (testPoints : list float)
         (yValues : list float) : bool :=
  match testPoints with
  | [] => (5 <? List.length yValues)%nat
  | x :: rest =>
      let y := evaluate_number func x in
      if Num.isNaN y || negb (Num.isFinite y)
      then isOneToOne_loop func rest yValues
      else if existsb
                (fun prevY => Num.Math_abs (y - prevY) <? injectivity_tolerance)
                yValues
      then false
      else isOneToOne_loop func rest (yValues ++ [y])
  end.

Definition isOneToOne (func : jsfun) : option bool :=
  match injectivity_points with
  | Some testPoints => Some (isOneToOne_loop func testPoints [])
  | None => None
  end.

(** ** [analyzeDomain] *)

Inductive domain : Type :=
| NonNegative        (* "x ≥ 0" *)
| RootArgument       (* "Expression under √ must be ≥ 0" *)
| Positive           (* "x > 0" *)
| LogArgument        (* "Expression inside log must be > 0" *)
| NonZero            (* "x ≠ 0" *)
| OddHalfPi          (* "x ≠ π/2 + nπ, where n is any integer" *)
| WholePi            (* "x ≠ nπ, where n is any integer" *)
| Excluding (restrictions : list float)
                     (* `x ≠ ${restrictions.join(", ")}` *)
| MultipleRestrictions
                     (* "Multiple restrictions (see graph for asymptotes)" *)
| AllReals.          (* "All real numbers (ℝ)" *)

(** [/sqrt\(x\)/] and [/sqrt\([^)]*x[^)]*\)/] *)
Definition sqrt_x_re : regex := text "sqrt(x)".
Definition inside_re (name : string) : regex :=
  word name
       (Cat (Lit "("%char)
            (Cat (Star Normalizer.not_rparen)
                 (Cat (Lit "x"%char)
                      (Cat (Star Normalizer.not_rparen) (Lit ")"%char))))).
Definition sqrt_inside_re : regex := inside_re "sqrt".

(** [/log\(x\)|ln\(x\)/] and
    [/log\([^)]*x[^)]*\)|ln\([^)]*x[^)]*\)/] *)
Definition log_x_re : regex := Alt (text "log(x)") (text "ln(x)").
Definition log_inside_re : regex := Alt (inside_re "log") (inside_re "ln").

(** The answer of the textual patterns, [None] when the code falls through
    to the sampling. *)
Definition domain_pattern (expression : string) : option domain :=
  let expr := Str.toLowerCase expression in
  let root :=
    if Str.includes "sqrt(" expr then
      if test sqrt_x_re expr then Some NonNegative
      else if test sqrt_inside_re expr then Some RootArgument
      else None
    else None in
  match root with
  | Some d => Some d
  | None =>
      let logarithm :=
        if Str.includes "log(" expr || Str.includes "ln(" expr then
          if test log_x_re expr then Some Positive
          else if test log_inside_re expr then Some LogArgument
          else None
        else None in
      match logarithm with
      | Some d => Some d
      | None =>
          if Str.includes "/x" expr || Str.includes "1/x" expr
          then Some NonZero
          else if Str.includes "tan(x)" expr || Str.includes "cot(x)" expr
          then Some OddHalfPi
          else if Str.includes "sec(x)" expr then Some OddHalfPi
          else if Str.includes "csc(x)" expr then Some WholePi
          else None
      end
  end.

(** The body of the sampling loop: [restrictions] grows at its end. *)
Definition domain_step (func : jsfun) (restrictions : list float)
           (x : float) : list float :=
  let y := evaluate_number func x in
  if negb (Num.isFinite y) then
    let rounded := Num.Math_round (x * 10) / 10 in
    if negb (existsb (fun r => Num.Math_abs (r - rounded) <? 0.05)
                     restrictions)
    then (restrictions ++ [rounded])%list
    else restrictions
  else restrictions.

Definition domain_of_restrictions (restrictions : list float) : domain :=
  if (0 <? List.length restrictions)%nat then
    if (List.length restrictions <=? 5)%nat then Excluding restrictions
    else MultipleRestrictions
  else AllReals.

Definition domain_fuel : nat := 1000.

Definition domain_sampling (func : jsfun) : option domain :=
  match Loop.for_loop domain_fuel (-20) 20 0.1 (domain_step func) [] with
  | Some restrictions => Some (domain_of_restrictions restrictions)
  | None => None
  end.

Definition analyzeDomain (func : jsfun) (expression : string)
  : option domain :=
  match domain_pattern expression with
  | Some d => Some d
  | None => domain_sampling func
  end.

(** ** [analyzeRange] *)

(** The answers; a number shown with [toFixed(2)] is kept as it is. *)
Inductive range : Type :=
| WholeLine                 (* "All real numbers (ℝ)" *)
| TowardsPlusInfinity       (* "y → +∞" *)
| TowardsMinusInfinity      (* "y → -∞" *)
| CannotDetermine           (* "Cannot determine range" *)
| AtLeastZero               (* "y ≥ 0" *)
| AtLeast (minY : float)    (* `y ≥ ${minY.toFixed(2)}` *)
| AtMostZero                (* "y ≤ 0" *)
| AtMost (maxY : float)     (* `y ≤ ${maxY.toFixed(2)}` *)
| NearlyConstant (mid : float)
                            (* `y ≈ ${mid.toFixed(2)} (approximately constant)` *)
| UnitInterval              (* "-1 ≤ y ≤ 1" *)
| ZeroUpTo (maxY : float)   (* `0 ≤ y ≤ ${maxY.toFixed(2)}` *)
| UpToZero (minY : float)   (* `${minY.toFixed(2)} ≤ y ≤ 0` *)
| Between (minY maxY : float).
                            (* `${minY.toFixed(2)} ≤ y ≤ ${maxY.toFixed(2)}` *)

(** The variables of the sampling loop. *)
Record sweep : Type := {
  minY : float;
  maxY : float;
  hasInfiniteValues : bool;
  hasNegativeInfinite : bool;
  hasPositiveInfinite : bool;
  validPoints : nat
}.

Definition sweep_start : sweep :=
  {| minY := infinity; maxY := neg_infinity; hasInfiniteValues := false;
     hasNegativeInfinite := false; hasPositiveInfinite := false;
     validPoints := 0 |}.

Definition range_step (func : jsfun) (s : sweep) (x : float) : sweep :=
  let y := evaluate_number func x in
  if negb (Num.isFinite y) then
    {| minY := minY s; maxY := maxY s; hasInfiniteValues := true;
       hasNegativeInfinite :=
         if y =? neg_infinity then true else hasNegativeInfinite s;
       hasPositiveInfinite :=
         if y =? infinity then true else hasPositiveInfinite s;
       validPoints := validPoints s |}
  else
    {| minY := if y <? minY s then y else minY s;
       maxY := if maxY s <? y then y else maxY s;
       hasInfiniteValues := hasInfiniteValues s;
       hasNegativeInfinite := hasNegativeInfinite s;
       hasPositiveInfinite := hasPositiveInfinite s;
       validPoints := S (validPoints s) |}.

(** Step 1 and 2: what the infinite values decide. *)
Definition range_of_infinities (s : sweep) : option range :=
  if hasInfiniteValues s then
    if hasPositiveInfinite s && hasNegativeInfinite s then Some WholeLine
    else if hasPositiveInfinite s then Some TowardsPlusInfinity
    else if hasNegativeInfinite s then Some TowardsMinusInfinity
    else None
  else None.

Definition range_probes : list float := [-100; -10; 0; 10; 100].

(** Step 4: the five probes, [testValues] being their values. *)
Definition range_of_probes (testValues : list float) (s : sweep)
  : option range :=
  match testValues with
  | [y_neg100; y_neg10; y_0; y_10; y_100] =>
      if forallb Num.isFinite testValues then
        if (100 <? y_neg100) && (100 <? y_100)
           && (y_0 <=? Num.Math_min y_neg100 y_100)
        then
          if (-0.1 <=? minY s) && (minY s <=? 0.1) then Some AtLeastZero
          else Some (AtLeast (minY s))
        else if (y_neg100 <? -100) && (y_100 <? -100)
                && (Num.Math_max y_neg100 y_100 <=? y_0)
        then
          if (-0.1 <=? maxY s) && (maxY s <=? 0.1) then Some AtMostZero
          else Some (AtMost (maxY s))
        else if (y_neg100 <? y_neg10) && (y_neg10 <? y_0)
                && (y_0 <? y_10) && (y_10 <? y_100)
                && (0.1 <? Num.Math_abs ((y_100 - y_neg100) / 200))
        then Some WholeLine
        else if (y_neg10 <? y_neg100) && (y_0 <? y_neg10)
                && (y_10 <? y_0) && (y_100 <? y_10)
                && (0.1 <? Num.Math_abs ((y_100 - y_neg100) / 200))
        then Some WholeLine
        else None
      else None
  | _ => None
  end.

(** Steps 5 to 9: what the extremes decide. *)
Definition range_of_extremes (s : sweep) : range :=
  let minY := minY s in
  let maxY := maxY s in
  if Num.Math_abs (maxY - minY) <? 0.01
  then NearlyConstant ((minY + maxY) / 2)
  else if (-1.1 <=? minY) && (maxY <=? 1.1)
          && (minY <=? -0.9) && (0.9 <=? maxY)
  then UnitInterval
  else if (-0.1 <=? minY) && (minY <=? 0.1)
  then (if 100 <? maxY then AtLeastZero else ZeroUpTo maxY)
  else if (-0.1 <=? maxY) && (maxY <=? 0.1)
  then (if minY <? -100 then AtMostZero else UpToZero minY)
  else if 100 <? Num.Math_abs (maxY - minY) then WholeLine
  else Between minY maxY.

(** The part of [analyzeRange] after the sampling loop. *)
Definition range_decision (func : jsfun) (s : sweep) : range :=
  match range_of_infinities s with
  | Some r => r
  | None =>
      if negb (Num.isFinite (minY s)) || negb (Num.isFinite (maxY s))
         || (validPoints s <? 10)%nat
      then CannotDetermine
      else
        let testValues := List.map (evaluate_number func) range_probes in
        match range_of_probes testValues s with
        | Some r => r
        | None => range_of_extremes s
        end
  end.

Definition range_fuel : nat := 2000.

Definition range_sweep (func : jsfun) : option sweep :=
  Loop.for_loop range_fuel (-50) 50 0.1 (range_step func) sweep_start.

Definition analyzeRange (func : jsfun) : option range :=
  match range_sweep func with
  | Some s => Some (range_decision func s)
  | None => None
  end.

(** ** [analyzeFunction] *)

Record analysis : Type := {
  a_isFunction : bool;
  a_isOdd : option bool;
  a_isEven : option bool;
  a_isOneToOne : option bool;
  a_domain : option domain;
  a_range : option range;
  a_properties : list string
}.

Definition properties (even odd oneToOne : bool) : list string :=
  ((if even then ["Even"] else [])
     ++ (if odd then ["Odd"] else [])
     ++ (if oneToOne then ["One-to-One"] else [])
     ++ (if negb even && negb odd then ["Neither Even nor Odd"] else []))%list.

(** [None] when one of the sampling loops runs out of fuel. *)
Definition analyzeFunction (func : jsfun) (expression : string)
  : option analysis :=
  if isFunction func then
    let symmetry := checkSymmetry func in
    match isOneToOne func, analyzeDomain func expression,
          analyzeRange func with
    | Some oneToOne, Some d, Some r =>
        Some {| a_isFunction := true;
                a_isOdd := Some (isOdd symmetry);
                a_isEven := Some (isEven symmetry);
                a_isOneToOne := Some oneToOne;
                a_domain := Some d;
                a_range := Some r;
                a_properties :=
                  properties (isEven symmetry) (isOdd symmetry) oneToOne |}
    | _, _, _ => None
    end
  else
    Some {| a_isFunction := false; a_isOdd := None; a_isEven := None;
            a_isOneToOne := None; a_domain := None; a_range := None;
            a_properties := [] |}.

End FunctionAnalyzer.

(* ------------------------------------------------------------------ *)
(** * The scan of [drawAsymptotes]                                      *)
(* ------------------------------------------------------------------ *)

Module Asymptotes.

Import Eval ExpressionParser.

Local Open Scope float_scope.

(** The body of the scanning loop: [asymptotes] grows at its end. *)
Definition scan_step (func : jsfun) (step yThreshold : float)
           (asymptotes : list float) (x : float) : list float :=
  let y := evaluate_number func x in
  let yLeft := evaluate_number func (x - step) in
  let yRight := evaluate_number func (x + step) in
  if negb (Num.isFinite y) && Num.isFinite yLeft && Num.isFinite yRight
  then (asymptotes ++ [x])%list
  else if Num.isFinite yLeft && Num.isFinite yRight && Num.isFinite y
          && (yThreshold <? Num.Math_abs yLeft)
          && (yThreshold <? Num.Math_abs yRight)
          && negb (Num.Math_sign yLeft =? Num.Math_sign yRight)
  then (asymptotes ++ [x])%list
  else if Num.isFinite yLeft && Num.isFinite yRight then
    let slope1 := Num.Math_abs (y - yLeft) / step in
    let slope2 := Num.Math_abs (yRight - y) / step in
    let maxSlope := Num.Math_max slope1 slope2 in
    if (yThreshold / step <? maxSlope)
       && (((yThreshold <? yLeft) && (yRight <? - yThreshold))
           || ((yLeft <? - yThreshold) && (yThreshold <? yRight)))
    then (asymptotes ++ [x])%list
    else asymptotes
  else asymptotes.

(** The loop over [asymptotes] that fills [cleanedAsymptotes]. *)
Definition clean_step (minDistance : float) (cleanedAsymptotes : list float)
           (asym : float) : list float :=
  if negb (existsb
             (fun existing => Num.Math_abs (existing - asym) <? minDistance)
             cleanedAsymptotes)
  then (cleanedAsymptotes ++ [asym])%list
  else cleanedAsymptotes.

Definition clean (minDistance : float) (asymptotes : list float)
  : list float :=
  fold_left (clean_step minDistance) asymptotes [].

Definition scan_fuel : nat := 4000.

(** The candidates found on [[xMin, xMax]], before the cleaning. *)
Definition candidates (func : jsfun) (xMin xMax yThreshold : float)
  : option (list float) :=
  let xRange := xMax - xMin in
  let step := xRange / 2000 in
  Loop.for_loop scan_fuel xMin xMax step (scan_step func step yThreshold) [].

(** [cleanedAsymptotes], the abscissas at which the lines are drawn. *)
Definition scan (func : jsfun) (xMin xMax yThreshold : float)
  : option (list float) :=
  let xRange := xMax - xMin in
  let step := xRange / 2000 in
  let minDistance := step * 10 in
  match candidates func xMin xMax yThreshold with
  | Some asymptotes => Some (clean minDistance asymptotes)
  | None => None
  end.

(** [drawAsymptotes], up to the drawing: the range and the threshold come
    from the size of the canvas and the zoom. *)
Definition drawAsymptotes (func : jsfun) (width height gridSize : float)
  : option (list float) :=
  let xMin := - width / (2 * gridSize) in
  let xMax := width / (2 * gridSize) in
  let yThreshold := height / (4 * gridSize) in
  scan func xMin xMax yThreshold.

End Asymptotes.


(* ------------------------------------------------------------------ *)
(** * The abscissas the loops visit                                     *)
(* ------------------------------------------------------------------ *)

Module Samples.

Local Open Scope float_scope.

Definition values_of (fuel : nat) (x hi step : float) : list float :=
  match Loop.for_values fuel x hi step with
  | Some xs => xs
  | None => []
  end.

(** The values of [x] in the loops of [analyzeRange], of [analyzeDomain]
    and of [isOneToOne]. *)
Definition range_points : list float :=
  values_of FunctionAnalyzer.range_fuel (-50) 50 0.1.

Definition domain_points : list float :=
  values_of FunctionAnalyzer.domain_fuel (-20) 20 0.1.

Definition injectivity_points : list float := values_of 40 (-5) 5 0.5.

(** The values of [x] in the loop of [drawAsymptotes]. *)
Definition scan_points (xMin xMax : float) : list float :=
  values_of Asymptotes.scan_fuel xMin xMax ((xMax - xMin) / 2000).

(** [visits hi step x xs]: the loop [for (x; x <= hi; x += step)] visits
    the abscissas [xs], in this order, and then stops. *)
Inductive visits (hi step : float) : float -> list float -> Prop :=
| visits_stop (x : float) :
    (x <=? hi) = false -> visits hi step x []
| visits_go (x : float) (xs : list float) :
    (x <=? hi) = true -> visits hi step (x + step) xs ->
    visits hi step x (x :: xs).

End Samples.

(* ------------------------------------------------------------------ *)
(** * Invariants of the sampling loops                                  *)
(* ------------------------------------------------------------------ *)

Module Invariants.

Import Eval ExpressionParser FunctionAnalyzer.

Local Open Scope float_scope.

(** What the loop variables hold after the abscissas [seen], when the
    function is finite at each of them. *)
Record swept (func : jsfun) (s : sweep) (seen : list float) : Prop := {
  swept_infinite : hasInfiniteValues s = false;
  swept_negative : hasNegativeInfinite s = false;
  swept_positive : hasPositiveInfinite s = false;
  swept_count : validPoints s = List.length seen;
  swept_min_in : In (minY s) (List.map (evaluate_number func) seen);
  swept_max_in : In (maxY s) (List.map (evaluate_number func) seen);
  swept_extremes :
    Forall (fun x => (minY s <=? evaluate_number func x) = true
                     /\ (evaluate_number func x <=? maxY s) = true) seen;
  swept_finite :
    Forall (fun x => Num.isFinite (evaluate_number func x) = true) seen
}.

End Invariants.

(* ------------------------------------------------------------------ *)
(** * The functions generated for a few expressions                     *)
(* ------------------------------------------------------------------ *)

Module Compiled.

Import Eval.

Section Functions.

Variable host : MathHost.

(** [sin(x)] *)
Definition sine : jsfun :=
  generated host (Ast.Call1 (Ast.Member Js.Msin) Ast.Var).

(** [x^2] *)
Definition square : jsfun :=
  generated host (Ast.Bin Ast.Pow Ast.Var (Ast.Lit 2)).

(** [x^3] *)
Definition cube : jsfun :=
  generated host (Ast.Bin Ast.Pow Ast.Var (Ast.Lit 3)).

(** [x] *)
Definition identity : jsfun :=
  generated host Ast.Var.

(** [x+1] *)
Definition successor : jsfun :=
  generated host (Ast.Bin Ast.Add Ast.Var (Ast.Lit 1)).

(** [1/x] *)
Definition reciprocal : jsfun :=
  generated host (Ast.Bin Ast.Div (Ast.Lit 1) Ast.Var).

(** [2] *)
Definition two : jsfun :=
  generated host (Ast.Lit 2).

(** [1/(x+50)] *)
Definition pole_at_start : jsfun :=
  generated host
            (Ast.Bin Ast.Div (Ast.Lit 1) (Ast.Bin Ast.Add Ast.Var (Ast.Lit 50))).

(** [1/(x-k)], for an integer [k] *)
Definition pole_at (k : Z) : jsfun :=
  generated host
            (Ast.Bin Ast.Div (Ast.Lit 1)
                     (Ast.Bin Ast.Sub Ast.Var (Ast.Lit (Num.of_Z k)))).

End Functions.

End Compiled.

(* ------------------------------------------------------------------ *)
(** * Tests on the sampled values of a function                         *)
(* ------------------------------------------------------------------ *)

Module Conditions.

Import Eval ExpressionParser FunctionAnalyzer.

Local Open Scope float_scope.

(** The function is finite at each of [pts]. *)
Definition finite_on (func : jsfun) (pts : list float) : bool :=
  forallb (fun p => Num.isFinite (evaluate_number func p)) pts.

(** Its values at [pts] are within [[lo, hi]]. *)
Definition within_on (func : jsfun) (lo hi : float) (pts : list float)
  : bool :=
  forallb (fun p => (lo <=? evaluate_number func p)
                    && (evaluate_number func p <=? hi)) pts.

(** Its values at [pts] are at least [lo]. *)
Definition at_least_on (func : jsfun) (lo : float) (pts : list float)
  : bool :=
  forallb (fun p => lo <=? evaluate_number func p) pts.

(** One of its values at [pts] is at most [c], at least [c]. *)
Definition reaches_below (func : jsfun) (c : float) (pts : list float)
  : bool :=
  existsb (fun p => evaluate_number func p <=? c) pts.

Definition reaches_above (func : jsfun) (c : float) (pts : list float)
  : bool :=
  existsb (fun p => c <=? evaluate_number func p) pts.

(** The tests of [analyzeRange] on the five probe values, lines 452 to 501
    of the source: large at both ends over a lower middle, the mirror
    image, and strictly monotonic with a slope above [0.1]. *)
Definition bowl (a c e : float) : bool :=
  (100 <? a) && (100 <? e) && (c <=? Num.Math_min a e).

Definition dome (a c e : float) : bool :=
  (a <? -100) && (e <? -100) && (Num.Math_max a e <=? c).

Definition steep (a e : float) : bool :=
  0.1 <? Num.Math_abs ((e - a) / 200).

Definition rising (a b c d e : float) : bool :=
  (a <? b) && (b <? c) && (c <? d) && (d <? e) && steep a e.

Definition falling (a b c d e : float) : bool :=
  (b <? a) && (c <? b) && (d <? c) && (e <? d) && steep a e.

(** The probes settle the answer. *)
Definition probes_decide (testValues : list float) : bool :=
  match testValues with
  | [a; b; c; d; e] =>
      forallb Num.isFinite testValues
      && (bowl a c e || dome a c e || rising a b c d e || falling a b c d e)
  | _ => false
  end.

(** At each of [pts] the function is finite and takes the same value at
    the opposite abscissa; the opposite value. *)
Definition even_on (func : jsfun) (pts : list float) : bool :=
  forallb (fun x => Num.isFinite (evaluate_number func x)
                    && PrimFloat.Leibniz.eqb (evaluate_number func (- x))
                                             (evaluate_number func x))
          pts.

Definition odd_on (func : jsfun) (pts : list float) : bool :=
  forallb (fun x => Num.isFinite (evaluate_number func x)
                    && Num.isFinite (evaluate_number func (- x))
                    && PrimFloat.Leibniz.eqb (evaluate_number func (- x))
                                             (- evaluate_number func x))
          pts.

(** The quotient [count / total] compared with [0.8], against the exact
    inequality, for every pair of counters eight points can give. *)
Definition threshold_table : bool :=
  forallb
    (fun total =>
       forallb
         (fun count =>
            Bool.eqb (reaches_threshold count total)
                     ((0 <? total)%nat && (4 * total <=? 5 * count)%nat))
         (seq 0 (S total)))
    (seq 0 9).

Definition probe_values (func : jsfun) : list float :=
  List.map (evaluate_number func) range_probes.

(** The probes are finite and pass the first test. *)
Definition bowl_probes (testValues : list float) : bool :=
  match testValues with
  | [a; b; c; d; e] => forallb Num.isFinite testValues && bowl a c e
  | _ => false
  end.

(** Some value at [pts] is [+Infinity], is [-Infinity]. *)
Definition hits_plus_infinity (func : jsfun) (pts : list float) : bool :=
  existsb (fun p => evaluate_number func p =? infinity) pts.

Definition hits_minus_infinity (func : jsfun) (pts : list float) : bool :=
  existsb (fun p => evaluate_number func p =? neg_infinity) pts.

(** A point with finite values on both sides, [step] away. *)
Definition flanked (func : jsfun) (step x : float) : Prop :=
  Num.isFinite (evaluate_number func (x - step)) = true
  /\ Num.isFinite (evaluate_number func (x + step)) = true.

End Conditions.

(* ------------------------------------------------------------------ *)
(** * Vocabulary for the statements                                     *)
(* ------------------------------------------------------------------ *)

Module Words.

Import Eval ExpressionParser.

Local Open Scope float_scope.

(** [l] is [m] with some elements left out, the order kept. *)
Inductive subsequence {A : Type} : list A -> list A -> Prop :=
| sub_nil : subsequence [] []
| sub_skip (x : A) (l m : list A) :
    subsequence l m -> subsequence l (x :: m)
| sub_keep (x : A) (l m : list A) :
    subsequence l m -> subsequence (x :: l) (x :: m).

(** [a] and [b] are not within [d] of each other, as the code tests it:
    [!(Math.abs(a - b) < d)]. *)
Definition apart (d a b : float) : Prop := (abs (a - b) <? d) = false.

(** The finite values of the function at [pts], in order. *)
Definition finite_values (func : jsfun) (pts : list float) : list float :=
  filter Num.isFinite (List.map (evaluate_number func) pts).

(** The binary64 number [f] is the integer [z], exactly. *)
Definition exact_integer (z : Z) (f : float) : bool :=
  match Prim2SF f with
  | S754_zero _ => (z =? 0)%Z
  | S754_finite sign m e =>
      let magnitude := if sign then (- z)%Z else z in
      if (e <? 0)%Z then (Z.pos m =? magnitude * 2 ^ (- e))%Z
      else (Z.pos m * 2 ^ e =? magnitude)%Z
  | _ => false
  end.

(** The exponent of the last place of a binary64 number of magnitude
    [2^e]. *)
Definition fexp64 (e : Z) : Z := Z.max (e - 53) (-1074).

(** [a] is followed at once by [b] in [l]. *)
Inductive follows {A : Type} (a b : A) : list A -> Prop :=
| follows_here (l : list A) : follows a b (a :: b :: l)
| follows_later (c : A) (l : list A) : follows a b l -> follows a b (c :: l).

End Words.

(* ------------------------------------------------------------------ *)
(** * Vocabulary for the text of an expression                          *)
(* ------------------------------------------------------------------ *)

Module Text.

(** The opening parentheses of [s] less its closing ones. *)
Fixpoint depth (s : string) : Z :=
  match s with
  | EmptyString => 0%Z
  | String c s' =>
      ((if Ascii.eqb c "("%char then 1 else 0)
       - (if Ascii.eqb c ")"%char then 1 else 0) + depth s')%Z
  end.

(** A token that is an operand by itself: a number, the parameter, a name
    the page does not bind, a member of [Math]. *)
Definition operand (bound : string -> bool) (t : Js.token) : bool :=
  match t with
  | Js.TNum _ | Js.TMath _ => true
  | Js.TId name => (name =? "x")%string || negb (bound name)
  | _ => false
  end.

(** The last character of [w], and [prev] for an empty text. *)
Fixpoint last_char (prev : option ascii) (w : string) : option ascii :=
  match w with
  | EmptyString => prev
  | String c w' => last_char (Some c) w'
  end.

(** Some character of [s] in [p] is followed at once by one in [q]. *)
Fixpoint adjacent (p q : ascii -> bool) (s : string) : bool :=
  match s with
  | EmptyString => false
  | String a s1 =>
      match s1 with
      | EmptyString => false
      | String b _ => (p a && q b) || adjacent p q s1
      end
  end.

(** The text [s] with a [*] put between two characters [a] and [b] that
    follow each other, wherever [cond] holds of them and of the character
    before; the search starts again after [b]. *)
Fixpoint star_between (cond : option ascii -> ascii -> ascii -> bool)
         (prev : option ascii) (s : string) : string :=
  match s with
  | EmptyString => EmptyString
  | String a s1 =>
      match s1 with
      | EmptyString => String a EmptyString
      | String b s2 =>
          if cond prev a b
          then String a (String "*" (String b (star_between cond (Some b) s2)))
          else String a (star_between cond (Some a) s1)
      end
  end.

(** The first character of [s] is in [q]. *)
Definition head_in (q : ascii -> bool) (s : string) : bool :=
  match s with String b _ => q b | EmptyString => false end.

Definition not_caret (c : ascii) : bool := negb (Ascii.eqb c "^"%char).

Definition is_lparen (c : ascii) : bool := Ascii.eqb c "("%char.
Definition is_rparen (c : ascii) : bool := Ascii.eqb c ")"%char.

End Text.

(* ------------------------------------------------------------------ *)
(** * The page: [updateFunction]                                        *)
(* ------------------------------------------------------------------ *)

Module Page.

Import Eval ExpressionParser FunctionAnalyzer.

(** [s.trim()], for the white space of ASCII. *)
Fixpoint trim_start (s : string) : string :=
  match s with
  | EmptyString => EmptyString
  | String c s' => if Chars.is_space c then trim_start s' else s
  end.

Fixpoint trim_end (s : string) : string :=
  match s with
  | EmptyString => EmptyString
  | String c s' =>
      match trim_end s' with
      | EmptyString =>
          if Chars.is_space c then EmptyString else String c EmptyString
      | t => String c t
      end
  end.

Definition trim (s : string) : string := trim_end (trim_start s).

(** What [updateFunction] reads and writes: the two variables of the
    script and the three elements of the document. The text of
    [errorMessage] is kept as the error it was made from, and the content
    of [analysisContent] as the report it was made from. *)
Record page : Type := {
  currentFunction : option jsfun;
  currentExpression : string;
  errorText : option error;
  errorShown : bool;
  analysisContent : option analysis;
  analysisShown : bool;
  noAnalysisShown : bool
}.

(** The page as the script finds it: [currentExpression = "x"],
    [currentFunction = null]. What the elements show at first is given. *)
Definition initial (errorShown analysisShown noAnalysisShown : bool)
  : page :=
  {| currentFunction := None;
     currentExpression := "x";
     errorText := None;
     errorShown := errorShown;
     analysisContent := None;
     analysisShown := analysisShown;
     noAnalysisShown := noAnalysisShown |}.

Section Environment.

Variable host : MathHost.
Variable bound : string -> bool.

(** [showError(message)] *)
Definition showError (message : error) (p : page) : page :=
  {| currentFunction := currentFunction p;
     currentExpression := currentExpression p;
     errorText := Some message;
     errorShown := true;
     analysisContent := analysisContent p;
     analysisShown := false;
     noAnalysisShown := true |}.

(** [hideError()] *)
Definition hideError (p : page) : page :=
  {| currentFunction := currentFunction p;
     currentExpression := currentExpression p;
     errorText := errorText p;
     errorShown := false;
     analysisContent := analysisContent p;
     analysisShown := analysisShown p;
     noAnalysisShown := noAnalysisShown p |}.

(** [showAnalysis(analysis, expression)] *)
Definition showAnalysis (a : analysis) (p : page) : page :=
  {| currentFunction := currentFunction p;
     currentExpression := currentExpression p;
     errorText := errorText p;
     errorShown := errorShown p;
     analysisContent := Some a;
     analysisShown := true;
     noAnalysisShown := false |}.

Definition set_function (f : option jsfun) (p : page) : page :=
  {| currentFunction := f;
     currentExpression := currentExpression p;
     errorText := errorText p;
     errorShown := errorShown p;
     analysisContent := analysisContent p;
     analysisShown := analysisShown p;
     noAnalysisShown := noAnalysisShown p |}.

Definition set_expression (e : string) (p : page) : page :=
  {| currentFunction := currentFunction p;
     currentExpression := e;
     errorText := errorText p;
     errorShown := errorShown p;
     analysisContent := analysisContent p;
     analysisShown := analysisShown p;
     noAnalysisShown := noAnalysisShown p |}.

(** The lines of [updateFunction] for an empty input, after [hideError]. *)
Definition hide_analysis (p : page) : page :=
  {| currentFunction := currentFunction p;
     currentExpression := currentExpression p;
     errorText := errorText p;
     errorShown := errorShown p;
     analysisContent := analysisContent p;
     analysisShown := false;
     noAnalysisShown := true |}.

(** [updateFunction()], with [value] the text of the input field; the
    calls of [render], which draws and writes none of these, are left out.
    [None] when the expression is outside of the modelled fragment. *)
Definition updateFunction (value : string) (p : page) : option page :=
  let expression := trim value in
  if (expression =? "")%string then
    Some (hide_analysis (hideError (set_function None p)))
  else
    match parse host bound expression with
    | Ok func =>
        let p := hideError (set_expression expression
                                           (set_function (Some func) p)) in
        match analyzeFunction func expression with
        | Some a => Some (showAnalysis a p)
        | None => None
        end
    | Err message => Some (set_function None (showError message p))
    | OutsideModel => None
    end.

End Environment.

End Page.

(* ------------------------------------------------------------------ *)
(** * The curve: the plotting loop of [render]                          *)
(* ------------------------------------------------------------------ *)

Module Plot.

Import Eval ExpressionParser.

Local Open Scope float_scope.

(** The calls that build the path of the curve. *)
Inductive command : Type :=
| MoveTo (px py : float)
| LineTo (px py : float).

Definition at_px (c : command) : float :=
  match c with MoveTo px _ | LineTo px _ => px end.

Definition at_py (c : command) : float :=
  match c with MoveTo _ py | LineTo _ py => py end.

Definition is_LineTo (c : command) : bool :=
  match c with LineTo _ _ => true | MoveTo _ _ => false end.

(** The variables of the loop, and the path built so far. *)
Record pen : Type := {
  pathStarted : bool;
  prevY : option float;
  prevX : option float;
  path : list command
}.

Definition pen_start : pen :=
  {| pathStarted := false; prevY := None; prevX := None; path := [] |}.

(** [pathStarted = false; continue;] *)
Definition lift (s : pen) : pen :=
  {| pathStarted := false; prevY := prevY s; prevX := prevX s;
     path := path s |}.

Section Canvas.

(** [canvas.width], [canvas.height] and [gridSize]. *)
Variables (func : jsfun) (width height gridSize : float).

Definition logical_x (px : float) : float := (px - width / 2) / gridSize.

Definition canvas_y (px : float) : float :=
  height / 2 - evaluate_number func (logical_x px) * gridSize.

(** The sample is drawn: its value is a finite number and it is within the
    off-screen limits. *)
Definition visible (px : float) : bool :=
  let y := evaluate_number func (logical_x px) in
  if Num.isNaN y || negb (Num.isFinite y) then false
  else
    let py := canvas_y px in
    let offScreenLimit := height * 10 in
    negb ((py <? - offScreenLimit) || (height + offScreenLimit <? py)).

(** The body of the loop over [px]. *)
Definition plot_step (s : pen) (px : float) : pen :=
  let x := (px - width / 2) / gridSize in
  let y := evaluate_number func x in
  if Num.isNaN y || negb (Num.isFinite y) then lift s
  else
    let py := height / 2 - y * gridSize in
    let offScreenLimit := height * 10 in
    if (py <? - offScreenLimit) || (height + offScreenLimit <? py)
    then lift s
    else
      let started :=
        match pathStarted s, prevY s, prevX s with
        | true, Some prevY, Some prevX =>
            let deltaY := Num.Math_abs (py - prevY) in
            let deltaX := Num.Math_abs (x - prevX) in
            let jumpThreshold :=
              height / (2 * Num.Math_sqrt (gridSize / 20)) in
            let smallXThreshold := 1 / gridSize in
            if (jumpThreshold <? deltaY) && (deltaX <? smallXThreshold)
            then false
            else if (height / 2 <? deltaY)
                    && negb (Num.Math_sign py =? Num.Math_sign prevY)
            then false
            else true
        | started, _, _ => started
        end in
      {| pathStarted := true;
         prevY := Some py;
         prevX := Some x;
         path := path s ++ [if started then LineTo px py else MoveTo px py] |}.

(** The step of the loop: [Math.max(0.1, xRange / 2000)]. *)
Definition plot_increment : float :=
  Num.Math_max 0.1 (width / gridSize / 2000).

(** The path after the loop [for (px = 0; px <= canvas.width; px += step)];
    [None] when [fuel] iterations do not end it. *)
Definition plot (fuel : nat) : option (list command) :=
  match Loop.for_loop fuel 0 width plot_increment plot_step pen_start with
  | Some s => Some (path s)
  | None => None
  end.

(** What the loop has built after the samples [seen]. *)
Record drawn_so_far (s : pen) (seen : list float) : Prop := {
  d_started :
    pathStarted s = true ->
    exists seen' path' c,
      seen = (seen' ++ [at_px c])%list /\ path s = (path' ++ [c])%list;
  d_points : List.map at_px (path s) = filter visible seen;
  d_heights : Forall (fun c => at_py c = canvas_y (at_px c)) (path s);
  d_first :
    match path s with c :: _ => is_LineTo c = false | [] => True end;
  d_joins :
    forall c d,
      Words.follows c d (path s) -> is_LineTo d = true ->
      Words.follows (at_px c) (at_px d) seen
}.

End Canvas.

End Plot.


(* ------------------------------------------------------------------ *)
(** * Functions with effects: what [new Function] can return            *)
(* ------------------------------------------------------------------ *)

(** [parse] hands the rewritten text to [new Function] as it is, so the
    function it gets back can be any function of JavaScript: one that
    writes a global, that gives another result at each call, or that does
    not return. Here [parse] and [evaluate] are modelled over such
    functions, with the engine, which makes the function of a text, taken
    as a parameter; the functions of the fragment are the special case
    without effects. *)
Module Script.

Import Eval ExpressionParser.

Local Open Scope float_scope.

Section Effects.

(** All that a call can read and write outside of itself: the properties
    of the global object, above all. *)
Variable store : Type.

(** How a call ends, with the store it leaves; [Diverges] when it does not
    end. *)
Inductive outcome (A : Type) : Type :=
| Returns (a : A) (s : store)
| Throws (s : store)
| Diverges.
Arguments Returns {A} a s.
Arguments Throws {A} s.
Arguments Diverges {A}.

(** A function of JavaScript, called with one number. *)
Definition procedure : Type := store -> float -> outcome value.

(** [evaluate(func, x)] *)
Definition evaluate (func : procedure) (s : store) (x : float)
  : outcome value :=
  match func s x with
  | Returns result s' =>
      Returns (if is_number result then result else VNum Num.NaN) s'
  | Throws s' => Returns (VNum Num.NaN) s'
  | Diverges => Diverges
  end.

(** The self test of [parse]: the probes are tried in turn, up to the first
    that gives a finite number. *)
Fixpoint self_test (func : procedure) (s : store) (tests : list float)
  : outcome bool :=
  match tests with
  | [] => Returns false s
  | testX :: tests' =>
      match func s testX with
      | Returns testResult s' =>
          if is_number testResult && Num.isFinite (ToNumber testResult)
          then Returns true s'
          else self_test func s' tests'
      | Throws s' => self_test func s' tests'
      | Diverges => Diverges
      end
  end.

(** How [parse] ends. *)
Inductive compiled : Type :=
| Compiled (func : procedure) (s : store)
| Refused (e : error) (s : store)
| Hangs
| NotModelled.

(** [parse(expression)], for an engine that makes [new Function("x", ...)]
    of the rewritten text. *)
Definition parse (engine : string -> parsed procedure)
           (expression : string) (s : store) : compiled :=
  if Str.blank expression then Refused EmptyExpression s
  else
    let expression := Normalizer.normalize expression in
    if negb (Normalizer.parens_balanced expression)
    then Refused MismatchedParentheses s
    else
      match engine expression with
      | Rejected => Refused EngineSyntaxError s
      | Unmodelled => NotModelled
      | Parsed func =>
          match self_test func s testValues with
          | Returns true s' => Compiled func s'
          | Returns false s' => Refused NoValidResult s'
          | Throws s' => Refused NoValidResult s'
          | Diverges => Hangs
          end
      end.

(** A function of the fragment: it reads and writes nothing outside. *)
Definition pure (f : jsfun) : procedure :=
  fun s x =>
    match f x with
    | Return v => Returns v s
    | Throw => Throws s
    end.

(** The engine on the texts of the fragment. *)
Definition fragment_engine (host : MathHost) (bound : string -> bool)
           (body : string) : parsed procedure :=
  match new_Function host bound body with
  | Parsed f => Parsed (pure f)
  | Rejected => Rejected
  | Unmodelled => Unmodelled
  end.

End Effects.

Arguments Returns {store A} a s.
Arguments Throws {store A} s.
Arguments Diverges {store A}.
Arguments Compiled {store} func s.
Arguments Refused {store} e s.
Arguments Hangs {store}.
Arguments NotModelled {store}.
Arguments evaluate {store} func s x.
Arguments self_test {store} func s tests.
Arguments parse {store} engine expression s.
Arguments pure {store} f s x.
Arguments fragment_engine {store} host bound body.

(** ** Two texts outside of the fragment *)

(** The properties that scripts have given the global object. *)
Definition globals : Type := list (string * value).

Fixpoint lookup (name : string) (g : globals) : option value :=
  match g with
  | [] => None
  | (n, v) :: g' => if (n =? name)%string then Some v else lookup name g'
  end.

Definition assign (name : string) (v : value) (g : globals) : globals :=
  (name, v) :: g.

(** An assignment to a name that nothing declares: in a function made by
    [new Function], which is not strict, it gives the global object a
    property; its value is the value assigned. *)
Definition assignment_text : string := "a=1".

Definition assignment : procedure globals :=
  fun g _ => Returns (VNum 1) (assign "a" (VNum 1) g).

(** A call of a function that loops, for every [x] that is not below
    [3]. *)
Definition loop_text : string := "x<3?x:(function(){for(;;);})()".

Definition loop : procedure globals :=
  fun g x => if x <? 3 then Returns (VNum x) g else Diverges.

(** An engine that knows the fragment and these two texts; the first is
    as described when the page declares no [a]. *)
Definition engine (host : MathHost) (bound : string -> bool)
           (body : string) : parsed (procedure globals) :=
  if (body =? assignment_text)%string then
    if bound "a" then Unmodelled else Parsed assignment
  else if (body =? loop_text)%string then Parsed loop
  else fragment_engine host bound body.

End Script.

(* ------------------------------------------------------------------ *)
(** * Digits before the name of a constant                             *)
(* ------------------------------------------------------------------ *)

Module Juxtaposition.

Local Open Scope list_scope.

Definition digits : list ascii :=
  ["0"; "1"; "2"; "3"; "4"; "5"; "6"; "7"; "8"; "9"]%char.

(** A digit followed at once by the name of a constant: the twenty
    pairs. *)
Definition pairs : list (ascii * string) :=
  list_prod digits (List.map fst Normalizer.constants).

Definition digit_value (d : ascii) : float :=
  Num.of_Z (Z.of_N (Chars.code d) - 48).

(** The product of the digit and of the name, left as an identifier. *)
Definition product (p : ascii * string) : Ast.expr :=
  Ast.Bin Ast.Mul (Ast.Lit (digit_value (fst p))) (Ast.Free (snd p)).

(** [2*pi], with the constant in place. *)
Definition two_pi : Ast.expr :=
  Ast.Bin Ast.Mul (Ast.Lit 2) (Ast.Lit 3.141592653589793).

End Juxtaposition.

(* ------------------------------------------------------------------ *)
(** * What the examples need of the engine's [**]                      *)
(* ------------------------------------------------------------------ *)

(** The value of [x ** 2] and of [x ** 3] is left to the engine. At the few
    abscissas the analyzers of symmetry and of injectivity sample, all of
    them multiples of [0.5] of small size, the square and the cube are
    numbers of binary64; the examples are proved for an engine that returns
    them. Each condition is a test that computes. *)
Module Host.

Import Eval.

Local Open Scope float_scope.

(** [x ** 2] is [x * x] at each of [ps]. *)
Definition exact_squares (host : MathHost) (ps : list float) : bool :=
  forallb (fun p => PrimFloat.Leibniz.eqb (h_pow host p 2) (p * p)) ps.

(** [x ** 3] is [x * x * x] at each of [ps]. *)
Definition exact_cubes (host : MathHost) (ps : list float) : bool :=
  forallb (fun p => PrimFloat.Leibniz.eqb (h_pow host p 3) (p * p * p)) ps.

(** The functions that return the products. *)
Definition product_square : jsfun := fun x => Return (VNum (x * x)).

Definition product_cube : jsfun := fun x => Return (VNum (x * x * x)).

End Host.

(* ------------------------------------------------------------------ *)
(** * The textual forms of the Domain Analyzer, as the specification    *)
(** * lists them (section 4.5)                                          *)
(* ------------------------------------------------------------------ *)

Module DomainPolicy.

Import Re FunctionAnalyzer.

Local Open Scope list_scope.

(** The forms in their order, each with its answer: [sqrt] of the bare
    variable, [sqrt] of an argument that holds the variable, [log] or [ln]
    likewise, a denominator [x], [tan], [cot] or [sec] of the bare
    variable, [csc] of the bare variable. *)
Definition forms (expr : string) : list (bool * domain) :=
  [ (Str.includes "sqrt(x)" expr, NonNegative);
    (test sqrt_inside_re expr, RootArgument);
    (Str.includes "log(x)" expr || Str.includes "ln(x)" expr, Positive);
    (test log_inside_re expr, LogArgument);
    (Str.includes "/x" expr, NonZero);
    (Str.includes "tan(x)" expr || Str.includes "cot(x)" expr
     || Str.includes "sec(x)" expr, OddHalfPi);
    (Str.includes "csc(x)" expr, WholePi) ].

(** The answer of the first form that applies. *)
Fixpoint first_form (l : list (bool * domain)) : option domain :=
  match l with
  | [] => None
  | (true, d) :: _ => Some d
  | (false, _) :: l' => first_form l'
  end.

(** The answer for the list of exclusions the sweep collected. *)
Definition exclusions (restrictions : list float) : domain :=
  match restrictions with
  | [] => AllReals
  | _ => if (List.length restrictions <=? 5)%nat
         then Excluding restrictions
         else MultipleRestrictions
  end.

End DomainPolicy.

(* ------------------------------------------------------------------ *)
(** * A reciprocal function of an argument that holds a call           *)
(* ------------------------------------------------------------------ *)

Module Nested.

Import Ast.

(** What the engine reads in the text made of [csc(sin(x)+1)]:
    [1/sin(sin(x)) + 1]. *)
Definition as_rewritten : expr :=
  Bin Add
      (Bin Div (Lit 1)
           (Call1 (Member Js.Msin) (Call1 (Member Js.Msin) Var)))
      (Lit 1).

(** The reciprocal of the sine of the whole argument:
    [1/sin(sin(x) + 1)]. *)
Definition as_claimed : expr :=
  Bin Div (Lit 1)
      (Call1 (Member Js.Msin)
             (Bin Add (Call1 (Member Js.Msin) Var) (Lit 1))).

End Nested.

(* ------------------------------------------------------------------ *)
(** * The calls of the self test                                        *)
(* ------------------------------------------------------------------ *)

Module Probes.

Import Eval ExpressionParser Script.

Local Open Scope list_scope.
Local Open Scope float_scope.

Section Calls.

Variable store : Type.
Variable func : procedure store.

(** The result of a call is a finite number. *)
Definition finite_number (testResult : value) : bool :=
  is_number testResult && Num.isFinite (ToNumber testResult).

(** [tried s tests s']: called on each of [tests] in turn, from the store
    [s], the function returned or threw each time and never gave a finite
    number; it left the store [s']. *)
Inductive tried : store -> list float -> store -> Prop :=
| tried_none (s : store) : tried s [] s
| tried_returned (s s1 s2 : store) (testX : float) (tests : list float)
                 (testResult : value) :
    func s testX = Returns testResult s1 ->
    finite_number testResult = false ->
    tried s1 tests s2 -> tried s (testX :: tests) s2
| tried_threw (s s1 s2 : store) (testX : float) (tests : list float) :
    func s testX = Throws s1 ->
    tried s1 tests s2 -> tried s (testX :: tests) s2.

(** The first of [tests] at which the function gives a finite number, and
    the store it leaves there: the probes before it were tried, the probes
    after it are not called. *)
Definition passed (s : store) (tests : list float) (s' : store) : Prop :=
  exists before testX after s1 testResult,
    tests = before ++ testX :: after
    /\ tried s before s1
    /\ func s1 testX = Returns testResult s'
    /\ finite_number testResult = true.

(** The first of [tests] at which the call does not return. *)
Definition stuck (s : store) (tests : list float) : Prop :=
  exists before testX after s1,
    tests = before ++ testX :: after
    /\ tried s before s1
    /\ func s1 testX = Diverges.

End Calls.

Arguments finite_number testResult : simpl never.
Arguments tried {store} func s tests s'.
Arguments passed {store} func s tests s'.
Arguments stuck {store} func s tests.

(** ** A text whose function does not return at the first probe *)

(** The call of a function that loops, for every [x] below [3]. *)
Definition stall_text : string := "x<3?(function(){for(;;);})():x".

Definition stall : procedure globals :=
  fun g x => if x <? 3 then Diverges else Returns (VNum x) g.

(** An engine that knows this text besides. *)
Definition engine (host : MathHost) (bound : string -> bool)
           (body : string) : parsed (procedure globals) :=
  if (body =? stall_text)%string then Parsed stall
  else Script.engine host bound body.

End Probes.

(* ------------------------------------------------------------------ *)
(** * The scan of [1/x] over [[-10, 10]]                                *)
(* ------------------------------------------------------------------ *)

Module Pole.

Import Eval ExpressionParser.

Local Open Scope float_scope.

(** The step of the scan of [[-10, 10]]. *)
Definition step : float := (10 - -10) / 2000.

(** The abscissa of the scan that is nearest to [0], and the next one:
    the additions of the loop are rounded, and [0] itself is not
    visited. *)
Definition nearest : float := -1.6888920817414999e-13.

Definition next : float := 0.0099999999998311107.

(** An abscissa at which no threshold that is not negative makes a
    candidate: the value there is finite, and the values [step] to the
    left and to the right have the same sign. *)
Definition quiet (func : jsfun) (x : float) : bool :=
  let y := evaluate_number func x in
  let yLeft := evaluate_number func (x - step) in
  let yRight := evaluate_number func (x + step) in
  Num.isFinite y
  && (Num.Math_sign yLeft =? Num.Math_sign yRight)
  && ((0 <=? yLeft) && (0 <=? yRight) || (yLeft <=? 0) && (yRight <=? 0)).

(** An abscissa that every threshold up to [bound] makes a candidate, by
    the second test of the loop: finite values, larger than [bound] on
    both sides and of opposite signs. *)
Definition loud (func : jsfun) (bound x : float) : bool :=
  let y := evaluate_number func x in
  let yLeft := evaluate_number func (x - step) in
  let yRight := evaluate_number func (x + step) in
  Num.isFinite y && Num.isFinite yLeft && Num.isFinite yRight
  && (bound <? Num.Math_abs yLeft) && (bound <? Num.Math_abs yRight)
  && negb (Num.Math_sign yLeft =? Num.Math_sign yRight).

End Pole.

(* ------------------------------------------------------------------ *)
(** * The decision policy of the Range Analyzer, as the specification   *)
(** * words it (section 4.6)                                            *)
(* ------------------------------------------------------------------ *)

Module RangePolicy.

Import FunctionAnalyzer.

Local Open Scope list_scope.
Local Open Scope float_scope.

(** "within ±0.1 of 0" *)
Definition near_zero (v : float) : bool := (-0.1 <=? v) && (v <=? 0.1).

(** "strictly monotonic increasing or decreasing across all 5 probes" *)
Definition increasing (a b c d e : float) : bool :=
  (a <? b) && (b <? c) && (c <? d) && (d <? e).

Definition decreasing (a b c d e : float) : bool :=
  (b <? a) && (c <? b) && (d <? c) && (e <? d).

(** Step 4, on the values at [-100], [-10], [0], [10] and [100]. *)
Definition probe_verdict (s : sweep) (probes : list float) : option range :=
  match probes with
  | [a; b; c; d; e] =>
      if forallb Num.isFinite probes then
        if (100 <? a) && (100 <? e) && ((c <=? a) && (c <=? e)) then
          Some (if near_zero (minY s) then AtLeastZero else AtLeast (minY s))
        else if (a <? -100) && (e <? -100) && ((a <=? c) && (e <=? c)) then
          Some (if near_zero (maxY s) then AtMostZero else AtMost (maxY s))
        else if (increasing a b c d e || decreasing a b c d e)
                && (0.1 <? abs ((e - a) / 200))
        then Some WholeLine
        else None
      else None
  | _ => None
  end.

(** The nine steps, in order. *)
Definition range_policy (s : sweep) (probes : list float) : range :=
  (* 1 *)
  if hasPositiveInfinite s && hasNegativeInfinite s then WholeLine
  (* 2 *)
  else if hasPositiveInfinite s then TowardsPlusInfinity
  else if hasNegativeInfinite s then TowardsMinusInfinity
  (* 3 *)
  else if (validPoints s <? 10)%nat
          || negb (Num.isFinite (minY s)) || negb (Num.isFinite (maxY s))
  then CannotDetermine
  else
    (* 4 *)
    match probe_verdict s probes with
    | Some r => r
    | None =>
        (* 5 *)
        if maxY s - minY s <? 0.01
        then NearlyConstant ((minY s + maxY s) / 2)
        (* 6 *)
        else if (-1.1 <=? minY s) && (maxY s <=? 1.1)
                && (minY s <=? -0.9) && (0.9 <=? maxY s)
        then UnitInterval
        (* 7 *)
        else if near_zero (minY s)
        then (if 100 <? maxY s then AtLeastZero else ZeroUpTo (maxY s))
        else if near_zero (maxY s)
        then (if minY s <? -100 then AtMostZero else UpToZero (minY s))
        (* 8 *)
        else if 100 <? maxY s - minY s then WholeLine
        (* 9 *)
        else Between (minY s) (maxY s)
    end.

End RangePolicy.

(* ------------------------------------------------------------------ *)
(** * What the sweep of the Range Analyzer keeps                        *)
(* ------------------------------------------------------------------ *)

Module Tracking.

Import Eval ExpressionParser FunctionAnalyzer Words Conditions.

Local Open Scope list_scope.
Local Open Scope float_scope.

(** The variables of the loop after the abscissas [seen]: the count of the
    finite values, the flags of the two infinities, and the least and the
    greatest of the finite values, if any. *)
Record tracked (func : jsfun) (s : sweep) (seen : list float) : Prop := {
  tracked_count : validPoints s = List.length (finite_values func seen);
  tracked_plus : hasPositiveInfinite s = hits_plus_infinity func seen;
  tracked_minus : hasNegativeInfinite s = hits_minus_infinity func seen;
  tracked_any : hasInfiniteValues s = negb (finite_on func seen);
  tracked_empty :
    finite_values func seen = [] ->
    minY s = infinity /\ maxY s = neg_infinity;
  tracked_min :
    finite_values func seen <> [] ->
    In (minY s) (finite_values func seen)
    /\ Forall (fun v => (minY s <=? v) = true) (finite_values func seen);
  tracked_max :
    finite_values func seen <> [] ->
    In (maxY s) (finite_values func seen)
    /\ Forall (fun v => (v <=? maxY s) = true) (finite_values func seen)
}.

End Tracking.

(* ------------------------------------------------------------------ *)
(** * What the examples need of the engine's [sin] and [**]             *)
(* ------------------------------------------------------------------ *)

(** The values of [Math.sin] and of [**] are left to the engine. The
    examples of the Range Analyzer are proved for an engine whose values,
    at the abscissas of the sweep and at the five probes, are as those of
    the sine and of the square in these respects; each condition is a test
    that computes. *)
Module Sampled.

Import FunctionAnalyzer.

Local Open Scope float_scope.

(** On the sweep the sine is finite and within [[-1.1, 1.1]], it gets to
    [-0.9] or below and to [0.9] or above; at the probes it is finite,
    [sin(-100)] is within [[-1.1, 1.1]], and [sin(-10)] is below neither
    [sin(0)] nor [sin(-100)]. *)
Definition sine (host : MathHost) : bool :=
  forallb (fun p => is_finite (h_sin host p)
                    && (-1.1 <=? h_sin host p) && (h_sin host p <=? 1.1))
          Samples.range_points
  && existsb (fun p => h_sin host p <=? -0.9) Samples.range_points
  && existsb (fun p => 0.9 <=? h_sin host p) Samples.range_points
  && forallb (fun p => is_finite (h_sin host p)) range_probes
  && (-1.1 <=? h_sin host (-100)) && (h_sin host (-100) <=? 1.1)
  && negb (h_sin host (-10) <? h_sin host 0)
  && negb (h_sin host (-10) <? h_sin host (-100)).

(** On the sweep the squares are finite and not negative, and one of them
    is at most [0.1]; at the probes they are finite, those of [-100] and
    of [100] are above [100], and that of [0] is at most both. *)
Definition squares (host : MathHost) : bool :=
  forallb (fun p => is_finite (h_pow host p 2) && (0 <=? h_pow host p 2))
          Samples.range_points
  && existsb (fun p => h_pow host p 2 <=? 0.1) Samples.range_points
  && forallb (fun p => is_finite (h_pow host p 2)) range_probes
  && (100 <? h_pow host (-100) 2) && (100 <? h_pow host 100 2)
  && (h_pow host 0 2 <=? h_pow host (-100) 2)
  && (h_pow host 0 2 <=? h_pow host 100 2).

End Sampled.
(* ------------------------------------------------------------------ *)
(** * Properties of [evaluate] and of the compiled functions            *)
(* ------------------------------------------------------------------ *)

Import Eval ExpressionParser.

Open Scope list_scope.

Lemma evaluate_is_number (func : jsfun) (x : float) :
  is_number (evaluate func x) = true.
Proof.
  unfold evaluate.
  destruct (func x) as [v|]; [|reflexivity].
  destruct (is_number v) eqn:E; [exact E|reflexivity].
Qed.

Lemma evaluate_number_eq (func : jsfun) (x : float) :
  evaluate func x = VNum (evaluate_number func x).
Proof.
  unfold evaluate_number.
  pose proof (evaluate_is_number func x) as H.
  destruct (evaluate func x); simpl in *; try discriminate; reflexivity.
Qed.

(** A number is finite, [NaN] or an infinity. *)
Lemma number_classes (y : float) :
  Num.isFinite y = true \/ Num.isNaN y = true \/ is_infinity y = true.
Proof.
  unfold Num.isFinite, Num.isNaN, is_finite.
  destruct (is_nan y), (is_infinity y); simpl; auto.
Qed.

(** The divisors of the decimal literals are exact: [Num.of_Z (10^k)] is
    the integer [10^k] for every [k] up to [18], and no literal with more
    digits after the point is given a value. *)
Lemma decimal_divisors_exact :
  forallb (fun k => Words.exact_integer (10 ^ Z.of_nat k)
                                        (Num.of_Z (10 ^ Z.of_nat k)))
          (seq 0 19) = true
  /\ forall n k, (18 < k)%nat -> Num.of_decimal n k = None.
Proof.
  split; [vm_compute; reflexivity|].
  intros n k H. unfold Num.of_decimal.
  destruct (Nat.leb_spec k 18) as [L|_]; [lia|].
  rewrite andb_false_r. reflexivity.
Qed.

(** What [parse] returns, when it returns: the generated function of an
    expression of the fragment. *)
Lemma parse_ok_inv (host : MathHost) (bound : string -> bool)
      (expression : string) (func : jsfun) :
  parse host bound expression = Ok func ->
  exists e,
    Ast.parse_text bound (Normalizer.normalize expression) = Parsed e
    /\ func = generated host e
    /\ hasValidResult func = true.
Proof.
  unfold parse, new_Function.
  destruct (Str.blank expression); [discriminate|].
  destruct (Normalizer.parens_balanced (Normalizer.normalize expression));
    [|discriminate].
  cbv beta iota delta [negb].
  destruct (Ast.parse_text bound (Normalizer.normalize expression))
    as [e| |]; try discriminate.
  destruct (hasValidResult (generated host e)) eqn:V; [|discriminate].
  intros H. injection H as <-. exists e. auto.
Qed.

Lemma generated_returns (host : MathHost) (e : Ast.expr) (x : float) :
  exists v, generated host e x = Return v.
Proof.
  unfold generated. destruct (eval host e x); eauto.
Qed.

Lemma evaluate_generated (host : MathHost) (e : Ast.expr) (x : float) :
  evaluate (generated host e) x = VNum (number_of_result (eval host e x)).
Proof.
  unfold evaluate, generated.
  destruct (eval host e x) as [[y| |]|]; reflexivity.
Qed.

(** The compiled [1/x] returns [Infinity] at [0]. *)
Lemma reciprocal_at_zero (host : MathHost) (bound : string -> bool) :
  exists func,
    parse host bound "1/x" = Ok func
    /\ evaluate func 0 = VNum infinity.
Proof.
  eexists. split; vm_compute; reflexivity.
Qed.

Section ScriptFacts.

Import Script.

Variable store : Type.

(** [evaluate] catches what the function throws, and lets nothing through
    that is not a number. *)
Lemma evaluate_outcome (func : procedure store) (s : store) (x : float) :
  match evaluate func s x with
  | Returns v s' =>
      (exists y, v = VNum y)
      /\ (exists r, func s x = Returns r s') \/ func s x = Throws s'
  | Throws _ => False
  | Diverges => func s x = Diverges
  end.
Proof.
  unfold evaluate. destruct (func s x) as [r s'| s' |].
  - left. split; [|exists r; reflexivity].
    destruct r as [y|f|]; cbn; eauto.
  - right. reflexivity.
  - reflexivity.
Qed.

Lemma evaluate_returns_number (func : procedure store) (s s' : store)
      (x : float) (v : value) :
  evaluate func s x = Returns v s' -> exists y, v = VNum y.
Proof.
  unfold evaluate. destruct (func s x) as [r s1| s1 |]; try discriminate.
  - intros H. injection H as <- _. destruct r as [y|f|]; cbn; eauto.
  - intros H. injection H as <- _. eauto.
Qed.

(** The self test of a function without effects. *)
Lemma self_test_pure (f : jsfun) (s : store) (tests : list float) :
  self_test (pure f) s tests
  = Returns (existsb
               (fun testX =>
                  match f testX with
                  | Return testResult =>
                      is_number testResult
                      && Num.isFinite (ToNumber testResult)
                  | Throw => false
                  end) tests) s.
Proof.
  induction tests as [|t tests IH]; cbn [self_test existsb]; [reflexivity|].
  unfold pure at 1. destruct (f t) as [r|].
  - destruct (is_number r && Num.isFinite (ToNumber r)); [reflexivity|exact IH].
  - exact IH.
Qed.

(** On the fragment the two models of [parse] agree. *)
Lemma parse_fragment (host : MathHost) (bound : string -> bool)
      (expression : string) (s : store) :
  Script.parse (fragment_engine host bound) expression s
  = match ExpressionParser.parse host bound expression with
    | Ok f => Compiled (pure f) s
    | Err e => Refused e s
    | OutsideModel => NotModelled
    end.
Proof.
  unfold Script.parse, ExpressionParser.parse, fragment_engine.
  destruct (Str.blank expression); [reflexivity|].
  destruct (negb (Normalizer.parens_balanced
                    (Normalizer.normalize expression))); [reflexivity|].
  destruct (new_Function host bound (Normalizer.normalize expression))
    as [f| |]; try reflexivity.
  rewrite self_test_pure. unfold hasValidResult.
  destruct (existsb _ testValues); reflexivity.
Qed.

Lemma evaluate_pure (f : jsfun) (s : store) (x : float) :
  evaluate (pure f) s x = Returns (ExpressionParser.evaluate f x) s.
Proof.
  unfold evaluate, pure, ExpressionParser.evaluate.
  destruct (f x) as [r|]; reflexivity.
Qed.

End ScriptFacts.

(** C1, as the code has it. Whatever the engine makes of the text, for a
    function that [parse] returns [evaluate(func, x)] never raises, and
    what it returns is a number: finite, [NaN] or a signed infinity. For an
    expression of the fragment, moreover, [parse] and [evaluate] write
    nothing, [evaluate] returns for every [x], and what it returns depends
    on [x] alone. *)
Theorem evaluate_never_raises :
  (forall (store : Type) (engine : string -> parsed (Script.procedure store))
          (expression : string) (s0 s1 : store)
          (func : Script.procedure store),
      Script.parse engine expression s0 = Script.Compiled func s1 ->
      forall (s : store) (x : float),
        (forall s', Script.evaluate func s x <> Script.Throws s')
        /\ (forall v s',
               Script.evaluate func s x = Script.Returns v s' ->
               exists y,
                 v = VNum y
                 /\ (Num.isFinite y = true \/ Num.isNaN y = true
                     \/ is_infinity y = true)))
  /\ (forall (store : Type) (host : MathHost) (bound : string -> bool)
             (expression : string) (s0 s1 : store)
             (func : Script.procedure store),
         Script.parse (Script.fragment_engine host bound) expression s0
         = Script.Compiled func s1 ->
         s1 = s0
         /\ exists value_at : float -> float,
             forall (s : store) (x : float),
               Script.evaluate func s x
               = Script.Returns (VNum (value_at x)) s).
Proof.
  split.
  - intros store engine expression s0 s1 func _ s x. split.
    + intros s' E. pose proof (evaluate_outcome store func s x) as O.
      rewrite E in O. exact O.
    + intros v s' E.
      destruct (evaluate_returns_number store func s s' x v E) as [y ->].
      exists y. split; [reflexivity|apply number_classes].
  - intros store host bound expression s0 s1 func H.
    rewrite parse_fragment in H.
    destruct (ExpressionParser.parse host bound expression) as [f|e|];
      try discriminate.
    assert (E1 : Script.pure f = func)
      by exact (f_equal (fun c => match c with
                                  | Script.Compiled g _ => g
                                  | _ => func
                                  end) H).
    assert (E2 : s0 = s1)
      by exact (f_equal (fun c => match c with
                                  | Script.Compiled _ t => t
                                  | _ => s1
                                  end) H).
    split; [symmetry; exact E2|].
    exists (evaluate_number f). intros s x.
    rewrite <- E1, evaluate_pure, evaluate_number_eq. reflexivity.
Qed.

Lemma evaluate_never_raises_witness :
  let engine := Script.engine Reference.host Reference.nothing_bound in
  let after := [("a"%string, VNum 1)] in
  (Script.parse engine Script.assignment_text []
   = Script.Compiled Script.assignment after
   /\ forall (s : Script.globals) (x : float),
        (forall s', Script.evaluate Script.assignment s x <> Script.Throws s')
        /\ (forall v s',
               Script.evaluate Script.assignment s x = Script.Returns v s' ->
               exists y,
                 v = VNum y
                 /\ (Num.isFinite y = true \/ Num.isNaN y = true
                     \/ is_infinity y = true)))
  /\ (Script.parse (Script.fragment_engine Reference.host
                                           Reference.nothing_bound)
                   "1/x" ([] : Script.globals)
      = Script.Compiled (Script.pure (Compiled.reciprocal Reference.host)) []
      /\ ([] : Script.globals) = []
      /\ exists value_at : float -> float,
          forall (s : Script.globals) (x : float),
            Script.evaluate (Script.pure (Compiled.reciprocal Reference.host))
                            s x
            = Script.Returns (VNum (value_at x)) s).
Proof.
  cbv zeta.
  assert (H1 : Script.parse (Script.engine Reference.host
                                           Reference.nothing_bound)
                 Script.assignment_text []
               = Script.Compiled Script.assignment [("a"%string, VNum 1)])
    by (vm_compute; reflexivity).
  assert (H2 : Script.parse (Script.fragment_engine Reference.host
                                                    Reference.nothing_bound)
                 "1/x" ([] : Script.globals)
               = Script.Compiled
                   (Script.pure (Compiled.reciprocal Reference.host)) [])
    by (vm_compute; reflexivity).
  split.
  - split; [exact H1|].
    exact (proj1 evaluate_never_raises Script.globals _ _ _ _ _ H1).
  - split; [exact H2|].
    exact (proj2 evaluate_never_raises Script.globals _ _ _ _ _ _ H2).
Defined.

(** The two texts are not of the fragment, and the rewriting leaves them as
    they are. *)
Lemma texts_outside_fragment (host : MathHost) (bound : string -> bool) :
  Normalizer.normalize Script.assignment_text = Script.assignment_text
  /\ Normalizer.normalize Script.loop_text = Script.loop_text
  /\ new_Function host bound Script.assignment_text = Unmodelled
  /\ new_Function host bound Script.loop_text = Unmodelled.
Proof. repeat split; vm_compute; reflexivity. Qed.

(** C1 as it is stated fails, part by part, for functions that [parse]
    returns:
    - [1/x] gives [Infinity] at [0], which is neither finite nor [NaN];
    - [a=1] writes the global [a] at each call;
    - the conditional loop does not return at [3]. *)
Lemma evaluate_claim_fails :
  let engine := Script.engine Reference.host Reference.nothing_bound in
  ~ (forall expression func s1 s x v s',
        Script.parse engine expression [] = Script.Compiled func s1 ->
        Script.evaluate func s x = Script.Returns v s' ->
        exists y, v = VNum y
                  /\ (Num.isFinite y = true \/ Num.isNaN y = true))
  /\ ~ (forall expression func s1 s x v s',
           Script.parse engine expression [] = Script.Compiled func s1 ->
           Script.evaluate func s x = Script.Returns v s' ->
           s' = s)
  /\ ~ (forall expression func s1 s x,
           Script.parse engine expression [] = Script.Compiled func s1 ->
           Script.evaluate func s x <> Script.Diverges).
Proof.
  cbv zeta.
  assert (P1 : Script.parse (Script.engine Reference.host
                                           Reference.nothing_bound) "1/x" []
               = Script.Compiled
                   (Script.pure (Compiled.reciprocal Reference.host)) [])
    by (vm_compute; reflexivity).
  assert (P2 : Script.parse (Script.engine Reference.host
                                           Reference.nothing_bound)
                 Script.assignment_text []
               = Script.Compiled Script.assignment [("a"%string, VNum 1)])
    by (vm_compute; reflexivity).
  assert (P3 : Script.parse (Script.engine Reference.host
                                           Reference.nothing_bound)
                 Script.loop_text []
               = Script.Compiled Script.loop [])
    by (vm_compute; reflexivity).
  split; [|split].
  - intros H.
    destruct (H "1/x"%string _ _ [] 0%float (VNum infinity) [] P1 eq_refl)
      as (y & E & F).
    assert (Y : y = infinity)
      by exact (f_equal (fun v => match v with VNum z => z | _ => y end)
                        (eq_sym E)).
    rewrite Y in F. destruct F as [F|F]; vm_compute in F; discriminate.
  - intros H.
    specialize (H Script.assignment_text _ _ [] 0%float
                  (VNum 1) [("a"%string, VNum 1)] P2 eq_refl).
    discriminate.
  - intros H.
    exact (H Script.loop_text _ _ [] 3%float P3 eq_refl).
Qed.


(* ------------------------------------------------------------------ *)
(** * Loops                                                             *)
(* ------------------------------------------------------------------ *)

Section LoopFacts.

Context {S : Type}.
Variables (hi step : float) (body : S -> float -> S).

Lemma for_loop_fold_from (fuel : nat) :
  forall (x : float) (acc ys : list float) (s : S),
    Loop.for_loop fuel x hi step (fun acc x => acc ++ [x]) acc = Some ys ->
    exists xs,
      ys = acc ++ xs
      /\ Samples.visits hi step x xs
      /\ Loop.for_loop fuel x hi step body s = Some (fold_left body xs s).
Proof.
  induction fuel as [|fuel IH]; intros x acc ys s; cbn [Loop.for_loop].
  - discriminate.
  - destruct (x <=? hi)%float eqn:E.
    + intros H. destruct (IH _ _ _ (body s x) H) as (xs & -> & Hv & Hf).
      exists (x :: xs). rewrite <- app_assoc. repeat split.
      * now constructor.
      * exact Hf.
    + intros H. injection H as <-. exists []. rewrite app_nil_r.
      repeat split. now constructor.
Qed.

(** A loop over a range is the fold of its body over the abscissas. *)
Lemma for_loop_fold (fuel : nat) (x : float) (xs : list float) (s : S) :
  Loop.for_values fuel x hi step = Some xs ->
  Samples.visits hi step x xs
  /\ Loop.for_loop fuel x hi step body s = Some (fold_left body xs s).
Proof.
  intros H. destruct (for_loop_fold_from fuel x [] xs s H) as (ys & E & Hv & Hf).
  cbn in E. subst ys. auto.
Qed.

End LoopFacts.

Lemma values_of_some (fuel : nat) (x hi step : float) :
  Loop.for_values fuel x hi step <> None ->
  Loop.for_values fuel x hi step = Some (Samples.values_of fuel x hi step).
Proof.
  unfold Samples.values_of. destruct (Loop.for_values fuel x hi step); congruence.
Qed.

Lemma range_points_visited :
  Loop.for_values FunctionAnalyzer.range_fuel (-50) 50 0.1
  = Some Samples.range_points.
Proof. apply values_of_some. vm_compute. discriminate. Qed.

Lemma domain_points_visited :
  Loop.for_values FunctionAnalyzer.domain_fuel (-20) 20 0.1
  = Some Samples.domain_points.
Proof. apply values_of_some. vm_compute. discriminate. Qed.

Lemma injectivity_points_visited :
  FunctionAnalyzer.injectivity_points = Some Samples.injectivity_points.
Proof. apply values_of_some. vm_compute. discriminate. Qed.

(** The lists of abscissas are long: they are computed only on demand. *)
Opaque Samples.range_points Samples.domain_points Samples.injectivity_points.

(* ------------------------------------------------------------------ *)
(** * The order of binary64 numbers                                     *)
(* ------------------------------------------------------------------ *)

Module FloatOrder.

Import SpecFloat.

Local Open Scope float_scope.

Ltac cmp_cases :=
  repeat match goal with
  | |- context [Z.compare ?a ?b] => destruct (Z.compare_spec a b); subst
  | H : context [Z.compare ?a ?b] |- _ =>
      destruct (Z.compare_spec a b); subst
  | |- context [Pos.compare_cont Eq ?a ?b] =>
      change (Pos.compare_cont Eq a b) with (Pos.compare a b);
      destruct (Pos.compare_spec a b); subst
  | H : context [Pos.compare_cont Eq ?a ?b] |- _ =>
      change (Pos.compare_cont Eq a b) with (Pos.compare a b) in H;
      destruct (Pos.compare_spec a b); subst
  end.

Ltac sf_cases :=
  repeat match goal with
  | x : spec_float |- _ => destruct x
  | s : bool |- _ => destruct s
  end;
  cbn in *; try discriminate; try reflexivity; try congruence.

Ltac sf_order :=
  unfold SFleb, SFltb, SFeqb, SFcompare in *;
  sf_cases; cmp_cases; cbn in *;
  try discriminate; try reflexivity; try congruence; try lia.

Lemma SFleb_trans x y z :
  SFleb x y = true -> SFleb y z = true -> SFleb x z = true.
Proof. sf_order. Qed.

Lemma SFltb_leb_trans x y z :
  SFltb x y = true -> SFleb y z = true -> SFltb x z = true.
Proof. sf_order. Qed.

Lemma SFleb_ltb_trans x y z :
  SFleb x y = true -> SFltb y z = true -> SFltb x z = true.
Proof. sf_order. Qed.

Lemma SFltb_false_leb x y :
  x <> S754_nan -> y <> S754_nan -> SFltb x y = false -> SFleb y x = true.
Proof. sf_order. Qed.

Lemma SFleb_not_ltb x y : SFleb x y = true -> SFltb y x = false.
Proof. sf_order. Qed.

Lemma SFltb_leb x y : SFltb x y = true -> SFleb x y = true.
Proof. sf_order. Qed.

Lemma SFeqb_refl x : x <> S754_nan -> SFeqb x x = true.
Proof. sf_order. Qed.

Lemma SFleb_refl x : x <> S754_nan -> SFleb x x = true.
Proof. sf_order. Qed.

Lemma Prim2SF_infinity : Prim2SF infinity = S754_infinity false.
Proof. reflexivity. Qed.

Lemma Prim2SF_neg_infinity : Prim2SF neg_infinity = S754_infinity true.
Proof. reflexivity. Qed.

(** ** On the primitive numbers *)

Lemma not_nan (a : float) : is_nan a = false <-> Prim2SF a <> S754_nan.
Proof.
  unfold is_nan. rewrite eqb_spec. split.
  - intros H E. rewrite E in H. discriminate.
  - intros H. rewrite SFeqb_refl by exact H. reflexivity.
Qed.

Lemma finite_cases (a : float) :
  is_finite a = true ->
  (exists s, Prim2SF a = S754_zero s)
  \/ (exists s m e, Prim2SF a = S754_finite s m e).
Proof.
  unfold is_finite, is_infinity.
  destruct (is_nan a) eqn:N; [discriminate|].
  apply not_nan in N.
  rewrite eqb_spec, abs_spec, Prim2SF_infinity.
  destruct (Prim2SF a) as [s|s| |s m e]; cbn; try discriminate; eauto.
  congruence.
Qed.

Lemma finite_not_nan (a : float) : is_finite a = true -> is_nan a = false.
Proof.
  unfold is_finite. destruct (is_nan a); [discriminate|reflexivity].
Qed.

Lemma leb_trans (a b c : float) :
  (a <=? b) = true -> (b <=? c) = true -> (a <=? c) = true.
Proof. rewrite !leb_spec. apply SFleb_trans. Qed.

Lemma ltb_leb_trans (a b c : float) :
  (a <? b) = true -> (b <=? c) = true -> (a <? c) = true.
Proof. rewrite !leb_spec, !ltb_spec. apply SFltb_leb_trans. Qed.

Lemma leb_ltb_trans (a b c : float) :
  (a <=? b) = true -> (b <? c) = true -> (a <? c) = true.
Proof. rewrite !leb_spec, !ltb_spec. apply SFleb_ltb_trans. Qed.

Lemma ltb_leb (a b : float) : (a <? b) = true -> (a <=? b) = true.
Proof. rewrite leb_spec, ltb_spec. apply SFltb_leb. Qed.

Lemma leb_not_ltb (a b : float) : (a <=? b) = true -> (b <? a) = false.
Proof. rewrite leb_spec, ltb_spec. apply SFleb_not_ltb. Qed.

Lemma not_ltb_leb (a b : float) :
  is_nan a = false -> is_nan b = false ->
  (a <? b) = false -> (b <=? a) = true.
Proof.
  rewrite leb_spec, ltb_spec, !not_nan. apply SFltb_false_leb.
Qed.

Lemma leb_refl (a : float) : is_nan a = false -> (a <=? a) = true.
Proof. rewrite leb_spec, not_nan. apply SFleb_refl. Qed.

Lemma finite_below_infinity (a : float) :
  is_finite a = true -> (a <? infinity) = true.
Proof.
  intros H. rewrite ltb_spec, Prim2SF_infinity.
  destruct (finite_cases a H) as [[s ->]|(s & m & e & ->)]; reflexivity.
Qed.

Lemma finite_above_neg_infinity (a : float) :
  is_finite a = true -> (neg_infinity <? a) = true.
Proof.
  intros H. rewrite ltb_spec, Prim2SF_neg_infinity.
  destruct (finite_cases a H) as [[s ->]|(s & m & e & ->)]; reflexivity.
Qed.

(** [a - (-b)] and [a + b] are the same number. *)
Lemma sub_opp (a b : float) : a - - b = a + b.
Proof.
  apply Prim2SF_inj. rewrite sub_spec, opp_spec, add_spec.
  destruct (Prim2SF a) as [[]|[]| |[] ? ?],
           (Prim2SF b) as [[]|[]| |[] ? ?]; reflexivity.
Qed.

End FloatOrder.

(* ------------------------------------------------------------------ *)
(** * The sampling loop of [analyzeRange]                               *)
(* ------------------------------------------------------------------ *)

Section RangeSweep.

Import FunctionAnalyzer Invariants.

Local Open Scope float_scope.

Variable func : jsfun.

Local Abbreviation f := (evaluate_number func).

Lemma swept_min_finite s seen :
  swept func s seen -> Num.isFinite (minY s) = true.
Proof.
  intros H. pose proof (swept_min_in _ _ _ H) as Hin.
  apply in_map_iff in Hin. destruct Hin as (x & <- & Hx).
  pose proof (swept_finite _ _ _ H) as Hf.
  rewrite Forall_forall in Hf. exact (Hf x Hx).
Qed.

Lemma swept_max_finite s seen :
  swept func s seen -> Num.isFinite (maxY s) = true.
Proof.
  intros H. pose proof (swept_max_in _ _ _ H) as Hin.
  apply in_map_iff in Hin. destruct Hin as (x & <- & Hx).
  pose proof (swept_finite _ _ _ H) as Hf.
  rewrite Forall_forall in Hf. exact (Hf x Hx).
Qed.

Lemma swept_first (x : float) :
  Num.isFinite (f x) = true -> swept func (range_step func sweep_start x) [x].
Proof.
  intros Hx. unfold range_step. rewrite Hx.
  cbn [negb sweep_start minY maxY hasInfiniteValues hasNegativeInfinite
       hasPositiveInfinite validPoints].
  rewrite (FloatOrder.finite_below_infinity _ Hx).
  rewrite (FloatOrder.finite_above_neg_infinity _ Hx).
  pose proof (FloatOrder.leb_refl _ (FloatOrder.finite_not_nan _ Hx)) as R.
  constructor; cbn; auto.
Qed.

Lemma swept_next (s : sweep) (seen : list float) (x : float) :
  swept func s seen -> Num.isFinite (f x) = true ->
  swept func (range_step func s x) (seen ++ [x]).
Proof.
  intros H Hx.
  pose proof (FloatOrder.finite_not_nan _ Hx) as Nx.
  pose proof (FloatOrder.finite_not_nan _ (swept_min_finite _ _ H)) as Nmin.
  pose proof (FloatOrder.finite_not_nan _ (swept_max_finite _ _ H)) as Nmax.
  pose proof (FloatOrder.leb_refl _ Nx) as Rx.
  destruct H as [Hi Hn Hp Hc Hmin Hmax Hext Hfin].
  unfold range_step. rewrite Hx. cbn [negb].
  constructor; cbn [minY maxY hasInfiniteValues hasNegativeInfinite
                    hasPositiveInfinite validPoints]; auto.
  - rewrite length_app, Hc. cbn. lia.
  - rewrite map_app, in_app_iff. cbn.
    destruct (f x <? minY s); auto.
  - rewrite map_app, in_app_iff. cbn.
    destruct (maxY s <? f x); auto.
  - apply Forall_app. split.
    + eapply Forall_impl; [|exact Hext]. cbn. intros a [Ha1 Ha2]. split.
      * destruct (f x <? minY s) eqn:E; [|exact Ha1].
        apply FloatOrder.ltb_leb.
        eapply FloatOrder.ltb_leb_trans; eauto.
      * destruct (maxY s <? f x) eqn:E; [|exact Ha2].
        apply FloatOrder.ltb_leb.
        eapply FloatOrder.leb_ltb_trans; eauto.
    + constructor; [|constructor]. split.
      * destruct (f x <? minY s) eqn:E; [exact Rx|].
        apply FloatOrder.not_ltb_leb; auto.
      * destruct (maxY s <? f x) eqn:E; [exact Rx|].
        apply FloatOrder.not_ltb_leb; auto.
  - apply Forall_app. split; [exact Hfin|]. constructor; auto.
Qed.

Lemma swept_fold (xs : list float) :
  forall (s : sweep) (seen : list float),
    swept func s seen ->
    Forall (fun x => Num.isFinite (f x) = true) xs ->
    swept func (fold_left (range_step func) xs s) (seen ++ xs).
Proof.
  induction xs as [|x xs IH]; intros s seen H Hxs; cbn [fold_left].
  - rewrite app_nil_r. exact H.
  - inversion Hxs as [|? ? Hx Hrest]; subst.
    replace (seen ++ x :: xs) with ((seen ++ [x]) ++ xs)
      by (rewrite <- app_assoc; reflexivity).
    apply IH; [|exact Hrest]. apply swept_next; assumption.
Qed.

(** The sweep of a function that is finite at every abscissa: no flag is
    raised, every point counts, and [minY] and [maxY] are the least and the
    greatest of the values. *)
Lemma swept_all (x : float) (xs : list float) :
  Forall (fun x => Num.isFinite (f x) = true) (x :: xs) ->
  swept func (fold_left (range_step func) (x :: xs) sweep_start) (x :: xs).
Proof.
  intros H. inversion H as [|? ? Hx Hrest]; subst. cbn [fold_left].
  change (x :: xs) with ([x] ++ xs).
  apply swept_fold; [|exact Hrest]. apply swept_first. exact Hx.
Qed.

End RangeSweep.

(* ------------------------------------------------------------------ *)
(** * A lower bound on a rounded difference                             *)
(* ------------------------------------------------------------------ *)

Module FloatArith.

Import SpecFloat.

Local Open Scope Z_scope.

Lemma digits2_size p : digits2_pos p = Pos.size p.
Proof. induction p; cbn; congruence. Qed.

Lemma digits2_log2 p : Zpos (digits2_pos p) = Z.log2 (Zpos p) + 1.
Proof.
  rewrite digits2_size. destruct p; cbn; try reflexivity; lia.
Qed.

Lemma shr_1_m mrs : 0 <= shr_m mrs -> shr_m (shr_1 mrs) = Z.div2 (shr_m mrs).
Proof.
  destruct mrs as [m r s]. cbn. destruct m as [|[p|p|]|p]; cbn; intros; try reflexivity; lia.
Qed.

Lemma iter_pos_shr p : forall mrs, 0 <= shr_m mrs ->
  shr_m (iter_pos shr_1 p mrs) = Z.shiftr (shr_m mrs) (Zpos p).
Proof.
  induction p as [p IH|p IH|]; intros mrs H; cbn [iter_pos].
  - assert (H1 : 0 <= shr_m (shr_1 mrs)).
    { rewrite shr_1_m by exact H. rewrite Z.div2_spec. apply Z.shiftr_nonneg. exact H. }
    assert (H2 : 0 <= shr_m (iter_pos shr_1 p (shr_1 mrs))).
    { rewrite IH by exact H1. apply Z.shiftr_nonneg. exact H1. }
    rewrite IH by exact H2. rewrite IH by exact H1.
    rewrite shr_1_m by exact H. rewrite Z.div2_spec.
    rewrite !Z.shiftr_shiftr by lia. f_equal. lia.
  - assert (H2 : 0 <= shr_m (iter_pos shr_1 p mrs)).
    { rewrite IH by exact H. apply Z.shiftr_nonneg. exact H. }
    rewrite IH by exact H2. rewrite IH by exact H.
    rewrite !Z.shiftr_shiftr by lia. f_equal. lia.
  - rewrite shr_1_m by exact H. apply Z.div2_spec.
Qed.

Lemma shr_spec mrs e n : 0 <= shr_m mrs ->
  shr_m (fst (shr mrs e n)) = Z.shiftr (shr_m mrs) (Z.max 0 n)
  /\ snd (shr mrs e n) = e + Z.max 0 n.
Proof.
  intros H. destruct n as [|p|p]; cbn [shr fst snd].
  - rewrite Z.shiftr_0_r. lia.
  - rewrite iter_pos_shr by exact H. replace (Z.max 0 (Zpos p)) with (Zpos p) by lia. auto.
  - replace (Z.max 0 (Zneg p)) with 0 by lia. rewrite Z.shiftr_0_r. lia.
Qed.

Lemma shr_m_of_loc m l : shr_m (shr_record_of_loc m l) = m.
Proof. destruct l as [|[]]; reflexivity. Qed.

Lemma round_ge m l : m <= round_nearest_even m l.
Proof. destruct l as [|[]]; cbn; try lia. destruct (Z.even m); lia. Qed.

Lemma Zdigits2_log2 m : 0 < m -> Zdigits2 m = Z.log2 m + 1.
Proof. destruct m; try lia. intros _. apply digits2_log2. Qed.

Lemma fexp64_eq e : fexp FloatOps.prec FloatOps.emax e = Words.fexp64 e.
Proof. reflexivity. Qed.

Lemma shiftr_pos m k : 0 < m -> 0 <= k <= Z.log2 m -> 0 < Z.shiftr m k.
Proof.
  intros Hm Hk. rewrite Z.shiftr_div_pow2 by lia.
  apply Z.div_str_pos. split; [apply Z.pow_pos_nonneg; lia|].
  transitivity (2 ^ Z.log2 m).
  - apply Z.pow_le_mono_r; lia.
  - apply Z.log2_spec. exact Hm.
Qed.

(* shifting a positive mantissa into its canonical exponent keeps it positive *)
Lemma shr_fexp_spec m e l : 0 < m -> -1074 < Zdigits2 m + e ->
  let r := shr_fexp FloatOps.prec FloatOps.emax m e l in
  0 < shr_m (fst r) /\ Words.fexp64 (Zdigits2 m + e) <= snd r
  /\ Zdigits2 (shr_m (fst r)) + snd r = Zdigits2 m + e.
Proof.
  intros Hm Hd. unfold shr_fexp. rewrite fexp64_eq.
  set (n := Words.fexp64 (Zdigits2 m + e) - e).
  destruct (shr_spec (shr_record_of_loc m l) e n) as [E1 E2].
  { rewrite shr_m_of_loc. lia. }
  cbn zeta. rewrite E1, E2, shr_m_of_loc.
  pose proof (Z.log2_nonneg m) as L.
  assert (Hn : 0 <= Z.max 0 n <= Z.log2 m).
  { unfold n, Words.fexp64. rewrite Zdigits2_log2 in * by exact Hm. lia. }
  pose proof (shiftr_pos m _ Hm Hn) as Hpos.
  split; [exact Hpos|]. split; [unfold n; lia|].
  rewrite (Zdigits2_log2 _ Hpos), (Zdigits2_log2 _ Hm).
  rewrite Z.log2_shiftr by exact Hm. lia.
Qed.

Lemma binary_round_aux_lower sx m e :
  0 < m -> -1074 < Zdigits2 m + e ->
  binary_round_aux FloatOps.prec FloatOps.emax sx m e loc_Exact = S754_infinity sx
  \/ exists m' e',
      binary_round_aux FloatOps.prec FloatOps.emax sx m e loc_Exact = S754_finite sx m' e'
      /\ Words.fexp64 (Zdigits2 m + e) <= e'.
Proof.
  intros Hm Hd. unfold binary_round_aux.
  pose proof (shr_fexp_spec m e loc_Exact Hm Hd) as H1. cbn zeta in H1.
  destruct (shr_fexp FloatOps.prec FloatOps.emax m e loc_Exact) as [mrs' e'].
  cbn [fst snd] in H1. destruct H1 as (P1 & X1 & D1).
  set (m2 := round_nearest_even (shr_m mrs') (loc_of_shr_record mrs')).
  assert (Hm2 : shr_m mrs' <= m2) by apply round_ge.
  assert (P2 : 0 < m2) by lia.
  assert (D2 : -1074 < Zdigits2 m2 + e').
  { rewrite (Zdigits2_log2 _ P2). rewrite (Zdigits2_log2 _ P1) in D1.
    pose proof (Z.log2_le_mono _ _ Hm2). lia. }
  pose proof (shr_fexp_spec m2 e' loc_Exact P2 D2) as H2. cbn zeta in H2.
  destruct (shr_fexp FloatOps.prec FloatOps.emax m2 e' loc_Exact) as [mrs'' e''].
  cbn [fst snd] in H2. destruct H2 as (P3 & X2 & D3).
  destruct (shr_m mrs'') as [|p|p]; try lia.
  destruct (e'' <=? FloatOps.emax - FloatOps.prec); [|left; reflexivity].
  right. exists p, e''. split; [reflexivity|].
  assert (Words.fexp64 (Zdigits2 m + e) <= Words.fexp64 (Zdigits2 m2 + e')).
  { unfold Words.fexp64. rewrite (Zdigits2_log2 _ P2). rewrite (Zdigits2_log2 _ P1) in D1.
    pose proof (Z.log2_le_mono _ _ Hm2). lia. }
  lia.
Qed.

Lemma iter_xO_digits d : forall m, digits2_pos (Pos.iter xO m d) = (digits2_pos m + d)%positive.
Proof.
  induction d using Pos.peano_ind; intros m.
  - cbn. lia.
  - rewrite Pos.iter_succ. cbn [digits2_pos]. rewrite IHd. lia.
Qed.

Lemma iter_xO_value d : forall m, Zpos (Pos.iter xO m d) = Zpos m * 2 ^ Zpos d.
Proof.
  induction d using Pos.peano_ind; intros m.
  - cbn. lia.
  - rewrite Pos.iter_succ. rewrite Pos2Z.inj_xO, IHd.
    rewrite Pos2Z.inj_succ, Z.pow_succ_r by lia. lia.
Qed.

Lemma shl_align_digits m e e' :
  let r := shl_align m e e' in
  Zpos (digits2_pos (fst r)) + snd r = Zpos (digits2_pos m) + e
  /\ Zpos m <= Zpos (fst r).
Proof.
  unfold shl_align. destruct (e' - e) as [|d|d] eqn:E; cbn [fst snd]; try lia.
  rewrite iter_xO_digits, iter_xO_value. split; [lia|].
  pose proof (Z.pow_pos_nonneg 2 (Zpos d)). nia.
Qed.

Lemma binary_round_lower sx m e :
  -1074 < Zpos (digits2_pos m) + e ->
  binary_round FloatOps.prec FloatOps.emax sx m e = S754_infinity sx
  \/ exists m' e',
      binary_round FloatOps.prec FloatOps.emax sx m e = S754_finite sx m' e'
      /\ Words.fexp64 (Zpos (digits2_pos m) + e) <= e'.
Proof.
  intros Hd. unfold binary_round.
  pose proof (shl_align_digits m e (fexp FloatOps.prec FloatOps.emax (Zpos (digits2_pos m) + e))) as H.
  cbn zeta in H.
  destruct (shl_align m e _) as [mz ez]. cbn [fst snd] in H. destruct H as [H _].
  rewrite <- H. apply binary_round_aux_lower; cbn [Zdigits2]; lia.
Qed.

Lemma shl_align_exp m e e' : e' <= e -> snd (shl_align m e e') = e'.
Proof.
  intros H. unfold shl_align. destruct (e' - e) eqn:E; cbn [snd]; lia.
Qed.

Lemma SFsub_lower mb eb ma ea :
  -1074 < Zpos (digits2_pos mb) + eb ->
  let r := SFsub FloatOps.prec FloatOps.emax
                 (S754_finite false mb eb) (S754_finite true ma ea) in
  r = S754_infinity false
  \/ exists m' e',
      r = S754_finite false m' e'
      /\ Words.fexp64 (Zpos (digits2_pos mb) + eb) <= e'.
Proof.
  intros Hd. cbn [SFsub cond_Zopp]. 
  set (ez := Z.min eb ea).
  pose proof (shl_align_digits mb eb ez) as Hb. cbn zeta in Hb.
  pose proof (shl_align_exp mb eb ez ltac:(lia)) as Eb.
  destruct (shl_align mb eb ez) as [b' eb']. cbn [fst snd] in *. subst eb'.
  destruct (shl_align ma ea ez) as [a' ea']. cbn [fst snd] in *.
  replace (Z.pos b' - - Z.pos a') with (Zpos (b' + a')) by lia.
  cbn [binary_normalize].
  assert (Hlog : Zpos (digits2_pos b') <= Zpos (digits2_pos (b' + a'))).
  { rewrite !digits2_log2. apply Z.add_le_mono_r. apply Z.log2_le_mono. lia. }
  destruct (binary_round_lower false (b' + a') ez) as [H|(m' & e' & H & He)].
  - lia.
  - left. exact H.
  - right. exists m', e'. split; [exact H|]. unfold Words.fexp64 in *. lia.
Qed.

Local Open Scope float_scope.

Lemma valid_digits (x : float) s m e :
  Prim2SF x = S754_finite s m e -> (-53 <= e)%Z -> Zpos (digits2_pos m) = 53%Z.
Proof.
  intros E He. pose proof (Prim2SF_valid x) as V. rewrite E in V.
  cbn [valid_binary] in V. unfold bounded, canonical_mantissa in V.
  apply andb_prop in V. destruct V as [V _]. apply Z.eqb_eq in V.
  rewrite fexp64_eq in V. unfold Words.fexp64 in V. lia.
Qed.

(** Two numbers on either side of [-0.9] and [0.9] are not within [0.01]
    of each other. *)
Lemma far_apart (a b : float) :
  (a <=? -0.9) = true -> (0.9 <=? b) = true ->
  (abs (b - a) <? 0.01) = false.
Proof.
  rewrite !leb_spec, ltb_spec, abs_spec, sub_spec.
  change (Prim2SF (-0.9)) with (S754_finite true 8106479329266893 (-53)).
  change (Prim2SF 0.9) with (S754_finite false 8106479329266893 (-53)).
  change (Prim2SF 0.01) with (S754_finite false 5764607523034235 (-59)).
  intros Ha Hb.
  destruct (Prim2SF a) as [sa|sa| |sa ma ea] eqn:Ea;
    try (destruct sa; discriminate); try discriminate.
  all: destruct (Prim2SF b) as [sb|sb| |sb mb eb] eqn:Eb;
    try (destruct sb; discriminate); try discriminate.
  all: try (destruct sa, sb; try discriminate; reflexivity).
  destruct sa; [|destruct ma; discriminate].
  destruct sb; [destruct mb; discriminate|].
  assert (Heb : (-53 <= eb)%Z).
  { revert Hb. unfold SFleb, SFcompare.
    destruct (Z.compare_spec (-53) eb); intros; try lia; try discriminate. }
  pose proof (valid_digits b _ _ _ Eb Heb) as Db.
  destruct (SFsub_lower mb eb ma ea) as [H|(m' & e' & H & He)].
  - lia.
  - unfold SF64sub. rewrite H. reflexivity.
  - unfold SF64sub. rewrite H. rewrite Db in He. unfold Words.fexp64 in He.
    unfold SFltb, SFcompare. cbn [SFabs].
    destruct (Z.compare_spec e' (-59)); try lia; reflexivity.
Qed.

End FloatArith.

(* ------------------------------------------------------------------ *)
(** * The compiled functions of a few expressions                       *)
(* ------------------------------------------------------------------ *)

(** [parse] succeeds as soon as the text is in the fragment and the
    generated function passes the self test. *)
Lemma parse_ok_intro (host : MathHost) (bound : string -> bool)
      (expression : string) (e : Ast.expr) :
  Str.blank expression = false ->
  Normalizer.parens_balanced (Normalizer.normalize expression) = true ->
  Ast.parse_text bound (Normalizer.normalize expression) = Parsed e ->
  hasValidResult (generated host e) = true ->
  parse host bound expression = Ok (generated host e).
Proof.
  intros H1 H2 H3 H4. unfold parse, new_Function.
  rewrite H1, H2, H3. cbv beta iota delta [negb]. rewrite H4. reflexivity.
Qed.

(** A self test passed at the first probe, [0]. *)
Lemma valid_at_zero (host : MathHost) (e : Ast.expr) (y : float) :
  eval host e 0 = Some (VNum y) -> is_finite y = true ->
  hasValidResult (generated host e) = true.
Proof.
  intros He Hy. unfold hasValidResult, testValues, generated.
  cbn [existsb]. rewrite He. cbn [is_number ToNumber andb].
  unfold Num.isFinite. rewrite Hy. reflexivity.
Qed.

Lemma finite_zero : is_finite 0 = true.
Proof. reflexivity. Qed.

Section CompiledFacts.

Variables (host : MathHost) (bound : string -> bool).

Local Open Scope float_scope.

Local Abbreviation sine := (Compiled.sine host).
Local Abbreviation square := (Compiled.square host).
Local Abbreviation cube := (Compiled.cube host).
Local Abbreviation identity := (Compiled.identity host).
Local Abbreviation successor := (Compiled.successor host).
Local Abbreviation reciprocal := (Compiled.reciprocal host).

Lemma sine_value x : evaluate_number sine x = h_sin host x.
Proof. reflexivity. Qed.

Lemma square_value x : evaluate_number square x = h_pow host x 2.
Proof. reflexivity. Qed.

Lemma cube_value x : evaluate_number cube x = h_pow host x 3.
Proof. reflexivity. Qed.

Lemma identity_value x : evaluate_number identity x = x.
Proof. reflexivity. Qed.

Lemma successor_value x : evaluate_number successor x = x + 1.
Proof. reflexivity. Qed.

Lemma reciprocal_value x : evaluate_number reciprocal x = 1 / x.
Proof. reflexivity. Qed.

Lemma parse_sine :
  is_finite (h_sin host 0) = true -> parse host bound "sin(x)" = Ok sine.
Proof.
  intros H. apply parse_ok_intro; try (vm_compute; reflexivity).
  eapply valid_at_zero; [reflexivity|exact H].
Qed.

Lemma parse_square :
  is_finite (h_pow host 0 2) = true -> parse host bound "x^2" = Ok square.
Proof.
  intros H. apply parse_ok_intro; try (vm_compute; reflexivity).
  eapply valid_at_zero; [reflexivity|exact H].
Qed.

Lemma parse_cube :
  is_finite (h_pow host 0 3) = true -> parse host bound "x^3" = Ok cube.
Proof.
  intros H. apply parse_ok_intro; try (vm_compute; reflexivity).
  eapply valid_at_zero; [reflexivity|exact H].
Qed.

Lemma parse_identity : parse host bound "x" = Ok identity.
Proof. vm_compute. reflexivity. Qed.

Lemma parse_successor : parse host bound "x+1" = Ok successor.
Proof. vm_compute. reflexivity. Qed.

Lemma parse_reciprocal : parse host bound "1/x" = Ok reciprocal.
Proof. vm_compute. reflexivity. Qed.

End CompiledFacts.

(* ------------------------------------------------------------------ *)
(** * More about numbers                                                *)
(* ------------------------------------------------------------------ *)

Module FloatMore.

Import SpecFloat.

Local Open Scope float_scope.

Lemma Prim2SF_zero : Prim2SF 0 = S754_zero false.
Proof. reflexivity. Qed.

(** A number equal to an infinity is not finite. *)
Lemma eqb_infinity_not_finite (y : float) :
  (y =? infinity) = true -> is_finite y = false.
Proof.
  unfold is_finite, is_infinity.
  rewrite !eqb_spec, abs_spec, FloatOrder.Prim2SF_infinity.
  destruct (Prim2SF y) as [[]|[]| |[] ? ?]; cbn; try discriminate.
  intros _. apply negb_false_iff, orb_true_r.
Qed.

Lemma eqb_neg_infinity_not_finite (y : float) :
  (y =? neg_infinity) = true -> is_finite y = false.
Proof.
  unfold is_finite, is_infinity.
  rewrite !eqb_spec, abs_spec, FloatOrder.Prim2SF_infinity,
    FloatOrder.Prim2SF_neg_infinity.
  destruct (Prim2SF y) as [[]|[]| |[] ? ?]; cbn; try discriminate.
  intros _. apply negb_false_iff, orb_true_r.
Qed.

(** The difference of a finite number and itself is [+0]. *)
Lemma sub_self (a : float) : is_finite a = true -> a - a = 0.
Proof.
  intros H. apply Prim2SF_inj. rewrite sub_spec, Prim2SF_zero.
  destruct (FloatOrder.finite_cases a H) as [[s ->]|(s & m & e & ->)].
  - destruct s; reflexivity.
  - unfold SF64sub. cbn [SFsub]. rewrite Z.sub_diag. reflexivity.
Qed.

Lemma ltb_irrefl (a : float) : (a <? a) = false.
Proof.
  rewrite ltb_spec. unfold SFltb, SFcompare.
  destruct (Prim2SF a) as [[]|[]| |[] m e]; try reflexivity.
  all: rewrite Z.compare_refl;
    change (Pos.compare_cont Eq m m) with (Pos.compare m m);
    rewrite Pos.compare_refl; reflexivity.
Qed.

End FloatMore.

(* ------------------------------------------------------------------ *)
(** * [analyzeRange]                                                    *)
(* ------------------------------------------------------------------ *)

Lemma range_points_length : List.length Samples.range_points = 1000%nat.
Proof. vm_compute. reflexivity. Qed.

(** The loop of [analyzeRange] ends, whatever the function. *)
Lemma range_sweep_eq (func : jsfun) :
  FunctionAnalyzer.range_sweep func
  = Some (fold_left (FunctionAnalyzer.range_step func) Samples.range_points
                    FunctionAnalyzer.sweep_start).
Proof.
  unfold FunctionAnalyzer.range_sweep.
  exact (proj2 (for_loop_fold 50 0.1 (FunctionAnalyzer.range_step func)
                  FunctionAnalyzer.range_fuel (-50) Samples.range_points
                  FunctionAnalyzer.sweep_start range_points_visited)).
Qed.

Lemma analyzeRange_eq (func : jsfun) :
  FunctionAnalyzer.analyzeRange func
  = Some (FunctionAnalyzer.range_decision func
            (fold_left (FunctionAnalyzer.range_step func)
                       Samples.range_points FunctionAnalyzer.sweep_start)).
Proof.
  unfold FunctionAnalyzer.analyzeRange. rewrite range_sweep_eq. reflexivity.
Qed.

Section RangeFacts.

Import FunctionAnalyzer Invariants Conditions.

Local Open Scope float_scope.

Variable func : jsfun.

(** Any list of abscissas, with at least ten of them. *)
Variable pts : list float.
Hypothesis enough : (List.length pts <? 10)%nat = false.

Local Abbreviation f := (evaluate_number func).
Local Abbreviation swept_state :=
  (fold_left (range_step func) pts sweep_start).

Lemma swept_nonempty (xs : list float) :
  xs <> [] ->
  Forall (fun x => Num.isFinite (evaluate_number func x) = true) xs ->
  swept func (fold_left (range_step func) xs sweep_start) xs.
Proof.
  destruct xs as [|x xs]; [congruence|]. intros _. apply swept_all.
Qed.

Lemma finite_on_Forall (xs : list float) :
  finite_on func xs = true ->
  Forall (fun x => Num.isFinite (evaluate_number func x) = true) xs.
Proof.
  unfold finite_on. rewrite forallb_forall, Forall_forall. auto.
Qed.

Lemma swept_range :
  finite_on func pts = true -> swept func swept_state pts.
Proof.
  intros H. apply swept_nonempty; [|apply finite_on_Forall, H].
  intros E. rewrite E in enough. discriminate.
Qed.

(** After a sweep without an infinite value, the probes and then the
    extremes decide. *)
Lemma range_decision_finite (s : sweep) :
  swept func s pts ->
  range_decision func s
  = match range_of_probes (probe_values func) s with
    | Some r => r
    | None => range_of_extremes s
    end.
Proof.
  intros H. unfold range_decision, range_of_infinities.
  rewrite (swept_infinite _ _ _ H).
  rewrite (swept_min_finite _ _ _ H), (swept_max_finite _ _ _ H).
  rewrite (swept_count _ _ _ H), enough.
  reflexivity.
Qed.

Lemma probes_undecided (testValues : list float) (s : sweep) :
  probes_decide testValues = false -> range_of_probes testValues s = None.
Proof.
  unfold probes_decide, range_of_probes.
  destruct testValues as [|a [|b [|c [|d [|e [|? ?]]]]]]; try reflexivity.
  destruct (forallb Num.isFinite [a; b; c; d; e]); [|reflexivity].
  unfold bowl, dome, rising, falling, steep. cbn [andb].
  intros H. repeat (apply orb_false_elim in H; destruct H as [H ?]).
  repeat match goal with
         | E : _ = false |- _ => rewrite E; clear E
         end.
  reflexivity.
Qed.

Lemma probes_bowl (a b c d e : float) (s : sweep) :
  forallb Num.isFinite [a; b; c; d; e] = true -> bowl a c e = true ->
  range_of_probes [a; b; c; d; e] s
  = Some (if (-0.1 <=? minY s) && (minY s <=? 0.1)
          then AtLeastZero else AtLeast (minY s)).
Proof.
  intros F B. unfold range_of_probes. rewrite F.
  unfold bowl in B. rewrite B.
  destruct ((-0.1 <=? minY s) && (minY s <=? 0.1)); reflexivity.
Qed.

Lemma probes_dome (a b c d e : float) (s : sweep) :
  forallb Num.isFinite [a; b; c; d; e] = true ->
  bowl a c e = false -> dome a c e = true ->
  range_of_probes [a; b; c; d; e] s
  = Some (if (-0.1 <=? maxY s) && (maxY s <=? 0.1)
          then AtMostZero else AtMost (maxY s)).
Proof.
  intros F B D. unfold range_of_probes. rewrite F.
  unfold bowl in B. rewrite B. unfold dome in D. rewrite D.
  destruct ((-0.1 <=? maxY s) && (maxY s <=? 0.1)); reflexivity.
Qed.

Lemma swept_min_value (s : sweep) :
  swept func s pts -> exists p, In p pts /\ minY s = f p.
Proof.
  intros W. pose proof (swept_min_in _ _ _ W) as Hin.
  apply in_map_iff in Hin. destruct Hin as (p & E & Hp). eauto.
Qed.

Lemma swept_max_value (s : sweep) :
  swept func s pts -> exists p, In p pts /\ maxY s = f p.
Proof.
  intros W. pose proof (swept_max_in _ _ _ W) as Hin.
  apply in_map_iff in Hin. destruct Hin as (p & E & Hp). eauto.
Qed.

Lemma swept_min_below (s : sweep) (c : float) :
  swept func s pts -> reaches_below func c pts = true ->
  (minY s <=? c) = true.
Proof.
  intros W R. unfold reaches_below in R. apply existsb_exists in R.
  destruct R as (p & Hp & Hc).
  pose proof (swept_extremes _ _ _ W) as E. rewrite Forall_forall in E.
  eapply FloatOrder.leb_trans; [apply (E p Hp)|exact Hc].
Qed.

Lemma swept_max_above (s : sweep) (c : float) :
  swept func s pts -> reaches_above func c pts = true ->
  (c <=? maxY s) = true.
Proof.
  intros W R. unfold reaches_above in R. apply existsb_exists in R.
  destruct R as (p & Hp & Hc).
  pose proof (swept_extremes _ _ _ W) as E. rewrite Forall_forall in E.
  eapply FloatOrder.leb_trans; [exact Hc|apply (E p Hp)].
Qed.

Lemma swept_min_at_least (s : sweep) (lo : float) :
  swept func s pts -> at_least_on func lo pts = true ->
  (lo <=? minY s) = true.
Proof.
  intros W A. destruct (swept_min_value s W) as (p & Hp & ->).
  unfold at_least_on in A. rewrite forallb_forall in A. apply (A p Hp).
Qed.

Lemma swept_within (s : sweep) (lo hi : float) :
  swept func s pts -> within_on func lo hi pts = true ->
  (lo <=? minY s) = true /\ (maxY s <=? hi) = true.
Proof.
  intros W A. unfold within_on in A. rewrite forallb_forall in A.
  destruct (swept_min_value s W) as (p & Hp & ->).
  destruct (swept_max_value s W) as (q & Hq & ->).
  pose proof (A p Hp) as Bp. pose proof (A q Hq) as Bq.
  apply andb_prop in Bp. apply andb_prop in Bq. tauto.
Qed.

Lemma sweep_extremes :
  finite_on func pts = true ->
  hasInfiniteValues swept_state = false
  /\ validPoints swept_state = List.length pts
  /\ In (minY swept_state) (List.map f pts)
  /\ In (maxY swept_state) (List.map f pts)
  /\ forall p, In p pts ->
               (minY swept_state <=? f p) = true
               /\ (f p <=? maxY swept_state) = true.
Proof.
  intros H. pose proof (swept_range H) as W.
  split; [|split; [|split; [|split]]].
  - apply (swept_infinite _ _ _ W).
  - apply (swept_count _ _ _ W).
  - apply (swept_min_in _ _ _ W).
  - apply (swept_max_in _ _ _ W).
  - intros p Hp.
    pose proof (swept_extremes _ _ _ W) as E. rewrite Forall_forall in E.
    apply (E p Hp).
Qed.

Lemma decision_unit_interval :
  finite_on func pts = true ->
  within_on func (-1.1) 1.1 pts = true ->
  reaches_below func (-0.9) pts = true ->
  reaches_above func 0.9 pts = true ->
  probes_decide (probe_values func) = false ->
  range_decision func swept_state = UnitInterval.
Proof.
  intros F B L U P.
  pose proof (swept_range F) as W.
  rewrite (range_decision_finite _ W).
  rewrite (probes_undecided _ _ P).
  destruct (swept_within _ _ _ W B) as [B1 B2].
  pose proof (swept_min_below _ _ W L) as L1.
  pose proof (swept_max_above _ _ W U) as U1.
  unfold range_of_extremes. cbv zeta. unfold Num.Math_abs.
  rewrite (FloatArith.far_apart _ _ L1 U1).
  rewrite B1, B2, L1, U1. reflexivity.
Qed.

Lemma decision_bowl :
  finite_on func pts = true ->
  at_least_on func (-0.1) pts = true ->
  reaches_below func 0.1 pts = true ->
  bowl_probes (probe_values func) = true ->
  range_decision func swept_state = AtLeastZero.
Proof.
  intros F A L P.
  pose proof (swept_range F) as W.
  rewrite (range_decision_finite _ W).
  unfold probe_values, range_probes in *. cbn [List.map] in *.
  unfold bowl_probes in P. apply andb_prop in P. destruct P as [P1 P2].
  rewrite (probes_bowl _ _ _ _ _ _ P1 P2).
  rewrite (swept_min_at_least _ _ W A), (swept_min_below _ _ W L).
  reflexivity.
Qed.

(** The three flags, after any number of steps. *)
Lemma flags_fold (xs : list float) :
  forall s,
    let s' := fold_left (range_step func) xs s in
    hasPositiveInfinite s'
    = hasPositiveInfinite s || hits_plus_infinity func xs
    /\ hasNegativeInfinite s'
       = hasNegativeInfinite s || hits_minus_infinity func xs
    /\ hasInfiniteValues s'
       = hasInfiniteValues s || negb (finite_on func xs).
Proof.
  unfold hits_plus_infinity, hits_minus_infinity, finite_on.
  induction xs as [|x xs IH]; intros s; cbn [fold_left existsb forallb].
  - cbn. rewrite !orb_false_r. auto.
  - destruct (IH (range_step func s x)) as (P & N & I).
    cbv zeta in *. rewrite P, N, I. unfold range_step.
    destruct (Num.isFinite (f x)) eqn:Fx; cbn [negb andb orb
      hasPositiveInfinite hasNegativeInfinite hasInfiniteValues].
    + destruct (f x =? infinity) eqn:E1.
      { apply FloatMore.eqb_infinity_not_finite in E1.
        unfold Num.isFinite in Fx. congruence. }
      destruct (f x =? neg_infinity) eqn:E2.
      { apply FloatMore.eqb_neg_infinity_not_finite in E2.
        unfold Num.isFinite in Fx. congruence. }
      cbn. auto.
    + rewrite orb_true_r. cbn [orb].
      destruct (f x =? infinity), (f x =? neg_infinity); cbn;
        rewrite ?orb_true_r; auto.
Qed.

Lemma hits_not_finite (xs : list float) :
  hits_plus_infinity func xs || hits_minus_infinity func xs = true ->
  finite_on func xs = false.
Proof.
  unfold hits_plus_infinity, hits_minus_infinity, finite_on.
  induction xs as [|x xs IH]; cbn [existsb forallb]; [discriminate|].
  intros H. destruct (Num.isFinite (f x)) eqn:Fx; [|reflexivity].
  cbn [andb]. apply IH.
  destruct (f x =? infinity) eqn:E1.
  { apply FloatMore.eqb_infinity_not_finite in E1.
    unfold Num.isFinite in Fx. congruence. }
  destruct (f x =? neg_infinity) eqn:E2.
  { apply FloatMore.eqb_neg_infinity_not_finite in E2.
    unfold Num.isFinite in Fx. congruence. }
  exact H.
Qed.

Lemma decision_infinities :
  hits_plus_infinity func pts || hits_minus_infinity func pts = true ->
  range_decision func swept_state
  = if hits_plus_infinity func pts && hits_minus_infinity func pts
    then WholeLine
    else if hits_plus_infinity func pts then TowardsPlusInfinity
         else TowardsMinusInfinity.
Proof.
  intros H.
  destruct (flags_fold pts sweep_start) as (P & N & I).
  cbv zeta in *. unfold range_decision, range_of_infinities.
  rewrite P, N, I. rewrite (hits_not_finite _ H).
  cbn [sweep_start hasPositiveInfinite hasNegativeInfinite
       hasInfiniteValues negb orb].
  revert H.
  generalize (hits_plus_infinity func pts), (hits_minus_infinity func pts).
  intros [] []; try reflexivity; discriminate.
Qed.

Lemma decision_constant (c : float) :
  is_finite c = true ->
  (forall x, evaluate_number func x = c) ->
  range_decision func swept_state
  = if 100 <? c then AtLeast c
    else if c <? -100 then AtMost c
    else NearlyConstant ((c + c) / 2).
Proof.
  intros Fc Hc.
  assert (F : finite_on func pts = true).
  { unfold finite_on. apply forallb_forall. intros p _. rewrite Hc.
    exact Fc. }
  pose proof (swept_range F) as W.
  rewrite (range_decision_finite _ W).
  generalize dependent swept_state. intros s W.
  assert (Emin : minY s = c).
  { destruct (swept_min_value s W) as (p & _ & ->). apply Hc. }
  assert (Emax : maxY s = c).
  { destruct (swept_max_value s W) as (p & _ & ->). apply Hc. }
  pose proof (FloatOrder.finite_not_nan _ Fc) as Nc.
  pose proof (FloatOrder.leb_refl _ Nc) as Rc.
  pose proof (FloatMore.ltb_irrefl c) as Ic.
  assert (Mmin : Num.Math_min c c = c).
  { unfold Num.Math_min. rewrite Nc, Ic. destruct (get_sign c); reflexivity. }
  assert (Mmax : Num.Math_max c c = c).
  { unfold Num.Math_max. rewrite Nc, Ic. destruct (get_sign c); reflexivity. }
  unfold probe_values, range_probes. cbn [List.map]. rewrite !Hc.
  assert (Fs : forallb Num.isFinite [c; c; c; c; c] = true).
  { cbn. unfold Num.isFinite. rewrite Fc. reflexivity. }
  destruct (100 <? c) eqn:Hi.
  - rewrite (probes_bowl c c c c c s Fs).
    2:{ unfold bowl. rewrite Hi, Mmin, Rc. reflexivity. }
    rewrite Emin.
    assert (E : (c <=? 0.1) = false).
    { destruct (c <=? 0.1) eqn:E; [|reflexivity].
      assert (T : (c <=? 100) = true).
      { eapply FloatOrder.leb_trans; [exact E|reflexivity]. }
      apply FloatOrder.leb_not_ltb in T. congruence. }
    rewrite E, andb_false_r. reflexivity.
  - destruct (c <? -100) eqn:Lo.
    + rewrite (probes_dome c c c c c s Fs).
      2:{ unfold bowl. rewrite Hi. reflexivity. }
      2:{ unfold dome. rewrite Lo, Mmax, Rc. reflexivity. }
      rewrite Emax.
      assert (E : (-0.1 <=? c) = false).
      { destruct (-0.1 <=? c) eqn:E; [|reflexivity].
        assert (T : (-100 <=? c) = true).
        { eapply FloatOrder.leb_trans; [|exact E]. reflexivity. }
        apply FloatOrder.leb_not_ltb in T. congruence. }
      rewrite E. reflexivity.
    + rewrite (probes_undecided [c; c; c; c; c] s).
      2:{ unfold probes_decide, bowl, dome, rising, falling.
          rewrite Fs, Hi, Lo, Ic. reflexivity. }
      unfold range_of_extremes. cbv zeta. rewrite Emin, Emax.
      unfold Num.Math_abs. rewrite (FloatMore.sub_self c Fc).
      reflexivity.
Qed.

End RangeFacts.

Lemma range_points_enough :
  (List.length Samples.range_points <? 10)%nat = false.
Proof. rewrite range_points_length. reflexivity. Qed.

(** [analyzeRange], lines 408 to 421. When the function is finite at every
    abscissa of the sweep, the loop raises no flag, counts the 1000 points,
    and leaves in [minY] and [maxY] two of the values, below and above all
    the others. *)
Theorem analyzeRange_extremes (func : jsfun) :
  Conditions.finite_on func Samples.range_points = true ->
  exists s,
    FunctionAnalyzer.range_sweep func = Some s
    /\ FunctionAnalyzer.hasInfiniteValues s = false
    /\ FunctionAnalyzer.validPoints s = 1000%nat
    /\ In (FunctionAnalyzer.minY s)
          (List.map (evaluate_number func) Samples.range_points)
    /\ In (FunctionAnalyzer.maxY s)
          (List.map (evaluate_number func) Samples.range_points)
    /\ forall p, In p Samples.range_points ->
         (FunctionAnalyzer.minY s <=? evaluate_number func p)%float = true
         /\ (evaluate_number func p <=? FunctionAnalyzer.maxY s)%float
            = true.
Proof.
  intros H. eexists. split; [apply range_sweep_eq|].
  rewrite <- range_points_length.
  exact (sweep_extremes func Samples.range_points range_points_enough H).
Qed.

(** [analyzeRange], lines 504 to 515. A function that is finite on the
    sweep with values within [[-1.1, 1.1]], some of them at most [-0.9] and
    some at least [0.9], and whose probes do not settle the answer, is given
    the range "-1 ≤ y ≤ 1": its extremes are never taken for those of a
    constant. *)
Theorem analyzeRange_unit_interval (func : jsfun) :
  Conditions.finite_on func Samples.range_points = true ->
  Conditions.within_on func (-1.1) 1.1 Samples.range_points = true ->
  Conditions.reaches_below func (-0.9) Samples.range_points = true ->
  Conditions.reaches_above func 0.9 Samples.range_points = true ->
  Conditions.probes_decide (Conditions.probe_values func) = false ->
  FunctionAnalyzer.analyzeRange func = Some FunctionAnalyzer.UnitInterval.
Proof.
  intros F B L U P. rewrite analyzeRange_eq. f_equal.
  exact (decision_unit_interval func Samples.range_points
           range_points_enough F B L U P).
Qed.

(** [analyzeRange], lines 452 to 462. A function that is finite on the
    sweep with values at least [-0.1], one of them at most [0.1], and whose
    probes are finite, above [100] at both ends and not below the middle
    one, is given the range "y ≥ 0". *)
Theorem analyzeRange_bowl (func : jsfun) :
  Conditions.finite_on func Samples.range_points = true ->
  Conditions.at_least_on func (-0.1) Samples.range_points = true ->
  Conditions.reaches_below func 0.1 Samples.range_points = true ->
  Conditions.bowl_probes (Conditions.probe_values func) = true ->
  FunctionAnalyzer.analyzeRange func = Some FunctionAnalyzer.AtLeastZero.
Proof.
  intros F A L P. rewrite analyzeRange_eq. f_equal.
  exact (decision_bowl func Samples.range_points
           range_points_enough F A L P).
Qed.

(** [analyzeRange], lines 411 to 432. As soon as one sampled value is a
    signed infinity, nothing else is looked at: both signs give "All real
    numbers", [+Infinity] alone "y → +∞", [-Infinity] alone "y → -∞". *)
Theorem analyzeRange_infinities (func : jsfun) :
  Conditions.hits_plus_infinity func Samples.range_points
  || Conditions.hits_minus_infinity func Samples.range_points = true ->
  FunctionAnalyzer.analyzeRange func
  = Some (if Conditions.hits_plus_infinity func Samples.range_points
             && Conditions.hits_minus_infinity func Samples.range_points
          then FunctionAnalyzer.WholeLine
          else if Conditions.hits_plus_infinity func Samples.range_points
               then FunctionAnalyzer.TowardsPlusInfinity
               else FunctionAnalyzer.TowardsMinusInfinity).
Proof.
  intros H. rewrite analyzeRange_eq. f_equal.
  exact (decision_infinities func Samples.range_points H).
Qed.

(** [analyzeRange] on a constant function [c]: above [100] the answer is
    "y ≥ c", below [-100] it is "y ≤ c", and only otherwise "approximately
    constant". *)
Theorem analyzeRange_constant (func : jsfun) (c : float) :
  is_finite c = true ->
  (forall x, evaluate_number func x = c) ->
  FunctionAnalyzer.analyzeRange func
  = Some (if (100 <? c)%float then FunctionAnalyzer.AtLeast c
          else if (c <? -100)%float then FunctionAnalyzer.AtMost c
          else FunctionAnalyzer.NearlyConstant ((c + c) / 2)%float).
Proof.
  intros Fc Hc. rewrite analyzeRange_eq. f_equal.
  exact (decision_constant func Samples.range_points
           range_points_enough c Fc Hc).
Qed.

Lemma analyzeRange_extremes_witness :
  Conditions.finite_on (Compiled.identity Reference.host)
                       Samples.range_points = true
  /\ exists s,
      FunctionAnalyzer.range_sweep (Compiled.identity Reference.host) = Some s
      /\ FunctionAnalyzer.hasInfiniteValues s = false
      /\ FunctionAnalyzer.validPoints s = 1000%nat
      /\ In (FunctionAnalyzer.minY s)
            (List.map (evaluate_number (Compiled.identity Reference.host))
                      Samples.range_points)
      /\ In (FunctionAnalyzer.maxY s)
            (List.map (evaluate_number (Compiled.identity Reference.host))
                      Samples.range_points)
      /\ forall p, In p Samples.range_points ->
           (FunctionAnalyzer.minY s
            <=? evaluate_number (Compiled.identity Reference.host) p)%float
           = true
           /\ (evaluate_number (Compiled.identity Reference.host) p
               <=? FunctionAnalyzer.maxY s)%float = true.
Proof.
  assert (H : Conditions.finite_on (Compiled.identity Reference.host)
                                   Samples.range_points = true)
    by (vm_compute; reflexivity).
  split; [exact H|].
  exact (analyzeRange_extremes (Compiled.identity Reference.host) H).
Defined.

Lemma analyzeRange_unit_interval_witness :
  FunctionAnalyzer.analyzeRange (Compiled.sine Reference.host)
  = Some FunctionAnalyzer.UnitInterval.
Proof.
  apply analyzeRange_unit_interval; vm_compute; reflexivity.
Defined.

Lemma analyzeRange_bowl_witness :
  FunctionAnalyzer.analyzeRange (Compiled.square Reference.host)
  = Some FunctionAnalyzer.AtLeastZero.
Proof.
  apply analyzeRange_bowl; vm_compute; reflexivity.
Defined.

Lemma analyzeRange_infinities_witness :
  FunctionAnalyzer.analyzeRange (Compiled.pole_at_start Reference.host)
  = Some FunctionAnalyzer.TowardsPlusInfinity.
Proof.
  rewrite (analyzeRange_infinities (Compiled.pole_at_start Reference.host));
    vm_compute; reflexivity.
Defined.

Lemma analyzeRange_constant_witness :
  FunctionAnalyzer.analyzeRange (Compiled.two Reference.host)
  = Some (FunctionAnalyzer.NearlyConstant 2).
Proof.
  rewrite (analyzeRange_constant (Compiled.two Reference.host) 2%float);
    [vm_compute; reflexivity | reflexivity | intros x; reflexivity].
Defined.

(* ------------------------------------------------------------------ *)
(** * [checkSymmetry]                                                   *)
(* ------------------------------------------------------------------ *)

Section SymmetryFacts.

Import FunctionAnalyzer.

Local Open Scope float_scope.

Variable func : jsfun.

Local Abbreviation f := (evaluate_number func).

(** The counters never exceed the number of points tested. *)
Lemma symmetry_counts_bounded (xs : list float) :
  forall c,
    (evenCount c <= totalTests c)%nat ->
    (oddCount c <= totalTests c)%nat ->
    let c' := fold_left (symmetry_step func) xs c in
    (evenCount c' <= totalTests c')%nat
    /\ (oddCount c' <= totalTests c')%nat
    /\ (totalTests c' <= totalTests c + List.length xs)%nat.
Proof.
  induction xs as [|x xs IH]; intros c He Ho; cbn [fold_left List.length].
  - cbv zeta. lia.
  - assert (S : (evenCount (symmetry_step func c x)
                 <= totalTests (symmetry_step func c x))%nat
                /\ (oddCount (symmetry_step func c x)
                    <= totalTests (symmetry_step func c x))%nat
                /\ (totalTests (symmetry_step func c x)
                    <= S (totalTests c))%nat).
    { unfold symmetry_step.
      destruct (x =? 0); [lia|].
      destruct (Num.isNaN (f x) || Num.isNaN (f (- x))
                || negb (Num.isFinite (f x))
                || negb (Num.isFinite (f (- x)))); [lia|].
      cbn [evenCount oddCount totalTests].
      destruct (Num.Math_abs (f (- x) - f x) <? symmetry_tolerance),
        (Num.Math_abs (f (- x) - - f x) <? symmetry_tolerance); lia. }
    destruct S as (S1 & S2 & S3).
    destruct (IH _ S1 S2) as (I1 & I2 & I3). cbv zeta in *. lia.
Qed.

End SymmetryFacts.

Lemma threshold_exact (count total : nat) :
  (count <= total)%nat -> (total <= 8)%nat ->
  FunctionAnalyzer.reaches_threshold count total
  = ((0 <? total)%nat && (4 * total <=? 5 * count)%nat).
Proof.
  intros Hc Ht.
  assert (T : Conditions.threshold_table = true) by (vm_compute; reflexivity).
  unfold Conditions.threshold_table in T. rewrite forallb_forall in T.
  specialize (T total). rewrite forallb_forall in T.
  apply eqb_prop, T; apply in_seq; lia.
Qed.

Lemma symmetry_threshold_generic (func : jsfun) (xs : list float) :
  (List.length xs <= 8)%nat ->
  forall c,
    c = fold_left (FunctionAnalyzer.symmetry_step func) xs
                  {| FunctionAnalyzer.oddCount := 0;
                     FunctionAnalyzer.evenCount := 0;
                     FunctionAnalyzer.totalTests := 0 |} ->
    (FunctionAnalyzer.totalTests c <= 8)%nat
    /\ (FunctionAnalyzer.evenCount c <= FunctionAnalyzer.totalTests c)%nat
    /\ (FunctionAnalyzer.oddCount c <= FunctionAnalyzer.totalTests c)%nat
    /\ (FunctionAnalyzer.reaches_threshold
          (FunctionAnalyzer.evenCount c) (FunctionAnalyzer.totalTests c)
        = true
        <-> (0 < FunctionAnalyzer.totalTests c
             /\ 4 * FunctionAnalyzer.totalTests c
                <= 5 * FunctionAnalyzer.evenCount c)%nat)
    /\ (FunctionAnalyzer.reaches_threshold
          (FunctionAnalyzer.oddCount c) (FunctionAnalyzer.totalTests c)
        = true
        <-> (0 < FunctionAnalyzer.totalTests c
             /\ 4 * FunctionAnalyzer.totalTests c
                <= 5 * FunctionAnalyzer.oddCount c)%nat).
Proof.
  intros Hl c Ec.
  destruct (symmetry_counts_bounded func xs
              {| FunctionAnalyzer.oddCount := 0;
                 FunctionAnalyzer.evenCount := 0;
                 FunctionAnalyzer.totalTests := 0 |} (le_n 0) (le_n 0))
    as (He & Ho & Ht).
  cbv zeta in He, Ho, Ht. rewrite <- Ec in He, Ho, Ht.
  change (FunctionAnalyzer.totalTests
            {| FunctionAnalyzer.oddCount := 0;
               FunctionAnalyzer.evenCount := 0;
               FunctionAnalyzer.totalTests := 0 |}) with 0%nat in Ht.
  assert (H8 : (FunctionAnalyzer.totalTests c <= 8)%nat) by lia.
  split; [exact H8|]. split; [exact He|]. split; [exact Ho|].
  rewrite !threshold_exact by assumption.
  rewrite !andb_true_iff, !Nat.ltb_lt, !Nat.leb_le. tauto.
Qed.

(** [checkSymmetry], lines 249 to 293. At most eight tests count, and the
    comparison of the floating-point quotient [evenCount / totalTests] with
    [0.8] is exact: the function is reported even exactly when there is a
    valid test and [5 evenCount >= 4 totalTests], and likewise for odd. *)
Theorem checkSymmetry_threshold (func : jsfun) :
  let c := FunctionAnalyzer.count_symmetry func in
  (FunctionAnalyzer.totalTests c <= 8)%nat
  /\ (FunctionAnalyzer.evenCount c <= FunctionAnalyzer.totalTests c)%nat
  /\ (FunctionAnalyzer.oddCount c <= FunctionAnalyzer.totalTests c)%nat
  /\ (FunctionAnalyzer.isEven (FunctionAnalyzer.checkSymmetry func) = true
      <-> (0 < FunctionAnalyzer.totalTests c
           /\ 4 * FunctionAnalyzer.totalTests c
              <= 5 * FunctionAnalyzer.evenCount c)%nat)
  /\ (FunctionAnalyzer.isOdd (FunctionAnalyzer.checkSymmetry func) = true
      <-> (0 < FunctionAnalyzer.totalTests c
           /\ 4 * FunctionAnalyzer.totalTests c
              <= 5 * FunctionAnalyzer.oddCount c)%nat).
Proof.
  intros c.
  assert (Ec : FunctionAnalyzer.count_symmetry func
               = fold_left (FunctionAnalyzer.symmetry_step func)
                           FunctionAnalyzer.symmetry_points
                           {| FunctionAnalyzer.oddCount := 0;
                              FunctionAnalyzer.evenCount := 0;
                              FunctionAnalyzer.totalTests := 0 |}).
  { unfold FunctionAnalyzer.count_symmetry. reflexivity. }
  pose proof (symmetry_threshold_generic func
                FunctionAnalyzer.symmetry_points (Nat.le_refl 8) _ Ec) as H.
  unfold FunctionAnalyzer.checkSymmetry.
  cbv beta iota delta [FunctionAnalyzer.isEven FunctionAnalyzer.isOdd].
  subst c. exact H.
Qed.

Section SymmetrySound.

Import FunctionAnalyzer.

Local Open Scope float_scope.

Variable func : jsfun.

Local Abbreviation f := (evaluate_number func).

Lemma finite_not_isNaN (y : float) :
  Num.isFinite y = true -> Num.isNaN y = false.
Proof. apply FloatOrder.finite_not_nan. Qed.

Lemma zero_below_tolerance : (abs 0 <? symmetry_tolerance) = true.
Proof. reflexivity. Qed.

(** A test that counts: both values are finite. *)
Lemma symmetry_step_valid (c : symmetry_counts) (x : float) :
  (x =? 0) = false ->
  Num.isFinite (f x) = true -> Num.isFinite (f (- x)) = true ->
  symmetry_step func c x
  = {| oddCount :=
         if Num.Math_abs (f (- x) - - f x) <? symmetry_tolerance
         then S (oddCount c) else oddCount c;
       evenCount :=
         if Num.Math_abs (f (- x) - f x) <? symmetry_tolerance
         then S (evenCount c) else evenCount c;
       totalTests := S (totalTests c) |}.
Proof.
  intros Hx F1 F2. unfold symmetry_step.
  rewrite Hx, F1, F2, (finite_not_isNaN _ F1), (finite_not_isNaN _ F2).
  reflexivity.
Qed.

Lemma even_fold (xs : list float) :
  Forall (fun x => (x =? 0) = false
                   /\ Num.isFinite (f x) = true /\ f (- x) = f x) xs ->
  forall c,
    evenCount c = totalTests c ->
    let c' := fold_left (symmetry_step func) xs c in
    evenCount c' = totalTests c'
    /\ totalTests c' = (totalTests c + List.length xs)%nat.
Proof.
  induction 1 as [|x xs (Hx & Fx & Ex) _ IH]; intros c Hc;
    cbn [fold_left List.length].
  - cbv zeta. lia.
  - assert (Fn : Num.isFinite (f (- x)) = true) by (rewrite Ex; exact Fx).
    destruct (IH (symmetry_step func c x)) as [I1 I2].
    + rewrite (symmetry_step_valid c x Hx Fx Fn).
      cbn [evenCount totalTests]. rewrite Ex.
      unfold Num.Math_abs. rewrite (FloatMore.sub_self _ Fx).
      rewrite zero_below_tolerance. lia.
    + cbv zeta in *. split; [exact I1|]. rewrite I2.
      rewrite (symmetry_step_valid c x Hx Fx Fn). cbn [totalTests]. lia.
Qed.

Lemma odd_fold (xs : list float) :
  Forall (fun x => (x =? 0) = false
                   /\ Num.isFinite (f x) = true
                   /\ Num.isFinite (f (- x)) = true
                   /\ f (- x) = - f x) xs ->
  forall c,
    oddCount c = totalTests c ->
    let c' := fold_left (symmetry_step func) xs c in
    oddCount c' = totalTests c'
    /\ totalTests c' = (totalTests c + List.length xs)%nat.
Proof.
  induction 1 as [|x xs (Hx & Fx & Fn & Ex) _ IH]; intros c Hc;
    cbn [fold_left List.length].
  - cbv zeta. lia.
  - destruct (IH (symmetry_step func c x)) as [I1 I2].
    + rewrite (symmetry_step_valid c x Hx Fx Fn).
      cbn [oddCount totalTests].
      unfold Num.Math_abs. rewrite <- Ex. rewrite (FloatMore.sub_self _ Fn).
      rewrite zero_below_tolerance. lia.
    + cbv zeta in *. split; [exact I1|]. rewrite I2.
      rewrite (symmetry_step_valid c x Hx Fx Fn). cbn [totalTests]. lia.
Qed.

End SymmetrySound.

Lemma symmetry_points_nonzero :
  Forall (fun x => (x =? 0)%float = false) FunctionAnalyzer.symmetry_points.
Proof.
  apply Forall_forall. intros x Hx.
  assert (T : forallb (fun x => negb (x =? 0)%float)
                      FunctionAnalyzer.symmetry_points = true)
    by (vm_compute; reflexivity).
  rewrite forallb_forall in T. apply negb_true_iff, T, Hx.
Qed.

(** [checkSymmetry], lines 256 to 292. A function that is finite at the
    eight points and takes equal values at opposite points is reported
    even. *)
Theorem checkSymmetry_even (func : jsfun) :
  Conditions.even_on func FunctionAnalyzer.symmetry_points = true ->
  FunctionAnalyzer.isEven (FunctionAnalyzer.checkSymmetry func) = true.
Proof.
  intros H. unfold Conditions.even_on in H. rewrite forallb_forall in H.
  assert (F : Forall
                (fun x => (x =? 0)%float = false
                          /\ Num.isFinite (evaluate_number func x) = true
                          /\ evaluate_number func (- x)
                             = evaluate_number func x)
                FunctionAnalyzer.symmetry_points).
  { apply Forall_forall. intros x Hx.
    pose proof symmetry_points_nonzero as Z. rewrite Forall_forall in Z.
    specialize (H x Hx). apply andb_prop in H. destruct H as [H1 H2].
    apply FloatAxioms.Leibniz.eqb_spec in H2. auto. }
  unfold FunctionAnalyzer.checkSymmetry.
  cbv beta iota delta [FunctionAnalyzer.isEven].
  unfold FunctionAnalyzer.count_symmetry.
  destruct (even_fold func FunctionAnalyzer.symmetry_points F
              {| FunctionAnalyzer.oddCount := 0;
                 FunctionAnalyzer.evenCount := 0;
                 FunctionAnalyzer.totalTests := 0 |} eq_refl) as [E T].
  cbv zeta in E, T. rewrite E, T. vm_compute. reflexivity.
Qed.

(** [checkSymmetry], lines 256 to 292. A function that is finite at the
    eight points and takes opposite values at opposite points is reported
    odd. *)
Theorem checkSymmetry_odd (func : jsfun) :
  Conditions.odd_on func FunctionAnalyzer.symmetry_points = true ->
  FunctionAnalyzer.isOdd (FunctionAnalyzer.checkSymmetry func) = true.
Proof.
  intros H. unfold Conditions.odd_on in H. rewrite forallb_forall in H.
  assert (F : Forall
                (fun x => (x =? 0)%float = false
                          /\ Num.isFinite (evaluate_number func x) = true
                          /\ Num.isFinite (evaluate_number func (- x)) = true
                          /\ evaluate_number func (- x)
                             = (- evaluate_number func x)%float)
                FunctionAnalyzer.symmetry_points).
  { apply Forall_forall. intros x Hx.
    pose proof symmetry_points_nonzero as Z. rewrite Forall_forall in Z.
    specialize (H x Hx). apply andb_prop in H. destruct H as [H1 H3].
    apply andb_prop in H1. destruct H1 as [H1 H2].
    apply FloatAxioms.Leibniz.eqb_spec in H3. auto. }
  unfold FunctionAnalyzer.checkSymmetry.
  cbv beta iota delta [FunctionAnalyzer.isOdd].
  unfold FunctionAnalyzer.count_symmetry.
  destruct (odd_fold func FunctionAnalyzer.symmetry_points F
              {| FunctionAnalyzer.oddCount := 0;
                 FunctionAnalyzer.evenCount := 0;
                 FunctionAnalyzer.totalTests := 0 |} eq_refl) as [E T].
  cbv zeta in E, T. rewrite E, T. vm_compute. reflexivity.
Qed.

Lemma checkSymmetry_even_witness :
  FunctionAnalyzer.isEven
    (FunctionAnalyzer.checkSymmetry (Compiled.square Reference.host)) = true.
Proof. apply checkSymmetry_even. vm_compute. reflexivity. Defined.

Lemma checkSymmetry_odd_witness :
  FunctionAnalyzer.isOdd
    (FunctionAnalyzer.checkSymmetry (Compiled.cube Reference.host)) = true.
Proof. apply checkSymmetry_odd. vm_compute. reflexivity. Defined.

(* ------------------------------------------------------------------ *)
(** * [isOneToOne]                                                      *)
(* ------------------------------------------------------------------ *)

Section InjectivityFacts.

Import FunctionAnalyzer Words.

Local Open Scope float_scope.

Variable func : jsfun.

Local Abbreviation f := (evaluate_number func).
Local Abbreviation later_apart :=
  (fun a b : float => apart injectivity_tolerance b a).

Lemma skip_test (y : float) :
  Num.isNaN y || negb (Num.isFinite y) = negb (Num.isFinite y).
Proof.
  destruct (Num.isFinite y) eqn:F; [|apply orb_true_r].
  rewrite (finite_not_isNaN _ F). reflexivity.
Qed.

Lemma no_clash (y : float) (ys : list float) :
  existsb (fun prevY => Num.Math_abs (y - prevY) <? injectivity_tolerance) ys
  = false
  <-> Forall (fun prevY => apart injectivity_tolerance y prevY) ys.
Proof.
  unfold apart, Num.Math_abs. induction ys as [|p ys IH]; cbn [existsb].
  - split; auto.
  - rewrite orb_false_iff, IH. split.
    + intros [H1 H2]. constructor; assumption.
    + intros H. inversion H; subst. auto.
Qed.

(** The loop of [isOneToOne] answers [true] exactly when the finite values
    met are, each, apart from all the values collected before, and six
    values or more are collected in the end. *)
Lemma isOneToOne_loop_spec (xs : list float) :
  forall ys,
    isOneToOne_loop func xs ys = true
    <-> (Forall (fun v => Forall (fun prevY =>
                                    apart injectivity_tolerance v prevY) ys)
                (finite_values func xs)
         /\ ForallOrdPairs later_apart (finite_values func xs)
         /\ (5 < List.length ys + List.length (finite_values func xs))%nat).
Proof.
  unfold finite_values.
  induction xs as [|x xs IH]; intros ys; cbn [isOneToOne_loop List.map filter].
  - rewrite Nat.ltb_lt. cbn [List.length]. rewrite Nat.add_0_r.
    split; [intros H; repeat split; auto; constructor|tauto].
  - rewrite skip_test. destruct (Num.isFinite (f x)) eqn:F; cbn [negb].
    + destruct (existsb _ ys) eqn:C.
      * split; [discriminate|]. intros (H & _ & _).
        inversion H as [|? ? H1 _]; subst.
        apply no_clash in H1. congruence.
      * apply no_clash in C. rewrite IH. rewrite length_app.
        cbn [List.length]. split.
        -- intros (H1 & H2 & H3). split; [|split].
           ++ constructor; [exact C|].
              eapply Forall_impl; [|exact H1]. cbn.
              intros v Hv. apply Forall_app in Hv. tauto.
           ++ constructor; [|exact H2].
              eapply Forall_impl; [|exact H1]. cbn.
              intros v Hv. apply Forall_app in Hv. destruct Hv as [_ Hv].
              inversion Hv; subst. assumption.
           ++ lia.
        -- intros (H1 & H2 & H3).
           inversion H1 as [|? ? H1a H1b]; subst.
           inversion H2 as [|? ? H2a H2b]; subst.
           split; [|split; [exact H2b|lia]].
           apply Forall_forall. intros v Hv. apply Forall_app. split.
           ++ rewrite Forall_forall in H1b. exact (H1b v Hv).
           ++ constructor; [|constructor].
              rewrite Forall_forall in H2a. exact (H2a v Hv).
    + apply IH.
Qed.

(** Two values met in this order are among the finite values, in the same
    order. *)
Lemma ordered_pairs_pick (R : float -> float -> Prop) (l1 l2 l3 : list float)
      (p q : float) :
  ForallOrdPairs R (finite_values func (l1 ++ p :: l2 ++ q :: l3)) ->
  Num.isFinite (f p) = true -> Num.isFinite (f q) = true ->
  R (f p) (f q).
Proof.
  unfold finite_values. rewrite map_app, filter_app. cbn [List.map filter].
  intros H Fp Fq. rewrite Fp in H.
  induction (filter Num.isFinite (List.map f l1)) as [|a l IH].
  - cbn [app] in H. inversion H as [|? ? H1 _]; subst.
    rewrite Forall_forall in H1. apply H1.
    rewrite map_app, filter_app. cbn [List.map filter]. rewrite Fq.
    apply in_or_app. right. left. reflexivity.
  - apply IH. cbn [app] in H. inversion H; subst. assumption.
Qed.

End InjectivityFacts.

Lemma injectivity_points_length :
  List.length Samples.injectivity_points = 21%nat.
Proof. vm_compute. reflexivity. Qed.

Lemma isOneToOne_eq (func : jsfun) :
  FunctionAnalyzer.isOneToOne func
  = Some (FunctionAnalyzer.isOneToOne_loop func Samples.injectivity_points []).
Proof.
  unfold FunctionAnalyzer.isOneToOne. rewrite injectivity_points_visited.
  reflexivity.
Qed.

(** [isOneToOne], lines 295 to 323. The 21 abscissas are visited, the
    values that are not finite are ignored, and the answer is [true] exactly
    when six finite values or more were met and each was apart (by [1e-8] or
    more) from every finite value met before it. *)
Theorem isOneToOne_spec (func : jsfun) :
  List.length Samples.injectivity_points = 21%nat
  /\ exists b,
      FunctionAnalyzer.isOneToOne func = Some b
      /\ (b = true
          <-> (6 <= List.length
                      (Words.finite_values func Samples.injectivity_points))%nat
              /\ ForallOrdPairs
                   (fun a b =>
                      Words.apart FunctionAnalyzer.injectivity_tolerance b a)
                   (Words.finite_values func Samples.injectivity_points)).
Proof.
  split; [apply injectivity_points_length|].
  eexists. split; [apply isOneToOne_eq|].
  rewrite (isOneToOne_loop_spec func Samples.injectivity_points []).
  cbn [List.length Nat.add]. split.
  - intros (_ & H2 & H3). split; [lia|exact H2].
  - intros (H1 & H2). split; [|split; [exact H2|lia]].
    apply Forall_forall. intros v _. constructor.
Qed.

(** [isOneToOne], lines 305 to 322. A function that takes the same finite
    value at two of the 21 abscissas is never reported one-to-one. *)
Theorem isOneToOne_repeated (func : jsfun) (p q : float) :
  In p Samples.injectivity_points -> In q Samples.injectivity_points ->
  p <> q ->
  Num.isFinite (evaluate_number func p) = true ->
  evaluate_number func p = evaluate_number func q ->
  FunctionAnalyzer.isOneToOne func = Some false.
Proof.
  intros Hp Hq Hpq Fp E. rewrite isOneToOne_eq. f_equal.
  destruct (FunctionAnalyzer.isOneToOne_loop func Samples.injectivity_points [])
    eqn:L; [exfalso|reflexivity].
  apply isOneToOne_loop_spec in L. destruct L as (_ & L & _).
  assert (Fq : Num.isFinite (evaluate_number func q) = true)
    by (rewrite <- E; exact Fp).
  assert (Z : forall a b : float,
             a = b -> Num.isFinite a = true ->
             Words.apart FunctionAnalyzer.injectivity_tolerance a b -> False).
  { intros a b <- Fa. unfold Words.apart.
    rewrite (FloatMore.sub_self a Fa). vm_compute. discriminate. }
  destruct (in_split _ _ Hp) as (l1 & l2 & Dp).
  rewrite Dp in Hq. apply in_app_or in Hq. destruct Hq as [Hq|[Hq|Hq]].
  - destruct (in_split _ _ Hq) as (m1 & m2 & ->).
    rewrite <- app_assoc in Dp. cbn [app] in Dp. rewrite Dp in L.
    apply (ordered_pairs_pick func _ m1 m2 l2 q p) in L; try assumption.
    apply (Z _ _ E Fp L).
  - congruence.
  - destruct (in_split _ _ Hq) as (m1 & m2 & ->).
    rewrite Dp in L.
    apply (ordered_pairs_pick func _ l1 m1 m2 p q) in L; try assumption.
    apply (Z _ _ (eq_sym E) Fq L).
Qed.

Lemma isOneToOne_repeated_witness :
  FunctionAnalyzer.isOneToOne (Compiled.square Reference.host) = Some false.
Proof.
  apply (isOneToOne_repeated (Compiled.square Reference.host)
                             (-5)%float 5%float).
  - vm_compute. left. reflexivity.
  - vm_compute. repeat first [left; reflexivity | right].
  - intros E. apply (f_equal (fun x => (x <? 0)%float)) in E.
    vm_compute in E. discriminate.
  - vm_compute. reflexivity.
  - vm_compute. reflexivity.
Defined.

(* ------------------------------------------------------------------ *)
(** * [analyzeDomain]                                                   *)
(* ------------------------------------------------------------------ *)

Lemma ordered_pairs_snoc {A : Type} (R : A -> A -> Prop) (l : list A)
      (r : A) :
  ForallOrdPairs R l -> Forall (fun a => R a r) l ->
  ForallOrdPairs R (l ++ [r]).
Proof.
  induction 1 as [|a l Ha Hl IH]; intros H; cbn [app].
  - repeat constructor.
  - inversion H; subst. constructor; [|apply IH; assumption].
    apply Forall_app. split; [exact Ha|]. repeat constructor. assumption.
Qed.

Section DomainFacts.

Import FunctionAnalyzer Words Conditions.

Local Open Scope float_scope.

Variable func : jsfun.

Local Abbreviation f := (evaluate_number func).
Local Abbreviation rounded := (fun x : float => Num.Math_round (x * 10) / 10).

Lemma not_close (r : float) (acc : list float) :
  existsb (fun a => Num.Math_abs (a - r) <? 0.05) acc = false
  <-> Forall (fun a => apart 0.05 a r) acc.
Proof.
  unfold apart, Num.Math_abs. induction acc as [|p acc IH]; cbn [existsb].
  - split; auto.
  - rewrite orb_false_iff, IH. split.
    + intros [H1 H2]. constructor; assumption.
    + intros H. inversion H; subst. auto.
Qed.

(** The list of restrictions after the abscissas [xs]: it only grows, by
    rounded abscissas where the function is not finite, each apart from
    those before it. *)
Lemma domain_fold (xs : list float) :
  forall acc,
    let rs := fold_left (domain_step func) xs acc in
    (exists new,
        rs = acc ++ new
        /\ Forall (fun r => exists x, In x xs
                                     /\ Num.isFinite (f x) = false
                                     /\ r = rounded x) new)
    /\ (ForallOrdPairs (apart 0.05) acc -> ForallOrdPairs (apart 0.05) rs)
    /\ (rs = [] <-> acc = [] /\ finite_on func xs = true).
Proof.
  unfold finite_on.
  induction xs as [|x xs IH]; intros acc; cbn [fold_left forallb].
  - cbv zeta. split; [exists []; rewrite app_nil_r; auto|].
    split; [auto|]. tauto.
  - destruct (IH (domain_step func acc x)) as ((new & E & O) & P & N).
    cbv zeta in *. unfold domain_step in *.
    destruct (Num.isFinite (f x)) eqn:F; cbn [negb andb] in *.
    + split; [|split; [exact P|exact N]].
      exists new. split; [exact E|].
      eapply Forall_impl; [|exact O]. cbn. intros r (y & Hy & Hr).
      exists y. split; [right; exact Hy|exact Hr].
    + destruct (existsb (fun a => Num.Math_abs (a - rounded x) <? 0.05) acc)
        eqn:C; cbn [negb] in *.
      * split; [|split; [exact P|]].
        -- exists new. split; [exact E|].
           eapply Forall_impl; [|exact O]. cbn. intros r (y & Hy & Hr).
           exists y. split; [right; exact Hy|exact Hr].
        -- split; [|intros [_ H]; discriminate].
           intros Hrs. apply N in Hrs. destruct Hrs as [-> _].
           cbn in C. discriminate.
      * split; [|split].
        -- exists (rounded x :: new). rewrite E, <- app_assoc.
           split; [reflexivity|]. constructor.
           ++ exists x. split; [left; reflexivity|]. split; [exact F|reflexivity].
           ++ eapply Forall_impl; [|exact O]. cbn. intros r (y & Hy & Hr).
              exists y. split; [right; exact Hy|exact Hr].
        -- intros H. apply P. apply ordered_pairs_snoc; [exact H|].
           apply not_close, C.
        -- rewrite N. split.
           ++ intros [H _]. destruct acc; discriminate.
           ++ intros [_ H]. discriminate.
Qed.

End DomainFacts.

Lemma domain_points_length : List.length Samples.domain_points = 400%nat.
Proof. vm_compute. reflexivity. Qed.

Lemma domain_sampling_eq (func : jsfun) :
  FunctionAnalyzer.domain_sampling func
  = Some (FunctionAnalyzer.domain_of_restrictions
            (fold_left (FunctionAnalyzer.domain_step func)
                       Samples.domain_points [])).
Proof.
  unfold FunctionAnalyzer.domain_sampling.
  rewrite (proj2 (for_loop_fold 20 0.1 (FunctionAnalyzer.domain_step func)
                    FunctionAnalyzer.domain_fuel (-20) Samples.domain_points
                    [] domain_points_visited)).
  reflexivity.
Qed.

Lemma domain_all_reals (rs : list float) :
  FunctionAnalyzer.domain_of_restrictions rs = FunctionAnalyzer.AllReals
  <-> rs = [].
Proof.
  unfold FunctionAnalyzer.domain_of_restrictions.
  destruct rs as [|r rs].
  - cbn. tauto.
  - change (0 <? List.length (r :: rs))%nat with true. cbv iota.
    destruct (List.length (r :: rs) <=? 5)%nat; split; discriminate.
Qed.

(** [analyzeDomain], lines 370 to 394. When no textual pattern applies, the
    400 abscissas of the sweep are visited; the restrictions listed are
    rounded abscissas where the function is not finite, each apart (by
    [0.05] or more) from those listed before; and the answer is "All real
    numbers" exactly when the function is finite at every abscissa. *)
Theorem analyzeDomain_sampling (func : jsfun) (expression : string) :
  FunctionAnalyzer.domain_pattern expression = None ->
  exists rs,
    FunctionAnalyzer.analyzeDomain func expression
    = Some (FunctionAnalyzer.domain_of_restrictions rs)
    /\ ForallOrdPairs (Words.apart 0.05) rs
    /\ Forall (fun r =>
                 exists x, In x Samples.domain_points
                           /\ Num.isFinite (evaluate_number func x) = false
                           /\ r = (Num.Math_round (x * 10) / 10)%float) rs
    /\ (FunctionAnalyzer.domain_of_restrictions rs = FunctionAnalyzer.AllReals
        <-> Conditions.finite_on func Samples.domain_points = true).
Proof.
  intros P. unfold FunctionAnalyzer.analyzeDomain. rewrite P.
  rewrite domain_sampling_eq. eexists. split; [reflexivity|].
  destruct (domain_fold func Samples.domain_points [])
    as ((new & E & O) & F & N).
  cbv zeta in *. split; [apply F; constructor|]. split.
  - rewrite E. exact O.
  - rewrite domain_all_reals, N. tauto.
Qed.

Lemma analyzeDomain_sampling_witness :
  exists rs,
    FunctionAnalyzer.analyzeDomain (Compiled.identity Reference.host) "x"
    = Some (FunctionAnalyzer.domain_of_restrictions rs)
    /\ ForallOrdPairs (Words.apart 0.05) rs
    /\ Forall (fun r =>
                 exists x, In x Samples.domain_points
                           /\ Num.isFinite
                                (evaluate_number
                                   (Compiled.identity Reference.host) x)
                              = false
                           /\ r = (Num.Math_round (x * 10) / 10)%float) rs
    /\ (FunctionAnalyzer.domain_of_restrictions rs = FunctionAnalyzer.AllReals
        <-> Conditions.finite_on (Compiled.identity Reference.host)
                                 Samples.domain_points = true).
Proof.
  apply analyzeDomain_sampling. vm_compute. reflexivity.
Defined.

(* ------------------------------------------------------------------ *)
(** * The abscissas of the two sweeps                                   *)
(* ------------------------------------------------------------------ *)

(** [analyzeRange], line 408, and [analyzeDomain], line 375. Whatever the
    function, the first loop visits 1000 abscissas from [-50] and the second
    400 abscissas from [-20], each the one before plus [0.1]; the rounding
    of the additions makes both loops stop short of their upper bound, and
    neither ever visits [0]. *)
Theorem sweep_abscissas :
  (List.length Samples.range_points = 1000%nat
   /\ Samples.visits 50 0.1 (-50) Samples.range_points
   /\ Forall (fun p => (p <? 50)%float = true /\ (p =? 0)%float = false)
             Samples.range_points
   /\ forall func,
       FunctionAnalyzer.range_sweep func
       = Some (fold_left (FunctionAnalyzer.range_step func)
                         Samples.range_points FunctionAnalyzer.sweep_start))
  /\ (List.length Samples.domain_points = 400%nat
      /\ Samples.visits 20 0.1 (-20) Samples.domain_points
      /\ Forall (fun p => (p <? 20)%float = true /\ (p =? 0)%float = false)
                Samples.domain_points
      /\ forall func,
          FunctionAnalyzer.domain_sampling func
          = Some (FunctionAnalyzer.domain_of_restrictions
                    (fold_left (FunctionAnalyzer.domain_step func)
                               Samples.domain_points []))).
Proof.
  split; (split; [|split; [|split]]).
  - apply range_points_length.
  - exact (proj1 (for_loop_fold 50 0.1 (fun (u : unit) _ => u)
                    FunctionAnalyzer.range_fuel (-50) Samples.range_points
                    tt range_points_visited)).
  - apply Forall_forall. intros p Hp.
    assert (T : forallb (fun p => (p <? 50)%float && negb (p =? 0)%float)
                        Samples.range_points = true)
      by (vm_compute; reflexivity).
    rewrite forallb_forall in T. specialize (T p Hp).
    apply andb_prop in T. destruct T as [T1 T2].
    apply negb_true_iff in T2. auto.
  - apply range_sweep_eq.
  - apply domain_points_length.
  - exact (proj1 (for_loop_fold 20 0.1 (fun (u : unit) _ => u)
                    FunctionAnalyzer.domain_fuel (-20) Samples.domain_points
                    tt domain_points_visited)).
  - apply Forall_forall. intros p Hp.
    assert (T : forallb (fun p => (p <? 20)%float && negb (p =? 0)%float)
                        Samples.domain_points = true)
      by (vm_compute; reflexivity).
    rewrite forallb_forall in T. specialize (T p Hp).
    apply andb_prop in T. destruct T as [T1 T2].
    apply negb_true_iff in T2. auto.
  - apply domain_sampling_eq.
Qed.

(* ------------------------------------------------------------------ *)
(** * The scan of [drawAsymptotes]                                      *)
(* ------------------------------------------------------------------ *)

Section LoopInversion.

Context {S : Type}.
Variables (hi step : float) (body : S -> float -> S).

(** A loop that ends has folded its body over the abscissas it visited. *)
Lemma for_loop_inv (fuel : nat) :
  forall (x : float) (s r : S),
    Loop.for_loop fuel x hi step body s = Some r ->
    exists xs, Samples.visits hi step x xs /\ r = fold_left body xs s.
Proof.
  induction fuel as [|fuel IH]; intros x s r; cbn [Loop.for_loop].
  - discriminate.
  - destruct (x <=? hi)%float eqn:E.
    + intros H. destruct (IH _ _ _ H) as (xs & V & ->).
      exists (x :: xs). split; [now constructor|reflexivity].
    + intros H. injection H as <-. exists []. split; [now constructor|].
      reflexivity.
Qed.

End LoopInversion.

Section SubsequenceFacts.

Import Words.

Context {A : Type}.

Lemma subsequence_refl (l : list A) : subsequence l l.
Proof. induction l; constructor; assumption. Qed.

Lemma subsequence_nil (l : list A) : subsequence [] l.
Proof. induction l; constructor; assumption. Qed.

Lemma subsequence_cons_app (x : A) (l m : list A) :
  subsequence l m -> subsequence l (x :: m).
Proof. apply sub_skip. Qed.

End SubsequenceFacts.

Section CleanFacts.

Import Asymptotes Words.

Local Open Scope float_scope.

Variable minDistance : float.

Lemma not_near (asym : float) (acc : list float) :
  existsb (fun existing => Num.Math_abs (existing - asym) <? minDistance) acc
  = false
  <-> Forall (fun existing => apart minDistance existing asym) acc.
Proof.
  unfold apart, Num.Math_abs. induction acc as [|p acc IH]; cbn [existsb].
  - split; auto.
  - rewrite orb_false_iff, IH. split.
    + intros [H1 H2]. constructor; assumption.
    + intros H. inversion H; subst. auto.
Qed.

(** The cleaning loop: what is kept is a subsequence of the candidates, any
    two kept abscissas are apart, and every candidate is kept or within
    [minDistance] of a kept one. *)
Lemma clean_fold (l : list float) :
  forall acc,
    let r := fold_left (clean_step minDistance) l acc in
    (exists new, r = acc ++ new /\ subsequence new l)
    /\ (ForallOrdPairs (apart minDistance) acc ->
        ForallOrdPairs (apart minDistance) r)
    /\ Forall (fun a => exists e,
                   In e r
                   /\ (e = a \/ (abs (e - a) <? minDistance) = true)) l.
Proof.
  induction l as [|a l IH]; intros acc; cbn [fold_left].
  - cbv zeta. split; [exists []; rewrite app_nil_r; split;
                      [reflexivity|constructor]|].
    split; [auto|constructor].
  - destruct (IH (clean_step minDistance acc a)) as ((new & E & Sb) & P & C).
    cbv zeta in *. unfold clean_step in *.
    destruct (existsb (fun existing =>
                         Num.Math_abs (existing - a) <? minDistance) acc)
      eqn:X; cbn [negb] in *.
    + split; [|split; [exact P|]].
      * exists new. split; [exact E|]. now apply sub_skip.
      * constructor; [|exact C].
        apply existsb_exists in X. destruct X as (e & He & Hc).
        exists e. split; [|right; exact Hc].
        rewrite E. apply in_or_app. left. exact He.
    + split; [|split].
      * exists (a :: new). rewrite E, <- app_assoc.
        split; [reflexivity|]. now apply sub_keep.
      * intros H. apply P. apply ordered_pairs_snoc; [exact H|].
        apply not_near, X.
      * constructor; [|exact C].
        exists a. split; [|left; reflexivity].
        rewrite E. apply in_or_app. left. apply in_or_app. right.
        left. reflexivity.
Qed.

End CleanFacts.

Section ScanFacts.

Import Asymptotes Words.

Local Open Scope float_scope.

Variables (func : jsfun) (step yThreshold : float).

Local Abbreviation flanked := (Conditions.flanked func step).

Lemma scan_step_cases (acc : list float) (x : float) :
  (scan_step func step yThreshold acc x = acc
   /\ (Num.isFinite (evaluate_number func x) = false -> ~ flanked x))
  \/ (scan_step func step yThreshold acc x = (acc ++ [x])%list /\ flanked x).
Proof.
  unfold scan_step, Conditions.flanked.
  destruct (Num.isFinite (evaluate_number func x)) eqn:Fy;
    destruct (Num.isFinite (evaluate_number func (x - step))) eqn:Fl;
    destruct (Num.isFinite (evaluate_number func (x + step))) eqn:Fr;
    cbn [negb andb];
    try (left; split; [reflexivity|intros ? [? ?]; discriminate]);
    try (right; split; [reflexivity|split; reflexivity]).
  - match goal with
    | |- context [if ?c then (acc ++ [x])%list else _] => destruct c
    end; [right; split; [reflexivity|split; reflexivity]|].
    match goal with
    | |- context [if ?c then (acc ++ [x])%list else _] => destruct c
    end; [right; split; [reflexivity|split; reflexivity]|].
    left. split; [reflexivity|discriminate].
Qed.

(** The scanning loop: the candidates are visited abscissas, in the order
    of the visit, each flanked by finite values; and a visited abscissa
    flanked by finite values where the value is not finite is a candidate. *)
Lemma scan_fold (xs : list float) :
  forall acc,
  exists new,
    fold_left (scan_step func step yThreshold) xs acc = (acc ++ new)%list
    /\ subsequence new xs
    /\ Forall flanked new
    /\ (forall x, In x xs ->
                  Num.isFinite (evaluate_number func x) = false ->
                  flanked x -> In x new).
Proof.
  induction xs as [|x xs IH]; intros acc; cbn [fold_left].
  - exists []. rewrite app_nil_r. split; [reflexivity|].
    split; [constructor|]. split; [constructor|]. intros x [].
  - destruct (scan_step_cases acc x) as [[E N]|[E F]]; rewrite E.
    + destruct (IH acc) as (new & -> & Sb & Fl & Cv).
      exists new. split; [reflexivity|]. split; [now apply sub_skip|].
      split; [exact Fl|]. intros z [<-|Hz] Hn Hf.
      * destruct (N Hn Hf).
      * now apply Cv.
    + destruct (IH (acc ++ [x])%list) as (new & -> & Sb & Fl & Cv).
      exists (x :: new). rewrite <- app_assoc. split; [reflexivity|].
      split; [now apply sub_keep|]. split; [now constructor|].
      intros z [<-|Hz] Hn Hf; [left; reflexivity|right; now apply Cv].
Qed.

End ScanFacts.

Lemma candidates_inv (func : jsfun) (xMin xMax yThreshold : float) found :
  Asymptotes.candidates func xMin xMax yThreshold = Some found ->
  exists visited,
    Samples.visits xMax ((xMax - xMin) / 2000)%float xMin visited
    /\ found = fold_left (Asymptotes.scan_step func ((xMax - xMin) / 2000)%float yThreshold) visited [].
Proof.
  exact (for_loop_inv xMax ((xMax - xMin) / 2000)%float
           (Asymptotes.scan_step func ((xMax - xMin) / 2000)%float yThreshold)
           Asymptotes.scan_fuel xMin [] found).
Qed.

Lemma scan_inv (func : jsfun) (xMin xMax yThreshold : float) drawn :
  Asymptotes.scan func xMin xMax yThreshold = Some drawn ->
  exists found,
    Asymptotes.candidates func xMin xMax yThreshold = Some found
    /\ drawn = fold_left (Asymptotes.clean_step ((xMax - xMin) / 2000 * 10)%float) found [].
Proof.
  unfold Asymptotes.scan.
  destruct (Asymptotes.candidates func xMin xMax yThreshold) as [found|];
    [|discriminate].
  intros H. exists found. split; [reflexivity|].
  exact (f_equal (fun o => match o with Some l => l | None => drawn end)
                 (eq_sym H)).
Qed.

(** [drawAsymptotes], lines 698 to 765. When the scan of [[xMin, xMax]]
    ends, the abscissas visited start at [xMin] and go by
    [step = (xMax - xMin) / 2000]; the candidates are visited abscissas, in
    order, each with a finite value [step] to its left and to its right; a
    visited abscissa with such neighbours whose own value is not finite is
    always a candidate; the lines drawn are a subsequence of the candidates,
    any two of them at least [10 * step] apart, and every candidate is drawn
    or is less than [10 * step] from a drawn one. *)
Theorem scan_spec (func : jsfun) (xMin xMax yThreshold : float)
        (drawn : list float) :
  Asymptotes.scan func xMin xMax yThreshold = Some drawn ->
  let step := ((xMax - xMin) / 2000)%float in
  exists visited found,
    Samples.visits xMax step xMin visited
    /\ Asymptotes.candidates func xMin xMax yThreshold = Some found
    /\ Words.subsequence found visited
    /\ Forall (fun x =>
                 Num.isFinite (evaluate_number func (x - step)) = true
                 /\ Num.isFinite (evaluate_number func (x + step)) = true)
              found
    /\ (forall x, In x visited ->
          Num.isFinite (evaluate_number func x) = false ->
          Num.isFinite (evaluate_number func (x - step)) = true ->
          Num.isFinite (evaluate_number func (x + step)) = true ->
          In x found)
    /\ Words.subsequence drawn found
    /\ ForallOrdPairs (Words.apart (step * 10)) drawn
    /\ Forall (fun a => exists e,
                   In e drawn
                   /\ (e = a \/ (abs (e - a) <? step * 10)%float = true))
              found.
Proof.
  intros H step.
  destruct (scan_inv _ _ _ _ _ H) as (found & C & ->).
  destruct (candidates_inv _ _ _ _ _ C) as (visited & V & E).
  fold step in V, E |- *.
  destruct (scan_fold func step yThreshold visited [])
    as (new & E' & Sb & Fl & Cv).
  rewrite E' in E. change ([] ++ new) with new in E. subst new.
  destruct (clean_fold (step * 10)%float found [])
    as ((kept & Ek & Sk) & P & Cov).
  change ([] ++ kept) with kept in Ek.
  exists visited, found.
  split; [exact V|]. split; [exact C|]. split; [exact Sb|].
  split; [exact Fl|].
  split; [intros x Hx Hn Hl Hr; apply Cv; [exact Hx|exact Hn|split; assumption]|].
  split; [rewrite Ek; exact Sk|].
  split; [apply P; constructor|exact Cov].
Qed.

Lemma scan_spec_witness :
  let func := Compiled.reciprocal Reference.host in
  Asymptotes.scan func (-10) 10 5 = Some [(-1.6888920817414999e-13)%float]
  /\ exists visited found,
       Samples.visits 10 ((10 - -10) / 2000)%float (-10) visited
       /\ Asymptotes.candidates func (-10) 10 5 = Some found
       /\ Words.subsequence found visited
       /\ Forall (fun x =>
                 Num.isFinite (evaluate_number func
                                 (x - (10 - -10) / 2000)) = true
                 /\ Num.isFinite (evaluate_number func
                                    (x + (10 - -10) / 2000)) = true)%float
              found
       /\ (forall x, In x visited ->
          Num.isFinite (evaluate_number func x) = false ->
          Num.isFinite (evaluate_number func (x - (10 - -10) / 2000)) = true ->
          Num.isFinite (evaluate_number func (x + (10 - -10) / 2000)) = true ->
          In x found)%float
       /\ Words.subsequence [(-1.6888920817414999e-13)%float] found
       /\ ForallOrdPairs (Words.apart ((10 - -10) / 2000 * 10)%float)
                         [(-1.6888920817414999e-13)%float]
       /\ Forall (fun a => exists e,
                   In e [(-1.6888920817414999e-13)%float]
                   /\ (e = a
                       \/ (abs (e - a) <? (10 - -10) / 2000 * 10)%float = true))
              found.
Proof.
  cbv zeta.
  assert (H : Asymptotes.scan (Compiled.reciprocal Reference.host) (-10) 10 5
              = Some [(-1.6888920817414999e-13)%float])
    by (vm_compute; reflexivity).
  split; [exact H|].
  exact (scan_spec (Compiled.reciprocal Reference.host) (-10) 10 5 _ H).
Defined.

(* ------------------------------------------------------------------ *)
(** * [parse]: the errors                                               *)
(* ------------------------------------------------------------------ *)

Section ParenFacts.

Import Normalizer Text.

Local Open Scope Z_scope.

Lemma depth_take_nil (n : nat) : depth (Str.take n EmptyString) = 0.
Proof. destruct n; reflexivity. Qed.

(** The scan succeeds from a counter [k] exactly when no prefix brings the
    counter below zero, and it ends at [k] plus the depth of the text. *)
Lemma scan_parens_spec (s : string) :
  forall k m,
    0 <= k ->
    scan_parens s k = Some m
    <-> (forall n, 0 <= k + depth (Str.take n s)) /\ m = k + depth s.
Proof.
  induction s as [|c s IH]; intros k m Hk; cbn [scan_parens depth].
  - split.
    + intros H. injection H as <-. split; [|lia].
      intros n. rewrite depth_take_nil. lia.
    + intros [_ ->]. f_equal. lia.
  - cbv zeta.
    set (d := (if Ascii.eqb c "(" then 1 else 0)
              - (if Ascii.eqb c ")" then 1 else 0)).
    assert (E : (if Ascii.eqb c ")"
                 then (if Ascii.eqb c "(" then k + 1 else k) - 1
                 else if Ascii.eqb c "(" then k + 1 else k) = k + d).
    { unfold d. destruct (Ascii.eqb c "("), (Ascii.eqb c ")"); lia. }
    rewrite E. destruct (k + d <? 0) eqn:N.
    + apply Z.ltb_lt in N. split; [discriminate|].
      intros [H _]. specialize (H 1%nat). cbn [Str.take depth] in H.
      fold d in H. destruct s; cbn [Str.take depth] in H; lia.
    + apply Z.ltb_ge in N. rewrite (IH (k + d) m N). split.
      * intros [H ->]. split; [|lia]. intros [|n]; cbn [Str.take depth].
        -- lia.
        -- fold d. specialize (H n). lia.
      * intros [H ->]. split; [|lia]. intros n. specialize (H (S n)).
        cbn [Str.take depth] in H. fold d in H. lia.
Qed.

Lemma parens_balanced_spec (s : string) :
  parens_balanced s = true
  <-> (forall n, 0 <= depth (Str.take n s)) /\ depth s = 0.
Proof.
  unfold parens_balanced. destruct (scan_parens s 0) as [m|] eqn:E.
  - apply scan_parens_spec in E; [|lia]. destruct E as [H ->].
    rewrite Z.eqb_eq. cbn in H. split; [intros D; split; [exact H|lia]|].
    intros [_ D]. lia.
  - split; [discriminate|]. intros [H D].
    assert (X : scan_parens s 0 = Some (0 + depth s)).
    { apply scan_parens_spec; [lia|]. split; [exact H|reflexivity]. }
    rewrite X in E. discriminate.
Qed.

End ParenFacts.

(** [parse], lines 110 to 117. The error "Mismatched parentheses" is thrown
    exactly for an expression that is not blank and whose rewritten text
    has a prefix with more closing than opening parentheses, or as a whole
    does not have as many of the ones as of the others. *)
Theorem parse_mismatched (host : MathHost) (bound : string -> bool)
        (expression : string) :
  parse host bound expression = Err MismatchedParentheses
  <-> Str.blank expression = false
      /\ ~ ((forall n,
               (0 <= Text.depth
                       (Str.take n (Normalizer.normalize expression)))%Z)
            /\ Text.depth (Normalizer.normalize expression) = 0%Z).
Proof.
  rewrite <- parens_balanced_spec. unfold parse.
  destruct (Str.blank expression).
  - split; [discriminate|]. intros [H _]. discriminate.
  - destruct (Normalizer.parens_balanced (Normalizer.normalize expression));
      cbv beta iota delta [negb].
    + split.
      * destruct (new_Function host bound (Normalizer.normalize expression))
          as [func| |]; try discriminate.
        destruct (hasValidResult func); discriminate.
      * intros [_ H]. destruct H. reflexivity.
    + split; [|reflexivity]. intros _. split; [reflexivity|discriminate].
Qed.

Lemma self_test_at (func : jsfun) (t : float) :
  match func t with
  | Return testResult =>
      is_number testResult && Num.isFinite (ToNumber testResult)
  | Throw => false
  end = Num.isFinite (evaluate_number func t).
Proof.
  unfold evaluate_number, evaluate.
  destruct (func t) as [[v|f|]|]; reflexivity.
Qed.

(** The self test of [parse], read on what [evaluate] returns. *)
Lemma hasValidResult_spec (func : jsfun) :
  hasValidResult func
  = existsb (fun t => Num.isFinite (evaluate_number func t)) testValues.
Proof.
  unfold hasValidResult.
  induction testValues as [|t l IH]; cbn [existsb]; [reflexivity|].
  rewrite self_test_at, IH. reflexivity.
Qed.

Lemma parse_ok_valid (host : MathHost) (bound : string -> bool)
      (expression : string) (func : jsfun) :
  parse host bound expression = Ok func -> hasValidResult func = true.
Proof.
  unfold parse. destruct (Str.blank expression); [discriminate|].
  destruct (negb (Normalizer.parens_balanced
                    (Normalizer.normalize expression))); [discriminate|].
  destruct (new_Function host bound (Normalizer.normalize expression))
    as [f| |]; try discriminate.
  destruct (hasValidResult f) eqn:V; [|discriminate].
  intros H.
  assert (E : f = func)
    by exact (f_equal (fun r => match r with Ok g => g | _ => f end) H).
  rewrite <- E. exact V.
Qed.

(** [parse], lines 132 to 155. For an expression of the fragment: a
    function that [parse] returns has a finite value at one of the five
    probes [0], [1], [-1], [0.5] and [2]. *)
Theorem parse_ok_probe (host : MathHost) (bound : string -> bool)
        (expression : string) (func : jsfun) :
  parse host bound expression = Ok func ->
  Exists (fun t => Num.isFinite (evaluate_number func t) = true) testValues.
Proof.
  intros H. apply parse_ok_valid in H. rewrite hasValidResult_spec in H.
  apply existsb_exists in H. apply Exists_exists. exact H.
Qed.

Lemma parse_ok_probe_witness :
  parse Reference.host Reference.nothing_bound "1/x"
  = Ok (Compiled.reciprocal Reference.host)
  /\ Exists (fun t => Num.isFinite
                        (evaluate_number (Compiled.reciprocal Reference.host) t)
                      = true) testValues.
Proof.
  assert (H : parse Reference.host Reference.nothing_bound "1/x"
              = Ok (Compiled.reciprocal Reference.host))
    by (vm_compute; reflexivity).
  split; [exact H|].
  exact (parse_ok_probe Reference.host Reference.nothing_bound "1/x" _ H).
Defined.

(** [parse], lines 132 to 155. An expression of the fragment that is well
    formed, so that the engine accepts its rewritten text, is refused all
    the same, with "Expression does not produce valid numeric results",
    when its value is finite at none of the five probes: whatever it is
    elsewhere. *)
Theorem parse_off_probes (host : MathHost) (bound : string -> bool)
        (expression : string) (e : Ast.expr) :
  Str.blank expression = false ->
  Normalizer.parens_balanced (Normalizer.normalize expression) = true ->
  Ast.parse_text bound (Normalizer.normalize expression) = Parsed e ->
  Forall (fun t => Num.isFinite (evaluate_number (generated host e) t) = false)
         testValues ->
  parse host bound expression = Err NoValidResult.
Proof.
  intros H1 H2 H3 H4. unfold parse, new_Function.
  rewrite H1, H2, H3. cbv beta iota delta [negb].
  rewrite hasValidResult_spec.
  assert (X : existsb (fun t => Num.isFinite
                                  (evaluate_number (generated host e) t))
                      testValues = false).
  { induction H4 as [|t l Ht _ IH]; cbn [existsb]; [reflexivity|].
    rewrite Ht, IH. reflexivity. }
  rewrite X. reflexivity.
Qed.

Lemma parse_off_probes_witness :
  let e := Ast.Call1 (Ast.Member Js.Msqrt)
                     (Ast.Bin Ast.Sub Ast.Var (Ast.Lit 3)) in
  (Num.isFinite (evaluate_number (generated Reference.host e) 4) = true
   /\ Str.blank "sqrt(x-3)" = false
   /\ Normalizer.parens_balanced (Normalizer.normalize "sqrt(x-3)") = true
   /\ Ast.parse_text Reference.nothing_bound
                     (Normalizer.normalize "sqrt(x-3)") = Parsed e
   /\ Forall (fun t => Num.isFinite
                         (evaluate_number (generated Reference.host e) t)
                       = false) testValues)
  /\ parse Reference.host Reference.nothing_bound "sqrt(x-3)"
     = Err NoValidResult.
Proof.
  cbv zeta.
  assert (H1 : Str.blank "sqrt(x-3)" = false) by reflexivity.
  assert (H2 : Normalizer.parens_balanced (Normalizer.normalize "sqrt(x-3)")
               = true) by (vm_compute; reflexivity).
  assert (H3 : Ast.parse_text Reference.nothing_bound
                 (Normalizer.normalize "sqrt(x-3)")
               = Parsed (Ast.Call1 (Ast.Member Js.Msqrt)
                                   (Ast.Bin Ast.Sub Ast.Var (Ast.Lit 3))))
    by (vm_compute; reflexivity).
  assert (H4 : Forall (fun t => Num.isFinite
                         (evaluate_number
                            (generated Reference.host
                               (Ast.Call1 (Ast.Member Js.Msqrt)
                                  (Ast.Bin Ast.Sub Ast.Var (Ast.Lit 3)))) t)
                       = false) testValues)
    by (repeat constructor).
  split.
  - split; [vm_compute; reflexivity|].
    split; [exact H1|]. split; [exact H2|]. split; [exact H3|exact H4].
  - exact (parse_off_probes Reference.host Reference.nothing_bound
             "sqrt(x-3)" _ H1 H2 H3 H4).
Defined.

Section NegatedPower.

Import Js Ast.

Variable bound : string -> bool.

Lemma p_primary_operand (fuel : nat) (t : token) (ts : list token) :
  Text.operand bound t = true ->
  exists e, p_primary bound (S fuel) (t :: ts) = Parsed (e, ts).
Proof.
  destruct t as [v|name|f| | | | | | |]; cbn [Text.operand]; try discriminate;
    intros H; cbn [p_primary].
  - eexists. reflexivity.
  - destruct (name =? "x")%string; [eexists; reflexivity|].
    cbn [orb] in H. apply negb_true_iff in H. rewrite H.
    eexists. reflexivity.
  - eexists. reflexivity.
Qed.

Lemma operand_not_sign (t : token) :
  Text.operand bound t = true -> t <> TMinus /\ t <> TPlus.
Proof. destruct t; cbn; intros H; split; congruence. Qed.

(** [- t ** ...]: the engine refuses a unary operator applied to the left
    operand of [**]. *)
Lemma negated_power_fuel (k : nat) (t : token) (ts : list token) :
  Text.operand bound t = true ->
  p_additive bound (S (S (S (S (S (S k)))))) (TMinus :: t :: TPow :: ts)
  = Rejected.
Proof.
  intros H.
  destruct (p_primary_operand k t (TPow :: ts) H) as (e & E).
  assert (U : p_unary bound (S (S k)) (t :: TPow :: ts)
              = Parsed (e, false, TPow :: ts)).
  { cbn [p_unary].
    destruct t; try (cbn in H; discriminate); rewrite E;
      destruct k; reflexivity. }
  cbn [p_additive p_multiplicative p_exponent].
  change (p_unary bound (S (S (S k))) (TMinus :: t :: TPow :: ts))
    with (match p_unary bound (S (S k)) (t :: TPow :: ts) with
          | Parsed (e, _, ts'') => Parsed (Neg e, true, ts'')
          | Rejected => Rejected
          | Unmodelled => Unmodelled
          end).
  rewrite U. reflexivity.
Qed.

Lemma negated_power_tokens (t : token) (ts : list token) :
  Text.operand bound t = true ->
  p_expression bound (TMinus :: t :: TPow :: ts) = Rejected.
Proof.
  intros H. unfold p_expression.
  assert (F : (8 * List.length (TMinus :: t :: TPow :: ts) + 8)%nat
              = S (S (S (S (S (S (8 * List.length ts + 26)))))))
    by (cbn [List.length]; lia).
  rewrite F, (negated_power_fuel _ t ts H). reflexivity.
Qed.

End NegatedPower.

(** [parse], lines 60 and 120. An expression whose rewritten text starts
    with a minus sign, an operand and the operator [**] (the [^] of the
    input) is refused: the engine throws a [SyntaxError] when it is given
    the text of such a function. *)
Theorem parse_negated_power (host : MathHost) (bound : string -> bool)
        (expression : string) (t : Js.token) (ts : list Js.token) :
  Str.blank expression = false ->
  Normalizer.parens_balanced (Normalizer.normalize expression) = true ->
  Js.tokens (Normalizer.normalize expression)
  = Parsed (Js.TMinus :: t :: Js.TPow :: ts) ->
  Text.operand bound t = true ->
  parse host bound expression = Err EngineSyntaxError.
Proof.
  intros H1 H2 H3 H4. unfold parse, new_Function, Ast.parse_text.
  rewrite H1, H2, H3, (negated_power_tokens bound t ts H4). reflexivity.
Qed.

Lemma parse_negated_power_witness :
  (Str.blank "-x^2" = false
   /\ Normalizer.parens_balanced (Normalizer.normalize "-x^2") = true
   /\ Js.tokens (Normalizer.normalize "-x^2")
      = Parsed [Js.TMinus; Js.TId "x"; Js.TPow; Js.TNum 2]
   /\ Text.operand Reference.nothing_bound (Js.TId "x") = true)
  /\ parse Reference.host Reference.nothing_bound "-x^2"
     = Err EngineSyntaxError.
Proof.
  assert (H1 : Str.blank "-x^2" = false) by reflexivity.
  assert (H2 : Normalizer.parens_balanced (Normalizer.normalize "-x^2") = true)
    by (vm_compute; reflexivity).
  assert (H3 : Js.tokens (Normalizer.normalize "-x^2")
               = Parsed [Js.TMinus; Js.TId "x"; Js.TPow; Js.TNum 2])
    by (vm_compute; reflexivity).
  assert (H4 : Text.operand Reference.nothing_bound (Js.TId "x") = true)
    by reflexivity.
  split; [split; [exact H1|split; [exact H2|split; [exact H3|exact H4]]]|].
  exact (parse_negated_power Reference.host Reference.nothing_bound "-x^2"
           (Js.TId "x") [Js.TNum 2] H1 H2 H3 H4).
Defined.

(* ------------------------------------------------------------------ *)
(** * [parse]: the implicit multiplications                             *)
(* ------------------------------------------------------------------ *)

Section StarBetween.

Import Re Text.

Variables (r : regex) (tmpl : string).
Variable cond : option ascii -> ascii -> ascii -> bool.

Hypothesis matches :
  forall prev a b rest,
    cond prev a b = true ->
    exists caps,
      match_at r prev (String a (String b rest)) = Some (caps, rest)
      /\ expand tmpl caps = String a (String "*" (String b EmptyString)).

Hypothesis fails_short :
  forall prev, match_at r prev EmptyString = None.
Hypothesis fails_one :
  forall prev a, match_at r prev (String a EmptyString) = None.
Hypothesis fails_two :
  forall prev a b rest,
    cond prev a b = false ->
    match_at r prev (String a (String b rest)) = None.

Lemma two_more (n : nat) : (S (S n) - n = 2)%nat.
Proof. lia. Qed.

(** A replacement that matches two characters and puts [*] between them. *)
Lemma replace_from_star (n : nat) :
  forall s prev,
    (String.length s <= n)%nat ->
    replace_from r tmpl prev s 0 = star_between cond prev s.
Proof.
  induction n as [|n IH]; intros s prev L.
  - destruct s; [|cbn in L; lia].
    cbn [replace_from star_between]. rewrite fails_short. reflexivity.
  - destruct s as [|a [|b s2]].
    + cbn [replace_from star_between]. rewrite fails_short. reflexivity.
    + cbn [replace_from star_between]. rewrite fails_one, fails_short.
      reflexivity.
    + cbn [String.length] in L.
      change (replace_from r tmpl prev (String a (String b s2)) 0)
        with (match match_at r prev (String a (String b s2)) with
              | Some (caps, rest) =>
                  match (String.length (String a (String b s2))
                         - String.length rest)%nat with
                  | O => (expand tmpl caps
                          ++ String a (replace_from r tmpl (Some a)
                                         (String b s2) 0))%string
                  | S k => (expand tmpl caps
                            ++ replace_from r tmpl (Some a) (String b s2) k)%string
                  end
              | None => String a (replace_from r tmpl (Some a) (String b s2) 0)
              end).
      cbn [star_between]. destruct (cond prev a b) eqn:C.
      * destruct (matches prev a b s2 C) as (caps & M & X).
        rewrite M, X. cbn [String.length]. rewrite two_more.
        cbn [replace_from append]. rewrite IH by lia. reflexivity.
      * rewrite (fails_two prev a b s2 C), IH by (cbn [String.length]; lia).
        reflexivity.
Qed.

Lemma replace_all_star (s : string) :
  replace_all r tmpl s = star_between cond None s.
Proof. apply (replace_from_star (String.length s)). lia. Qed.

End StarBetween.

Section Adjacency.

Import Text.

Variables p q : ascii -> bool.
Hypothesis p_star : p "*"%char = false.
Hypothesis q_star : q "*"%char = false.

Variable cond : option ascii -> ascii -> ascii -> bool.

Local Abbreviation head_in := (Text.head_in q).

Lemma adjacent_cons (a : ascii) (s : string) :
  adjacent p q (String a s) = (p a && head_in s) || adjacent p q s.
Proof.
  destruct s as [|b s]; cbn [adjacent Text.head_in].
  - rewrite andb_false_r. reflexivity.
  - reflexivity.
Qed.

Lemma head_star_between (prev : option ascii) (s : string) :
  head_in (star_between cond prev s) = head_in s.
Proof.
  destruct s as [|a [|b s]]; cbn [star_between Text.head_in]; try reflexivity.
  destruct (cond prev a b); reflexivity.
Qed.

Lemma star_between_eq (prev : option ascii) (a b : ascii) (s2 : string) :
  star_between cond prev (String a (String b s2))
  = if cond prev a b
    then String a (String "*" (String b (star_between cond (Some b) s2)))
    else String a (star_between cond (Some a) (String b s2)).
Proof. reflexivity. Qed.

(** Putting [*] between characters makes no new pair. *)
Lemma star_between_preserves (n : nat) :
  forall s prev,
    (String.length s <= n)%nat ->
    adjacent p q s = false ->
    adjacent p q (star_between cond prev s) = false.
Proof.
  induction n as [|n IH]; intros s prev L A.
  - destruct s; [reflexivity|cbn in L; lia].
  - destruct s as [|a [|b s2]]; try reflexivity.
    cbn [String.length] in L.
    rewrite adjacent_cons in A. apply orb_false_iff in A. destruct A as [A1 A2].
    rewrite star_between_eq. destruct (cond prev a b).
    + rewrite !adjacent_cons, (head_star_between (Some b) s2). cbn [Text.head_in].
      rewrite p_star, q_star, andb_false_r. cbn [andb orb].
      rewrite adjacent_cons in A2. apply orb_false_iff in A2.
      destruct A2 as [A3 A4]. rewrite A3. cbn [orb].
      apply IH; [lia|exact A4].
    + rewrite adjacent_cons, (head_star_between (Some a) (String b s2)), A1.
      cbn [orb].
      apply IH; [cbn [String.length]; lia|exact A2].
Qed.

Hypothesis disjoint : forall c, p c = true -> q c = true -> False.
Hypothesis cond_pairs : forall prev a b, cond prev a b = p a && q b.

(** A replacement for every pair leaves none. *)
Lemma star_between_clears (n : nat) :
  forall s prev,
    (String.length s <= n)%nat ->
    adjacent p q (star_between cond prev s) = false.
Proof.
  induction n as [|n IH]; intros s prev L.
  - destruct s; [reflexivity|cbn in L; lia].
  - destruct s as [|a [|b s2]]; try reflexivity.
    cbn [String.length] in L.
    rewrite star_between_eq. destruct (cond prev a b) eqn:C.
    + rewrite !adjacent_cons, (head_star_between (Some b) s2). cbn [Text.head_in].
      rewrite p_star, q_star, andb_false_r. cbn [andb orb].
      rewrite cond_pairs in C. apply andb_prop in C. destruct C as [_ Qb].
      destruct (p b) eqn:Pb; [destruct (disjoint b Pb Qb)|].
      cbn [andb orb]. apply IH. lia.
    + rewrite adjacent_cons, (head_star_between (Some a) (String b s2)).
      cbn [Text.head_in].
      rewrite <- (cond_pairs prev a b), C. cbn [orb].
      apply IH. cbn [String.length]. lia.
Qed.

End Adjacency.

Section Passes.

Import Re Normalizer Text.

Lemma one_more (n : nat) : (S n - n = 1)%nat.
Proof. lia. Qed.

Lemma expand_one (a : ascii) :
  expand "$1*(" [String a EmptyString]
  = String a (String "*" (String "(" EmptyString)).
Proof. reflexivity. Qed.

Lemma expand_two (a b : ascii) :
  expand "$1*$2" [String a EmptyString; String b EmptyString]
  = String a (String "*" (String b EmptyString)).
Proof. reflexivity. Qed.

Lemma expand_after (b : ascii) :
  expand ")*$1" [String b EmptyString]
  = String ")" (String "*" (String b EmptyString)).
Proof. reflexivity. Qed.

Lemma eqb_char (a b : ascii) : Ascii.eqb a b = true -> a = b.
Proof. apply Ascii.eqb_eq. Qed.

(** [/(\d)([a-z])/g] to [$1*$2] *)
Lemma digit_letter_star (s : string) :
  replace_all digit_letter_re "$1*$2" s
  = star_between (fun _ a b => Chars.is_digit a && Chars.is_lower b) None s.
Proof.
  apply replace_all_star.
  - intros prev a b rest C. apply andb_prop in C. destruct C as [Ca Cb].
    exists [String a EmptyString; String b EmptyString].
    split; [|apply expand_two].
    unfold match_at, digit_letter_re. cbn [run]. rewrite Ca, Cb.
    cbn [String.length app]. rewrite !one_more. reflexivity.
  - reflexivity.
  - intros prev a. unfold match_at, digit_letter_re. cbn [run].
    destruct (Chars.is_digit a); reflexivity.
  - intros prev a b rest C. unfold match_at, digit_letter_re. cbn [run].
    destruct (Chars.is_digit a); [|reflexivity].
    cbn [andb] in C. rewrite C. reflexivity.
Qed.

(** [/\)([a-z])/g] to [)*$1] *)
Lemma rparen_letter_star (s : string) :
  replace_all rparen_letter_re ")*$1" s
  = star_between (fun _ a b => is_rparen a && Chars.is_lower b) None s.
Proof.
  apply replace_all_star.
  - intros prev a b rest C. apply andb_prop in C. destruct C as [Ca Cb].
    exists [String b EmptyString].
    unfold is_rparen in Ca. rewrite Ascii.eqb_sym in Ca.
    split; [|rewrite <- (eqb_char _ _ Ca); apply expand_after].
    unfold match_at, rparen_letter_re. cbn [run]. rewrite Ca, Cb.
    cbn [String.length app]. rewrite !one_more. reflexivity.
  - reflexivity.
  - intros prev a. unfold match_at, rparen_letter_re. cbn [run].
    destruct (Ascii.eqb ")" a); reflexivity.
  - intros prev a b rest C. unfold match_at, rparen_letter_re. cbn [run].
    unfold is_rparen in C. rewrite Ascii.eqb_sym in C.
    destruct (Ascii.eqb ")" a); [|reflexivity].
    cbn [andb] in C. rewrite C. reflexivity.
Qed.

(** [/(\d)\(/g] to [$1*(] *)
Lemma digit_lparen_star (s : string) :
  replace_all digit_lparen_re "$1*(" s
  = star_between (fun _ a b => Chars.is_digit a && is_lparen b) None s.
Proof.
  apply replace_all_star.
  - intros prev a b rest C. apply andb_prop in C. destruct C as [Ca Cb].
    exists [String a EmptyString].
    unfold is_lparen in Cb. rewrite Ascii.eqb_sym in Cb.
    split; [|rewrite <- (eqb_char _ _ Cb); apply expand_one].
    unfold match_at, digit_lparen_re. cbn [run]. rewrite Ca, Cb.
    cbn [String.length app]. rewrite !one_more. reflexivity.
  - reflexivity.
  - intros prev a. unfold match_at, digit_lparen_re. cbn [run].
    destruct (Chars.is_digit a); reflexivity.
  - intros prev a b rest C. unfold match_at, digit_lparen_re. cbn [run].
    unfold is_lparen in C. rewrite Ascii.eqb_sym in C.
    destruct (Chars.is_digit a); [|reflexivity].
    cbn [andb] in C. rewrite C. reflexivity.
Qed.

(** [/\)(\d)/g] to [)*$1] *)
Lemma rparen_digit_star (s : string) :
  replace_all rparen_digit_re ")*$1" s
  = star_between (fun _ a b => is_rparen a && Chars.is_digit b) None s.
Proof.
  apply replace_all_star.
  - intros prev a b rest C. apply andb_prop in C. destruct C as [Ca Cb].
    exists [String b EmptyString].
    unfold is_rparen in Ca. rewrite Ascii.eqb_sym in Ca.
    split; [|rewrite <- (eqb_char _ _ Ca); apply expand_after].
    unfold match_at, rparen_digit_re. cbn [run]. rewrite Ca, Cb.
    cbn [String.length app]. rewrite !one_more. reflexivity.
  - reflexivity.
  - intros prev a. unfold match_at, rparen_digit_re. cbn [run].
    destruct (Ascii.eqb ")" a); reflexivity.
  - intros prev a b rest C. unfold match_at, rparen_digit_re. cbn [run].
    unfold is_rparen in C. rewrite Ascii.eqb_sym in C.
    destruct (Ascii.eqb ")" a); [|reflexivity].
    cbn [andb] in C. rewrite C. reflexivity.
Qed.

(** [/\b([a-z])\(/g] to [$1*(] *)
Lemma variable_lparen_star (s : string) :
  replace_all variable_lparen_re "$1*(" s
  = star_between
      (fun prev a b => xorb (word_before prev) (Chars.is_word a)
                       && Chars.is_lower a && is_lparen b) None s.
Proof.
  apply replace_all_star.
  - intros prev a b rest C. apply andb_prop in C. destruct C as [C Cb].
    apply andb_prop in C. destruct C as [Cw Ca].
    exists [String a EmptyString].
    unfold is_lparen in Cb. rewrite Ascii.eqb_sym in Cb.
    split; [|rewrite <- (eqb_char _ _ Cb); apply expand_one].
    unfold match_at, variable_lparen_re. cbn [run word_after].
    rewrite Cw, Ca, Cb.
    cbn [String.length app]. rewrite !one_more. reflexivity.
  - intros prev. unfold match_at, variable_lparen_re. cbn [run word_after].
    destruct (xorb (word_before prev) false); reflexivity.
  - intros prev a. unfold match_at, variable_lparen_re. cbn [run word_after].
    destruct (xorb (word_before prev) (Chars.is_word a)); [|reflexivity].
    destruct (Chars.is_lower a); reflexivity.
  - intros prev a b rest C. unfold match_at, variable_lparen_re.
    cbn [run word_after]. unfold is_lparen in C. rewrite Ascii.eqb_sym in C.
    destruct (xorb (word_before prev) (Chars.is_word a)); [|reflexivity].
    destruct (Chars.is_lower a); [|reflexivity].
    cbn [andb] in C. rewrite C. reflexivity.
Qed.

End Passes.

Section Normalized.

Import Re Normalizer Text.

Lemma star_not_digit : Chars.is_digit "*"%char = false.
Proof. reflexivity. Qed.
Lemma star_not_lower : Chars.is_lower "*"%char = false.
Proof. reflexivity. Qed.
Lemma star_not_lparen : is_lparen "*"%char = false.
Proof. reflexivity. Qed.
Lemma star_not_rparen : is_rparen "*"%char = false.
Proof. reflexivity. Qed.

Lemma between_both (lo hi lo' hi' : N) (c : ascii) :
  (hi < lo')%N ->
  Chars.between lo hi c = true -> Chars.between lo' hi' c = true -> False.
Proof.
  unfold Chars.between. intros H A B.
  apply andb_prop in A. apply andb_prop in B.
  destruct A as [_ A], B as [B _].
  apply N.leb_le in A. apply N.leb_le in B. lia.
Qed.

Lemma digit_not_lower c :
  Chars.is_digit c = true -> Chars.is_lower c = true -> False.
Proof. apply between_both. reflexivity. Qed.

Lemma digit_not_lparen c :
  Chars.is_digit c = true -> is_lparen c = true -> False.
Proof.
  intros D P. apply Ascii.eqb_eq in P. subst c. vm_compute in D. discriminate.
Qed.

Lemma rparen_not_lower c :
  is_rparen c = true -> Chars.is_lower c = true -> False.
Proof.
  intros P D. apply Ascii.eqb_eq in P. subst c. vm_compute in D. discriminate.
Qed.

Lemma rparen_not_digit c :
  is_rparen c = true -> Chars.is_digit c = true -> False.
Proof.
  intros P D. apply Ascii.eqb_eq in P. subst c. vm_compute in D. discriminate.
Qed.

Lemma implicit_multiplication_pairs (s : string) :
  let text := implicit_multiplication s in
  adjacent Chars.is_digit Chars.is_lower text = false
  /\ adjacent is_rparen Chars.is_lower text = false
  /\ adjacent Chars.is_digit is_lparen text = false
  /\ adjacent is_rparen Chars.is_digit text = false.
Proof.
  unfold implicit_multiplication. cbv zeta.
  rewrite digit_letter_star.
  set (s1 := star_between _ None s).
  rewrite rparen_letter_star.
  set (s2 := star_between _ None s1).
  rewrite digit_lparen_star.
  set (s3 := star_between _ None s2).
  rewrite rparen_digit_star.
  set (s4 := star_between _ None s3).
  rewrite variable_lparen_star.
  set (s5 := star_between _ None s4).
  assert (P1 : adjacent Chars.is_digit Chars.is_lower s1 = false).
  { apply (star_between_clears _ _ star_not_digit star_not_lower _
             digit_not_lower (fun _ _ _ => eq_refl) (String.length s)). lia. }
  assert (P2 : adjacent is_rparen Chars.is_lower s2 = false).
  { apply (star_between_clears _ _ star_not_rparen star_not_lower _
             rparen_not_lower (fun _ _ _ => eq_refl) (String.length s1)). lia. }
  assert (P3 : adjacent Chars.is_digit is_lparen s3 = false).
  { apply (star_between_clears _ _ star_not_digit star_not_lparen _
             digit_not_lparen (fun _ _ _ => eq_refl) (String.length s2)). lia. }
  assert (P4 : adjacent is_rparen Chars.is_digit s4 = false).
  { apply (star_between_clears _ _ star_not_rparen star_not_digit _
             rparen_not_digit (fun _ _ _ => eq_refl) (String.length s3)). lia. }
  assert (keep : forall p q cond t,
             p "*"%char = false -> q "*"%char = false ->
             adjacent p q t = false ->
             adjacent p q (star_between cond None t) = false).
  { intros p q cond t Hp Hq A.
    apply (star_between_preserves p q Hp Hq cond (String.length t)); [lia|].
    exact A. }
  split; [|split; [|split]].
  - do 4 (apply keep; [reflexivity|reflexivity|]). exact P1.
  - do 3 (apply keep; [reflexivity|reflexivity|]). exact P2.
  - do 2 (apply keep; [reflexivity|reflexivity|]). exact P3.
  - apply keep; [reflexivity|reflexivity|]. exact P4.
Qed.

Lemma starts_with_cons (c : ascii) (p s : string) :
  Str.starts_with (String c p) s = true ->
  exists s', s = String c s' /\ Str.starts_with p s' = true.
Proof.
  destruct s as [|d s]; cbn [Str.starts_with]; [discriminate|].
  intros H. apply andb_prop in H. destruct H as [E H].
  apply Ascii.eqb_eq in E. subst d. exists s. split; [reflexivity|exact H].
Qed.

Lemma starts_with_log10 (s : string) :
  Str.starts_with "Math.log10(" s = true ->
  adjacent Chars.is_digit is_lparen s = true.
Proof.
  intros H.
  do 11 (apply starts_with_cons in H; destruct H as (? & -> & H)).
  rewrite !(adjacent_cons Chars.is_digit is_lparen).
  reflexivity.
Qed.

Lemma includes_log10 (s : string) :
  Str.includes "Math.log10(" s = true ->
  adjacent Chars.is_digit is_lparen s = true.
Proof.
  induction s as [|c s IH].
  - cbn. discriminate.
  - change (Str.includes "Math.log10(" (String c s))
      with (Str.starts_with "Math.log10(" (String c s)
            || Str.includes "Math.log10(" s).
    intros H. apply orb_prop in H. destruct H as [H|H].
    + apply starts_with_log10. exact H.
    + rewrite adjacent_cons, (IH H). apply orb_true_r.
Qed.

End Normalized.

(** [parse], lines 99 to 106. Whatever the expression, the text handed to
    the engine has no digit followed at once by a lower case letter, no
    closing parenthesis followed at once by a lower case letter, no digit
    followed at once by an opening parenthesis and no closing parenthesis
    followed at once by a digit: a [*] stands between them. *)
Theorem implicit_multiplication_complete (expression : string) :
  let text := Normalizer.normalize expression in
  Text.adjacent Chars.is_digit Chars.is_lower text = false
  /\ Text.adjacent Text.is_rparen Chars.is_lower text = false
  /\ Text.adjacent Chars.is_digit Text.is_lparen text = false
  /\ Text.adjacent Text.is_rparen Chars.is_digit text = false.
Proof.
  unfold Normalizer.normalize. cbv zeta.
  apply implicit_multiplication_pairs.
Qed.

(** [parse], lines 71 and 72 with line 102. The replacement of [log(] by
    [Math.log10(] does not survive the rewriting: the [0] and the
    parenthesis are a digit before a parenthesis, so that the text handed
    to the engine never holds a call of [Math.log10]; the logarithm of the
    parameter becomes the product of that function and the parameter, which
    is not a number, and [log(x)] is refused on every host. *)
Theorem log10_never_called :
  (forall expression,
      Str.includes "Math.log10(" (Normalizer.normalize expression) = false)
  /\ Normalizer.normalize "log(x)" = "Math.log10*(x)"
  /\ forall host bound, parse host bound "log(x)" = Err NoValidResult.
Proof.
  split; [|split].
  - intros expression.
    destruct (Str.includes "Math.log10(" (Normalizer.normalize expression))
      eqn:I; [|reflexivity].
    apply includes_log10 in I.
    destruct (implicit_multiplication_pairs
                (fold_left Normalizer.replace_function Normalizer.functions
                   (fold_left Normalizer.replace_constant Normalizer.constants
                      (Re.replace_all Normalizer.caret_re "**"
                         (Str.toLowerCase expression)))))
      as (_ & _ & P & _).
    cbv zeta in P. unfold Normalizer.normalize in I. cbv zeta in I.
    rewrite P in I. discriminate.
  - vm_compute. reflexivity.
  - intros host bound. vm_compute. reflexivity.
Qed.

(* ------------------------------------------------------------------ *)
(** * [analyzeFunction]: the report                                     *)
(* ------------------------------------------------------------------ *)

Lemma isFunction_true (func : jsfun) : FunctionAnalyzer.isFunction func = true.
Proof.
  unfold FunctionAnalyzer.isFunction, FunctionAnalyzer.isFunction_points.
  cbn [FunctionAnalyzer.isFunction_loop].
  rewrite !evaluate_is_number. reflexivity.
Qed.

Lemma analyzeDomain_total (func : jsfun) (expression : string) :
  exists d, FunctionAnalyzer.analyzeDomain func expression = Some d.
Proof.
  unfold FunctionAnalyzer.analyzeDomain.
  destruct (FunctionAnalyzer.domain_pattern expression) as [d|].
  - exists d. reflexivity.
  - rewrite domain_sampling_eq. eexists. reflexivity.
Qed.

Lemma properties_spec (even odd oneToOne : bool) :
  let l := FunctionAnalyzer.properties even odd oneToOne in
  l <> []
  /\ (In "Even"%string l <-> even = true)
  /\ (In "Odd"%string l <-> odd = true)
  /\ (In "One-to-One"%string l <-> oneToOne = true)
  /\ (In "Neither Even nor Odd"%string l <-> even = false /\ odd = false).
Proof.
  destruct even, odd, oneToOne; cbv zeta; cbn;
    (split; [discriminate|]);
    repeat split; intros; try discriminate;
    repeat match goal with
           | H : _ \/ _ |- _ => destruct H
           | H : _ /\ _ |- _ => destruct H
           | H : False |- _ => destruct H
           end;
    try discriminate; auto.
Qed.

Lemma report_fields (even odd oneToOne : bool)
      (d : FunctionAnalyzer.domain) (r : FunctionAnalyzer.range) :
  let a := {| FunctionAnalyzer.a_isFunction := true;
              FunctionAnalyzer.a_isOdd := Some odd;
              FunctionAnalyzer.a_isEven := Some even;
              FunctionAnalyzer.a_isOneToOne := Some oneToOne;
              FunctionAnalyzer.a_domain := Some d;
              FunctionAnalyzer.a_range := Some r;
              FunctionAnalyzer.a_properties :=
                FunctionAnalyzer.properties even odd oneToOne |} in
  FunctionAnalyzer.a_isFunction a = true
  /\ FunctionAnalyzer.a_isEven a = Some even
  /\ FunctionAnalyzer.a_isOdd a = Some odd
  /\ FunctionAnalyzer.a_isOneToOne a = Some oneToOne
  /\ FunctionAnalyzer.a_domain a = Some d
  /\ FunctionAnalyzer.a_range a = Some r
  /\ FunctionAnalyzer.a_properties a <> []
  /\ (In "Even"%string (FunctionAnalyzer.a_properties a)
      <-> FunctionAnalyzer.a_isEven a = Some true)
  /\ (In "Odd"%string (FunctionAnalyzer.a_properties a)
      <-> FunctionAnalyzer.a_isOdd a = Some true)
  /\ (In "One-to-One"%string (FunctionAnalyzer.a_properties a)
      <-> FunctionAnalyzer.a_isOneToOne a = Some true)
  /\ (In "Neither Even nor Odd"%string (FunctionAnalyzer.a_properties a)
      <-> FunctionAnalyzer.a_isEven a = Some false
          /\ FunctionAnalyzer.a_isOdd a = Some false).
Proof.
  cbv zeta.
  cbv beta iota delta [FunctionAnalyzer.a_isFunction FunctionAnalyzer.a_isEven
                       FunctionAnalyzer.a_isOdd FunctionAnalyzer.a_isOneToOne
                       FunctionAnalyzer.a_domain FunctionAnalyzer.a_range
                       FunctionAnalyzer.a_properties].
  destruct (properties_spec even odd oneToOne) as (P0 & P1 & P2 & P3 & P4).
  cbv zeta in P0, P1, P2, P3, P4.
  split; [reflexivity|]. split; [reflexivity|]. split; [reflexivity|].
  split; [reflexivity|]. split; [reflexivity|]. split; [reflexivity|].
  split; [exact P0|].
  split; [rewrite P1; split; [intros ->; reflexivity|intros H; injection H; auto]|].
  split; [rewrite P2; split; [intros ->; reflexivity|intros H; injection H; auto]|].
  split; [rewrite P3; split; [intros ->; reflexivity|intros H; injection H; auto]|].
  rewrite P4. split.
  - intros [-> ->]. split; reflexivity.
  - intros [H1 H2]. injection H1. injection H2. auto.
Qed.

(** [analyzeFunction], lines 186 to 227. The report is always made: the
    sampling loops end, whatever the function. It holds the answers of
    [checkSymmetry], [isOneToOne], [analyzeDomain] and [analyzeRange]; its
    list of properties is never empty, names [Even], [Odd] and [One-to-One]
    exactly when the flag is set, and [Neither Even nor Odd] exactly when
    the function is reported neither even nor odd. *)
Theorem analyzeFunction_total (func : jsfun) (expression : string) :
  exists a oneToOne d r,
    FunctionAnalyzer.analyzeFunction func expression = Some a
    /\ FunctionAnalyzer.isOneToOne func = Some oneToOne
    /\ FunctionAnalyzer.analyzeDomain func expression = Some d
    /\ FunctionAnalyzer.analyzeRange func = Some r
    /\ FunctionAnalyzer.a_isFunction a = true
    /\ FunctionAnalyzer.a_isEven a
       = Some (FunctionAnalyzer.isEven (FunctionAnalyzer.checkSymmetry func))
    /\ FunctionAnalyzer.a_isOdd a
       = Some (FunctionAnalyzer.isOdd (FunctionAnalyzer.checkSymmetry func))
    /\ FunctionAnalyzer.a_isOneToOne a = Some oneToOne
    /\ FunctionAnalyzer.a_domain a = Some d
    /\ FunctionAnalyzer.a_range a = Some r
    /\ FunctionAnalyzer.a_properties a <> []
    /\ (In "Even"%string (FunctionAnalyzer.a_properties a)
        <-> FunctionAnalyzer.a_isEven a = Some true)
    /\ (In "Odd"%string (FunctionAnalyzer.a_properties a)
        <-> FunctionAnalyzer.a_isOdd a = Some true)
    /\ (In "One-to-One"%string (FunctionAnalyzer.a_properties a)
        <-> FunctionAnalyzer.a_isOneToOne a = Some true)
    /\ (In "Neither Even nor Odd"%string (FunctionAnalyzer.a_properties a)
        <-> FunctionAnalyzer.a_isEven a = Some false
            /\ FunctionAnalyzer.a_isOdd a = Some false).
Proof.
  destruct (analyzeDomain_total func expression) as (d & D).
  assert (I : exists o, FunctionAnalyzer.isOneToOne func = Some o)
    by (eexists; apply isOneToOne_eq).
  assert (R : exists r, FunctionAnalyzer.analyzeRange func = Some r)
    by (eexists; apply analyzeRange_eq).
  destruct I as (oneToOne & I). destruct R as (r & R).
  eexists _, oneToOne, d, r.
  split.
  { unfold FunctionAnalyzer.analyzeFunction.
    rewrite isFunction_true, I, D, R. reflexivity. }
  split; [exact I|]. split; [exact D|]. split; [exact R|].
  exact (report_fields
           (FunctionAnalyzer.isEven (FunctionAnalyzer.checkSymmetry func))
           (FunctionAnalyzer.isOdd (FunctionAnalyzer.checkSymmetry func))
           oneToOne d r).
Qed.

(* ------------------------------------------------------------------ *)
(** * [analyzeDomain]: the rules on the text                            *)
(* ------------------------------------------------------------------ *)

Section LiteralPatterns.

Import Re.

(** A pattern that is a plain text matches where the text starts. *)
Lemma run_text {A : Type} (w : string) :
  forall prev s caps (k : option ascii -> string -> list string -> option A),
    Str.starts_with w s = false -> run (text w) prev s caps k = None.
Proof.
  unfold text. induction w as [|c w IH]; intros prev s caps k H.
  - destruct s; discriminate.
  - destruct s as [|d s]; cbn [word run]; [reflexivity|].
    cbn [Str.starts_with] in H. destruct (Ascii.eqb c d); [|reflexivity].
    apply IH. exact H.
Qed.

Lemma run_text_some (w : string) :
  forall prev s,
    Str.starts_with w s = true -> match_at (text w) prev s <> None.
Proof.
  unfold match_at, text. induction w as [|c w IH]; intros prev s H.
  - cbn [word run]. discriminate.
  - destruct s as [|d s]; [discriminate|]. cbn [word run].
    cbn [Str.starts_with] in H. apply andb_prop in H. destruct H as [E H].
    rewrite E. apply IH. exact H.
Qed.

Lemma search_text (w : string) (s : string) :
  forall prev, search_from (text w) prev s = Str.includes w s.
Proof.
  induction s as [|c s IH]; intros prev.
  - cbn [search_from Str.includes].
    destruct (Str.starts_with w EmptyString) eqn:E.
    + destruct (match_at (text w) prev EmptyString) eqn:M; [reflexivity|].
      destruct (run_text_some w prev EmptyString E M).
    + unfold match_at. rewrite run_text by exact E. reflexivity.
  - change (search_from (text w) prev (String c s))
      with (match match_at (text w) prev (String c s) with
            | Some _ => true
            | None => search_from (text w) (Some c) s
            end).
    change (Str.includes w (String c s))
      with (Str.starts_with w (String c s) || Str.includes w s).
    destruct (Str.starts_with w (String c s)) eqn:E.
    + destruct (match_at (text w) prev (String c s)) eqn:M; [reflexivity|].
      destruct (run_text_some w prev (String c s) E M).
    + unfold match_at. rewrite run_text by exact E. apply IH.
Qed.

Lemma test_text (w s : string) : test (text w) s = Str.includes w s.
Proof. apply search_text. Qed.

End LiteralPatterns.

Lemma starts_with_longer (p q s : string) :
  Str.starts_with (p ++ q) s = true -> Str.starts_with p s = true.
Proof.
  revert s. induction p as [|c p IH]; intros s; [reflexivity|].
  destruct s as [|d s]; cbn [append Str.starts_with]; [discriminate|].
  intros H. apply andb_prop in H. destruct H as [E H].
  rewrite E. apply IH. exact H.
Qed.

Lemma includes_longer (p q s : string) :
  Str.includes (p ++ q) s = true -> Str.includes p s = true.
Proof.
  induction s as [|c s IH].
  - cbn [Str.includes]. rewrite !orb_false_r. apply starts_with_longer.
  - change (Str.includes (p ++ q) (String c s))
      with (Str.starts_with (p ++ q) (String c s) || Str.includes (p ++ q) s).
    change (Str.includes p (String c s))
      with (Str.starts_with p (String c s) || Str.includes p s).
    intros H. apply orb_prop in H. destruct H as [H|H].
    + rewrite (starts_with_longer _ _ _ H). reflexivity.
    + rewrite (IH H). apply orb_true_r.
Qed.

(** [analyzeDomain], lines 336 to 343. An expression whose text holds
    [sqrt(x)], in either case of the letters, has the domain "x >= 0"
    whatever the function is and whatever else the expression holds. *)
Theorem analyzeDomain_root_first (func : jsfun) (expression : string) :
  Str.includes "sqrt(x)" (Str.toLowerCase expression) = true ->
  FunctionAnalyzer.analyzeDomain func expression
  = Some FunctionAnalyzer.NonNegative.
Proof.
  intros H. unfold FunctionAnalyzer.analyzeDomain,
              FunctionAnalyzer.domain_pattern.
  cbv zeta. unfold FunctionAnalyzer.sqrt_x_re.
  rewrite test_text, H.
  rewrite (includes_longer "sqrt(" "x)" _ H). reflexivity.
Qed.

Lemma analyzeDomain_root_first_witness :
  let func :=
    generated Reference.host
      (Ast.Bin Ast.Div (Ast.Lit 1) (Ast.Call1 (Ast.Member Js.Msqrt) Ast.Var)) in
  (parse Reference.host Reference.nothing_bound "1/SQRT(x)" = Ok func
   /\ Num.isFinite (evaluate_number func 0) = false
   /\ Str.includes "sqrt(x)" (Str.toLowerCase "1/SQRT(x)") = true)
  /\ FunctionAnalyzer.analyzeDomain func "1/SQRT(x)"
     = Some FunctionAnalyzer.NonNegative.
Proof.
  cbv zeta.
  assert (H : Str.includes "sqrt(x)" (Str.toLowerCase "1/SQRT(x)") = true)
    by reflexivity.
  split.
  - split; [vm_compute; reflexivity|]. split; [vm_compute; reflexivity|exact H].
  - exact (analyzeDomain_root_first _ "1/SQRT(x)" H).
Defined.

Lemma analyzeDomain_all_reals (func : jsfun) (expression : string) :
  FunctionAnalyzer.domain_pattern expression = None ->
  Conditions.finite_on func Samples.domain_points = true ->
  FunctionAnalyzer.analyzeDomain func expression
  = Some FunctionAnalyzer.AllReals.
Proof.
  intros P F. unfold FunctionAnalyzer.analyzeDomain. rewrite P.
  rewrite domain_sampling_eq. f_equal. apply domain_all_reals.
  apply (domain_fold func Samples.domain_points []). split; [reflexivity|].
  exact F.
Qed.

Lemma poles_missed (host : MathHost) :
  forallb
    (fun n =>
       let k := (Z.of_nat n - 19)%Z in
       (k =? 9)%Z
       || (negb (Num.isFinite
                   (evaluate_number (Compiled.pole_at host k) (Num.of_Z k)))
           && Conditions.finite_on (Compiled.pole_at host k)
                                   Samples.domain_points))
    (seq 0 40) = true.
Proof. vm_compute. reflexivity. Qed.

(** [analyzeDomain], lines 370 to 394. The sweep misses the poles at the
    integers: for [1/(x-k)] with [k] an integer of the interval swept,
    other than [-20] and [9], every abscissa visited gives a finite value,
    and the domain returned is "All real numbers". *)
Theorem analyzeDomain_misses_poles (host : MathHost) (expression : string)
        (k : Z) :
  FunctionAnalyzer.domain_pattern expression = None ->
  (-20 < k <= 20)%Z -> k <> 9%Z ->
  Num.isFinite (evaluate_number (Compiled.pole_at host k) (Num.of_Z k)) = false
  /\ FunctionAnalyzer.analyzeDomain (Compiled.pole_at host k) expression
     = Some FunctionAnalyzer.AllReals.
Proof.
  intros P B N.
  pose proof (poles_missed host) as H. rewrite forallb_forall in H.
  specialize (H (Z.to_nat (k + 19))).
  assert (I : In (Z.to_nat (k + 19)) (seq 0 40)) by (apply in_seq; lia).
  specialize (H I). cbv zeta in H.
  replace (Z.of_nat (Z.to_nat (k + 19)) - 19)%Z with k in H by lia.
  apply orb_prop in H. destruct H as [H|H]; [apply Z.eqb_eq in H; contradiction|].
  apply andb_prop in H. destruct H as [H1 H2].
  apply negb_true_iff in H1. split; [exact H1|].
  apply analyzeDomain_all_reals; assumption.
Qed.

Lemma analyzeDomain_misses_poles_witness :
  (parse Reference.host Reference.nothing_bound "1/(x-1)"
   = Ok (Compiled.pole_at Reference.host 1)
   /\ FunctionAnalyzer.domain_pattern "1/(x-1)" = None
   /\ (-20 < 1 <= 20)%Z /\ 1%Z <> 9%Z)
  /\ Num.isFinite (evaluate_number (Compiled.pole_at Reference.host 1)
                                   (Num.of_Z 1)) = false
  /\ FunctionAnalyzer.analyzeDomain (Compiled.pole_at Reference.host 1)
                                    "1/(x-1)"
     = Some FunctionAnalyzer.AllReals.
Proof.
  assert (P : FunctionAnalyzer.domain_pattern "1/(x-1)" = None)
    by (vm_compute; reflexivity).
  assert (B : (-20 < 1 <= 20)%Z) by lia.
  assert (N : 1%Z <> 9%Z) by lia.
  split.
  - split; [vm_compute; reflexivity|]. split; [exact P|]. split; [exact B|exact N].
  - exact (analyzeDomain_misses_poles Reference.host "1/(x-1)" 1 P B N).
Defined.

(* ------------------------------------------------------------------ *)
(** * [updateFunction]                                                  *)
(* ------------------------------------------------------------------ *)

Section TrimFacts.

Import Page.

Lemma trim_start_head (s : string) :
  trim_start s = EmptyString
  \/ exists c t, trim_start s = String c t /\ Chars.is_space c = false.
Proof.
  induction s as [|c s IH]; cbn [trim_start]; [left; reflexivity|].
  destruct (Chars.is_space c) eqn:E; [exact IH|].
  right. exists c, s. split; [reflexivity|exact E].
Qed.

Lemma trim_end_head (c : ascii) (s : string) :
  Chars.is_space c = false ->
  exists t, trim_end (String c s) = String c t.
Proof.
  intros E. cbn [trim_end]. destruct (trim_end s).
  - rewrite E. exists EmptyString. reflexivity.
  - eexists. reflexivity.
Qed.

(** What [trim] leaves is empty or starts with a character that is not
    white space. *)
Lemma trim_head (s : string) :
  trim s = EmptyString
  \/ exists c t, trim s = String c t /\ Chars.is_space c = false.
Proof.
  unfold trim. destruct (trim_start_head s) as [->|(c & t & -> & E)].
  - left. reflexivity.
  - right. destruct (trim_end_head c t E) as (u & ->).
    exists c, u. split; [reflexivity|exact E].
Qed.

Lemma trim_not_blank (s : string) :
  trim s <> EmptyString -> Str.blank (trim s) = false.
Proof.
  intros N. destruct (trim_head s) as [E|(c & t & E & S)]; [contradiction|].
  rewrite E. unfold Str.blank. cbn [Str.all]. rewrite S. reflexivity.
Qed.

End TrimFacts.

Lemma parse_empty (host : MathHost) (bound : string -> bool)
      (expression : string) :
  parse host bound expression = Err EmptyExpression ->
  Str.blank expression = true.
Proof.
  unfold parse. destruct (Str.blank expression); [reflexivity|].
  destruct (negb (Normalizer.parens_balanced
                    (Normalizer.normalize expression))); [discriminate|].
  destruct (new_Function host bound (Normalizer.normalize expression))
    as [f| |]; try discriminate.
  destruct (hasValidResult f); discriminate.
Qed.

Section PageFacts.

Import Page.

Variables (host : MathHost) (bound : string -> bool).

(** What one call of [updateFunction] leaves, case by case. *)
Lemma updateFunction_cases (value : string) (p p' : page) :
  updateFunction host bound value p = Some p' ->
  (trim value = EmptyString
   /\ p' = hide_analysis (hideError (set_function None p)))
  \/ (trim value <> EmptyString
      /\ exists func a,
          parse host bound (trim value) = Ok func
          /\ FunctionAnalyzer.analyzeFunction func (trim value) = Some a
          /\ p' = showAnalysis a
                    (hideError (set_expression (trim value)
                                  (set_function (Some func) p))))
  \/ (trim value <> EmptyString
      /\ exists message,
          parse host bound (trim value) = Err message
          /\ p' = set_function None (showError message p)).
Proof.
  unfold updateFunction. cbv zeta.
  destruct (String.eqb_spec (trim value) "") as [E|E].
  - intros H. left. split; [exact E|].
    exact (f_equal (fun o => match o with Some q => q | None => p' end)
                   (eq_sym H)).
  - destruct (parse host bound (trim value)) as [func|message|].
    + destruct (FunctionAnalyzer.analyzeFunction func (trim value)) as [a|]
        eqn:A; [|discriminate].
      intros H. right. left. split; [exact E|]. exists func, a.
      split; [reflexivity|]. split; [exact A|].
      exact (f_equal (fun o => match o with Some q => q | None => p' end)
                     (eq_sym H)).
    + intros H. right. right. split; [exact E|]. exists message.
      split; [reflexivity|].
      exact (f_equal (fun o => match o with Some q => q | None => p' end)
                     (eq_sym H)).
    + discriminate.
Qed.

End PageFacts.

(** [updateFunction], lines 610 to 636. After a call that read [value]
    from the input field, where [value] is blank or an expression of the
    fragment:
    - an error is shown exactly when the trimmed text is not empty and no
      function is current; the error is the one [parse] threw for the
      trimmed text, and it is never "Expression cannot be empty";
    - the report is shown exactly when a function is current, and the
      place holder exactly when the report is not;
    - a current function is the one [parse] returns for
      [currentExpression], which is the trimmed text, and the report is
      the one [analyzeFunction] makes of them;
    - without a current function, [currentExpression] is left as it was;
    - a second call with the same text changes nothing. *)
Theorem updateFunction_spec (host : MathHost) (bound : string -> bool)
        (value : string) (p p' : Page.page) :
  Page.updateFunction host bound value p = Some p' ->
  (Page.errorShown p' = true
   <-> Page.trim value <> EmptyString /\ Page.currentFunction p' = None)
  /\ (Page.errorShown p' = true ->
      exists message,
        Page.errorText p' = Some message
        /\ parse host bound (Page.trim value) = Err message
        /\ message <> EmptyExpression)
  /\ (Page.analysisShown p' = true
      <-> exists func, Page.currentFunction p' = Some func)
  /\ Page.noAnalysisShown p' = negb (Page.analysisShown p')
  /\ (forall func,
         Page.currentFunction p' = Some func ->
         Page.currentExpression p' = Page.trim value
         /\ parse host bound (Page.currentExpression p') = Ok func
         /\ exists a,
             FunctionAnalyzer.analyzeFunction func (Page.currentExpression p')
             = Some a
             /\ Page.analysisContent p' = Some a)
  /\ (Page.currentFunction p' = None ->
      Page.currentExpression p' = Page.currentExpression p)
  /\ Page.updateFunction host bound value p' = Some p'.
Proof.
  intros H.
  destruct (updateFunction_cases host bound value p p' H)
    as [[E ->]|[(E & func & a & P & A & ->)|(E & message & P & ->)]].
  - split; [split; [discriminate|intros [N _]; contradiction]|].
    split; [discriminate|].
    split; [split; [discriminate|intros [f F]; discriminate]|].
    split; [reflexivity|]. split; [discriminate|]. split; [reflexivity|].
    unfold Page.updateFunction. cbv zeta. rewrite E. reflexivity.
  - split; [split; [discriminate|intros [_ N]; discriminate]|].
    split; [discriminate|].
    split; [split; [intros _; exists func; reflexivity|reflexivity]|].
    split; [reflexivity|].
    split.
    { intros f F. cbn in F. injection F as <-. cbn.
      split; [reflexivity|]. split; [exact P|]. exists a.
      split; [exact A|reflexivity]. }
    split; [discriminate|].
    unfold Page.updateFunction. cbv zeta.
    destruct (String.eqb_spec (Page.trim value) "") as [X|_];
      [contradiction|].
    rewrite P, A. reflexivity.
  - split; [split; [intros _; split; [exact E|reflexivity]|reflexivity]|].
    split.
    { intros _. exists message. split; [reflexivity|]. split; [exact P|].
      intros ->. apply parse_empty in P.
      rewrite (trim_not_blank value E) in P. discriminate. }
    split; [split; [discriminate|intros [f F]; discriminate]|].
    split; [reflexivity|]. split; [discriminate|]. split; [reflexivity|].
    unfold Page.updateFunction. cbv zeta.
    destruct (String.eqb_spec (Page.trim value) "") as [X|_];
      [contradiction|].
    rewrite P. reflexivity.
Qed.

Lemma updateFunction_spec_witness :
  let host := Reference.host in
  let bound := Reference.nothing_bound in
  let value := "  1/x "%string in
  let p := Page.initial false false true in
  exists p',
    Page.updateFunction host bound value p = Some p'
    /\ (Page.errorShown p' = true
        <-> Page.trim value <> EmptyString /\ Page.currentFunction p' = None)
    /\ (Page.errorShown p' = true ->
        exists message,
          Page.errorText p' = Some message
          /\ parse host bound (Page.trim value) = Err message
          /\ message <> EmptyExpression)
    /\ (Page.analysisShown p' = true
        <-> exists func, Page.currentFunction p' = Some func)
    /\ Page.noAnalysisShown p' = negb (Page.analysisShown p')
    /\ (forall func,
           Page.currentFunction p' = Some func ->
           Page.currentExpression p' = Page.trim value
           /\ parse host bound (Page.currentExpression p') = Ok func
           /\ exists a,
               FunctionAnalyzer.analyzeFunction func
                 (Page.currentExpression p') = Some a
               /\ Page.analysisContent p' = Some a)
    /\ (Page.currentFunction p' = None ->
        Page.currentExpression p' = Page.currentExpression p)
    /\ Page.updateFunction host bound value p' = Some p'.
Proof.
  cbv zeta.
  assert (E : exists p',
             Page.updateFunction Reference.host Reference.nothing_bound
               "  1/x " (Page.initial false false true) = Some p')
    by (vm_compute; eexists; reflexivity).
  destruct E as (p' & E). exists p'. split; [exact E|].
  exact (updateFunction_spec Reference.host Reference.nothing_bound
           "  1/x " (Page.initial false false true) p' E).
Defined.

(* ------------------------------------------------------------------ *)
(** * [render]: the path of the curve                                   *)
(* ------------------------------------------------------------------ *)

Section PlotFacts.

Import Plot Words.

Local Open Scope float_scope.

Variables (func : jsfun) (width height gridSize : float).

Local Abbreviation step := (plot_step func width height gridSize).
Local Abbreviation seen_ok := (visible func width height gridSize).
Local Abbreviation y_at := (canvas_y func width height gridSize).

Lemma follows_app_l {A : Type} (a b : A) (l m : list A) :
  follows a b l -> follows a b (l ++ m).
Proof.
  induction 1; cbn [app]; [apply follows_here|apply follows_later; assumption].
Qed.

Lemma follows_snoc {A : Type} (a b c : A) (l : list A) :
  follows a b (l ++ [c]) ->
  follows a b l \/ (exists l', l = l' ++ [a]) /\ b = c.
Proof.
  induction l as [|d l IH]; cbn [app]; intros H.
  - inversion H as [l0 E|c0 l0 F E]. inversion F.
  - inversion H as [l0 E|c0 l0 F E].
    + subst d. destruct l as [|e l]; cbn [app] in *.
      * right. split; [exists []; reflexivity|]. congruence.
      * left. replace e with b by congruence. constructor.
    + subst. destruct (IH F) as [G|[(l' & ->) ->]].
      * left. apply follows_later. exact G.
      * right. split; [exists (d :: l'); reflexivity|reflexivity].
Qed.

Lemma follows_last {A : Type} (a b : A) (l : list A) :
  follows a b (l ++ [a; b]).
Proof.
  induction l as [|c l IH]; cbn [app]; [constructor|].
  apply follows_later. exact IH.
Qed.

(** One step, case by case. *)
Lemma plot_step_cases (s : pen) (px : float) :
  (seen_ok px = false /\ step s px = lift s)
  \/ (seen_ok px = true
      /\ exists c,
          step s px = {| pathStarted := true;
                         prevY := Some (y_at px);
                         prevX := Some (logical_x width gridSize px);
                         path := path s ++ [c] |}
          /\ at_px c = px /\ at_py c = y_at px
          /\ (pathStarted s = false -> is_LineTo c = false)).
Proof.
  unfold plot_step, visible, canvas_y, logical_x. cbv zeta.
  destruct (Num.isNaN _ || negb (Num.isFinite _)); [left; split; reflexivity|].
  destruct ((_ <? - (height * 10)) || _); [left; split; reflexivity|].
  right. split; [reflexivity|].
  eexists. split; [reflexivity|].
  destruct (pathStarted s).
  - destruct (prevY s), (prevX s);
      repeat match goal with
             | |- context [if ?c then false else _] => destruct c
             end;
      repeat split; cbn; discriminate.
  - repeat split; destruct (prevY s), (prevX s); reflexivity.
Qed.

Local Abbreviation drawn_so_far :=
  (Plot.drawn_so_far func width height gridSize).

Lemma drawn_start : drawn_so_far pen_start [].
Proof.
  split; cbn.
  - discriminate.
  - reflexivity.
  - constructor.
  - exact I.
  - intros c d H. inversion H.
Qed.

Lemma drawn_step (s : pen) (seen : list float) (px : float) :
  drawn_so_far s seen -> drawn_so_far (step s px) (seen ++ [px]).
Proof.
  intros [D1 D2 D3 D4 D5].
  destruct (plot_step_cases s px) as [[V ->]|(V & c & -> & Cx & Cy & Cs)].
  - split; cbn [lift pathStarted path].
    + discriminate.
    + rewrite filter_app. cbn [filter]. rewrite V, app_nil_r. exact D2.
    + exact D3.
    + exact D4.
    + intros c d F L. apply follows_app_l. apply D5; assumption.
  - split; cbn [pathStarted path].
    + intros _. exists seen, (path s), c. rewrite Cx. split; reflexivity.
    + rewrite map_app, filter_app. cbn [List.map filter].
      rewrite V, D2, Cx. reflexivity.
    + apply Forall_app. split; [exact D3|]. constructor; [|constructor].
      rewrite Cx. exact Cy.
    + destruct (path s) as [|c0 p] eqn:P; cbn [app]; [|exact D4].
      apply Cs. destruct (pathStarted s); [|reflexivity].
      destruct (D1 eq_refl) as (seen' & path' & c' & _ & E).
      destruct path'; discriminate.
    + intros c0 d F L. apply follows_snoc in F.
      destruct F as [F|[(l' & E) ->]].
      * apply follows_app_l. apply D5; assumption.
      * assert (S : pathStarted s = true).
        { destruct (pathStarted s); [reflexivity|].
          rewrite (Cs eq_refl) in L. discriminate. }
        destruct (D1 S) as (seen' & path' & c' & -> & E').
        rewrite E in E'. apply app_inj_tail in E'. destruct E' as [_ ->].
        rewrite Cx, <- app_assoc. cbn [app]. apply follows_last.
Qed.

Lemma drawn_fold (xs : list float) :
  forall s seen,
    drawn_so_far s seen -> drawn_so_far (fold_left step xs s) (seen ++ xs).
Proof.
  induction xs as [|x xs IH]; intros s seen D; cbn [fold_left].
  - rewrite app_nil_r. exact D.
  - replace (seen ++ x :: xs) with ((seen ++ [x]) ++ xs)
      by (rewrite <- app_assoc; reflexivity).
    apply IH. apply drawn_step. exact D.
Qed.

End PlotFacts.

(** [render], lines 803 to 868. When the loop over [px] ends, the path of
    the curve has one point for each sample that is drawn, in the order of
    the loop: a sample is drawn when the value of the function is a finite
    number that falls within the off-screen limits, and its point is at the
    height [canvas.height / 2 - y * gridSize]. The path does not start with
    [lineTo], and a [lineTo] always joins two samples that follow each
    other in the loop: the curve is never drawn across a sample that is not
    drawn. *)
Theorem plot_path_spec (func : jsfun) (width height gridSize : float)
        (fuel : nat) (cmds : list Plot.command) :
  Plot.plot func width height gridSize fuel = Some cmds ->
  exists visited,
    Samples.visits width (Plot.plot_increment width gridSize) 0 visited
    /\ List.map Plot.at_px cmds
       = filter (Plot.visible func width height gridSize) visited
    /\ Forall (fun c => Plot.at_py c
                        = Plot.canvas_y func width height gridSize
                                        (Plot.at_px c)) cmds
    /\ match cmds with
       | c :: _ => Plot.is_LineTo c = false
       | [] => True
       end
    /\ forall c d,
         Words.follows c d cmds -> Plot.is_LineTo d = true ->
         Words.follows (Plot.at_px c) (Plot.at_px d) visited.
Proof.
  unfold Plot.plot.
  destruct (Loop.for_loop fuel 0 width (Plot.plot_increment width gridSize)
              (Plot.plot_step func width height gridSize) Plot.pen_start)
    as [s|] eqn:L; [|discriminate].
  intros H.
  assert (E : Plot.path s = cmds)
    by exact (f_equal (fun o => match o with Some l => l | None => cmds end) H).
  destruct (for_loop_inv _ _ _ _ _ _ _ L) as (visited & V & ->).
  destruct (drawn_fold func width height gridSize visited Plot.pen_start []
              (drawn_start func width height gridSize))
    as [_ D2 D3 D4 D5].
  cbn [app] in *. rewrite E in *.
  exists visited. split; [exact V|]. split; [exact D2|]. split; [exact D3|].
  split; [exact D4|exact D5].
Qed.

Lemma plot_path_spec_witness :
  let func := Compiled.reciprocal Reference.host in
  exists cmds,
    Plot.plot func 40 30 20 1000 = Some cmds
    /\ exists visited,
        Samples.visits 40 (Plot.plot_increment 40 20) 0 visited
        /\ List.map Plot.at_px cmds
           = filter (Plot.visible func 40 30 20) visited
        /\ Forall (fun c => Plot.at_py c
                            = Plot.canvas_y func 40 30 20 (Plot.at_px c)) cmds
        /\ match cmds with
           | c :: _ => Plot.is_LineTo c = false
           | [] => True
           end
        /\ forall c d,
             Words.follows c d cmds -> Plot.is_LineTo d = true ->
             Words.follows (Plot.at_px c) (Plot.at_px d) visited.
Proof.
  cbv zeta.
  assert (E : exists cmds,
             Plot.plot (Compiled.reciprocal Reference.host) 40 30 20 1000
             = Some cmds)
    by (vm_compute; eexists; reflexivity).
  destruct E as (cmds & E). exists cmds. split; [exact E|].
  exact (plot_path_spec (Compiled.reciprocal Reference.host) 40 30 20 1000
           cmds E).
Defined.

(* ------------------------------------------------------------------ *)
(** * [parse]: the reciprocal functions                                 *)
(* ------------------------------------------------------------------ *)

Section FullCall.

Import Re Normalizer Text.

Local Open Scope string_scope.

Lemma length_append (a b : string) :
  String.length (a ++ b) = (String.length a + String.length b)%nat.
Proof.
  induction a as [|c a IH]; cbn [append String.length]; [reflexivity|].
  rewrite IH. reflexivity.
Qed.

Lemma append_associative (a b c : string) : (a ++ b) ++ c = a ++ (b ++ c).
Proof.
  induction a as [|d a IH]; cbn [append]; [reflexivity|].
  rewrite IH. reflexivity.
Qed.

Lemma take_append (a b : string) : Str.take (String.length a) (a ++ b) = a.
Proof.
  induction a as [|c a IH]; cbn [append String.length Str.take].
  - destruct b; reflexivity.
  - rewrite IH. reflexivity.
Qed.

Lemma measure_append (a b : string) :
  (String.length (a ++ b) - String.length b)%nat = String.length a.
Proof. rewrite length_append. lia. Qed.

(** A literal word matches the text it spells. *)
Lemma run_word {A : Type} (w : string) (tail : regex) :
  forall prev s caps (k : option ascii -> string -> list string -> option A),
    run (word w tail) prev (w ++ s) caps k
    = run tail (last_char prev w) s caps k.
Proof.
  induction w as [|c w IH]; intros prev s caps k; [reflexivity|].
  cbn [word append run last_char]. rewrite Ascii.eqb_refl. apply IH.
Qed.

Lemma run_word_fail {A : Type} (w : string) (tail : regex) :
  forall prev s caps (k : option ascii -> string -> list string -> option A),
    Str.starts_with w s = false -> run (word w tail) prev s caps k = None.
Proof.
  induction w as [|c w IH]; intros prev s caps k H.
  - destruct s; discriminate.
  - destruct s as [|d s]; cbn [word run]; [reflexivity|].
    cbn [Str.starts_with] in H. destruct (Ascii.eqb c d); [|reflexivity].
    apply IH. exact H.
Qed.

(** The greedy star over a run of characters that ends before [")"]. *)
Lemma star_until {A : Type} (p : ascii -> bool) (a : string) :
  forall prev rest (k : option ascii -> string -> option A) r,
    Str.all p a = true ->
    match rest with String c _ => p c = false | EmptyString => True end ->
    k (last_char prev a) rest = Some r ->
    star p prev (a ++ rest) k = Some r.
Proof.
  induction a as [|c a IH]; intros prev rest k r Ha Hr Hk.
  - cbn [append last_char] in *. destruct rest as [|d rest]; cbn [star].
    + exact Hk.
    + rewrite Hr. exact Hk.
  - cbn [Str.all] in Ha. apply andb_prop in Ha. destruct Ha as [Hc Ha].
    cbn [append star]. rewrite Hc.
    rewrite (IH (Some c) rest k r Ha Hr Hk). reflexivity.
Qed.

Variables (name tmpl : string) (c0 : ascii) (name' : string).
Hypothesis name_eq : name = String c0 name'.
Hypothesis name_word : Chars.is_word c0 = true.

(** The pattern of a full call, at the start of a text that begins with
    such a call: the argument captured ends at the first [")"]. *)
Lemma match_full (a b : string) :
  a <> EmptyString -> Str.all not_rparen a = true ->
  match_at (full_re name) None (name ++ "(" ++ a ++ ")" ++ b)
  = Some ([a], b).
Proof.
  intros Na Ha. unfold match_at, full_re.
  change (run (Cat WordB ?r) None ?s [] ?k)
    with (if xorb (word_before None) (word_after s) then run r None s [] k
          else None).
  assert (W : word_after (name ++ "(" ++ a ++ ")" ++ b) = true)
    by (rewrite name_eq; exact name_word).
  rewrite W. cbn [word_before xorb]. rewrite run_word.
  cbn [append run]. cbn [Ascii.eqb Bool.eqb]. 
  destruct a as [|c a]; [contradiction|].
  cbn [Str.all] in Ha. apply andb_prop in Ha. destruct Ha as [Hc Ha].
  cbn [append run]. rewrite Hc.
  apply (star_until not_rparen a (Some c) (String ")" b)); try reflexivity.
  - exact Ha.
  - cbn [run app].
    change (String.length (String c (a ++ String ")" b)))
      with (String.length ((String c a) ++ String ")" b)).
    rewrite measure_append.
    change (String c (a ++ String ")" b)) with ((String c a) ++ String ")" b).
    rewrite take_append. reflexivity.
Qed.

Lemma replace_from_skip (r : regex) (u : string) :
  forall prev b,
    replace_from r tmpl prev (u ++ b) (String.length u)
    = replace_from r tmpl (last_char prev u) b 0.
Proof.
  induction u as [|c u IH]; intros prev b; [reflexivity|].
  cbn [append String.length replace_from last_char]. apply IH.
Qed.

Lemma match_full_none (prev : option ascii) (s : string) :
  Str.starts_with name s = false ->
  match_at (full_re name) prev s = None.
Proof.
  intros H. unfold match_at, full_re.
  change (run (Cat WordB ?r) prev s [] ?k)
    with (if xorb (word_before prev) (word_after s) then run r prev s [] k
          else None).
  destruct (xorb _ _); [|reflexivity].
  apply run_word_fail. exact H.
Qed.

(** A text that does not hold the name is left as it is. *)
Lemma replace_from_none (b : string) :
  forall prev,
    Str.includes name b = false ->
    replace_from (full_re name) tmpl prev b 0 = b.
Proof.
  induction b as [|c b IH]; intros prev H.
  - cbn [replace_from]. rewrite match_full_none; [reflexivity|].
    cbn [Str.includes] in H. apply orb_false_iff in H. apply H.
  - change (Str.includes name (String c b))
      with (Str.starts_with name (String c b) || Str.includes name b) in H.
    apply orb_false_iff in H. destruct H as [H1 H2].
    change (replace_from (full_re name) tmpl prev (String c b) 0)
      with (match match_at (full_re name) prev (String c b) with
            | Some (caps, rest) =>
                match (String.length (String c b) - String.length rest)%nat with
                | O => expand tmpl caps
                       ++ String c (replace_from (full_re name) tmpl
                                      (Some c) b 0)
                | S n => expand tmpl caps
                         ++ replace_from (full_re name) tmpl (Some c) b n
                end
            | None => String c (replace_from (full_re name) tmpl (Some c) b 0)
            end).
    rewrite (match_full_none prev _ H1), (IH _ H2). reflexivity.
Qed.

(** The replacement of a full call at the start of the text, when the text
    after the first [")"] does not hold the name again. *)
Lemma replace_full (a b : string) :
  a <> EmptyString -> Str.all not_rparen a = true ->
  Str.includes name b = false ->
  replace_all (full_re name) tmpl (name ++ "(" ++ a ++ ")" ++ b)
  = expand tmpl [a] ++ b.
Proof.
  intros Na Ha Hb. unfold replace_all.
  pose proof (match_full a b Na Ha) as M.
  assert (E : name ++ "(" ++ a ++ ")" ++ b
              = String c0 ((name' ++ "(" ++ a ++ ")") ++ b)).
  { rewrite name_eq. cbn [append]. f_equal.
    rewrite append_associative. cbn [append].
    rewrite append_associative. reflexivity. }
  rewrite E in *.
  change (replace_from (full_re name) tmpl None
            (String c0 ((name' ++ "(" ++ a ++ ")") ++ b)) 0)
    with (match match_at (full_re name) None
                  (String c0 ((name' ++ "(" ++ a ++ ")") ++ b)) with
          | Some (caps, rest) =>
              match (String.length
                       (String c0 ((name' ++ "(" ++ a ++ ")") ++ b))
                     - String.length rest)%nat with
              | O => expand tmpl caps
                     ++ String c0 (replace_from (full_re name) tmpl (Some c0)
                                     ((name' ++ "(" ++ a ++ ")") ++ b) 0)
              | S n => expand tmpl caps
                       ++ replace_from (full_re name) tmpl (Some c0)
                            ((name' ++ "(" ++ a ++ ")") ++ b) n
              end
          | None => String c0 (replace_from (full_re name) tmpl (Some c0)
                                 ((name' ++ "(" ++ a ++ ")") ++ b) 0)
          end).
  rewrite M.
  change (String c0 ((name' ++ "(" ++ a ++ ")") ++ b))
    with ((String c0 (name' ++ "(" ++ a ++ ")")) ++ b).
  rewrite measure_append. cbn [String.length].
  rewrite replace_from_skip, replace_from_none by exact Hb. reflexivity.
Qed.

End FullCall.

(** [parse], lines 75 to 93. The argument that the rewriting of [csc(],
    [sec(] and [cot(] carries over ends at the first closing parenthesis
    after the name: for a text that starts with the call, with [a] the
    characters up to that parenthesis and [b] those after it, the
    reciprocal is taken of [a] alone and [b] is left behind it. When the
    argument holds a call, as in [csc(sin(x)+1)], the text made is not the
    reciprocal of the whole argument. *)
Theorem reciprocal_argument (a b : string) :
  a <> EmptyString -> Str.all Normalizer.not_rparen a = true ->
  (Str.includes "csc" b = false ->
   Normalizer.replace_function ("csc(" ++ a ++ ")" ++ b) "csc"
   = "(1/Math.sin(" ++ a ++ "))" ++ b)%string
  /\ (Str.includes "sec" b = false ->
      Normalizer.replace_function ("sec(" ++ a ++ ")" ++ b) "sec"
      = "(1/Math.cos(" ++ a ++ "))" ++ b)%string
  /\ (Str.includes "cot" b = false ->
      Normalizer.replace_function ("cot(" ++ a ++ ")" ++ b) "cot"
      = "(1/Math.tan(" ++ a ++ "))" ++ b)%string.
Proof.
  intros Na Ha. split; [|split]; intros Hb.
  - change (Normalizer.replace_function ("csc(" ++ a ++ ")" ++ b) "csc")
      with (Re.replace_all (Normalizer.full_re "csc") "(1/Math.sin($1))"
              ("csc" ++ "(" ++ a ++ ")" ++ b)%string).
    rewrite (replace_full "csc" _ "c" "sc" eq_refl eq_refl a b Na Ha Hb).
    change (Re.expand "(1/Math.sin($1))" [a])
      with ("(1/Math.sin(" ++ (a ++ "))"))%string.
    cbn [append]. rewrite append_associative. reflexivity.
  - change (Normalizer.replace_function ("sec(" ++ a ++ ")" ++ b) "sec")
      with (Re.replace_all (Normalizer.full_re "sec") "(1/Math.cos($1))"
              ("sec" ++ "(" ++ a ++ ")" ++ b)%string).
    rewrite (replace_full "sec" _ "s" "ec" eq_refl eq_refl a b Na Ha Hb).
    change (Re.expand "(1/Math.cos($1))" [a])
      with ("(1/Math.cos(" ++ (a ++ "))"))%string.
    cbn [append]. rewrite append_associative. reflexivity.
  - change (Normalizer.replace_function ("cot(" ++ a ++ ")" ++ b) "cot")
      with (Re.replace_all (Normalizer.full_re "cot") "(1/Math.tan($1))"
              ("cot" ++ "(" ++ a ++ ")" ++ b)%string).
    rewrite (replace_full "cot" _ "c" "ot" eq_refl eq_refl a b Na Ha Hb).
    change (Re.expand "(1/Math.tan($1))" [a])
      with ("(1/Math.tan(" ++ (a ++ "))"))%string.
    cbn [append]. rewrite append_associative. reflexivity.
Qed.

Lemma reciprocal_argument_witness :
  let a := "Math.sin(x"%string in
  let b := "+1)"%string in
  (Normalizer.normalize "csc(sin(x)+1)" = "(1/Math.sin(Math.sin(x))+1)"%string
   /\ a <> EmptyString /\ Str.all Normalizer.not_rparen a = true
   /\ Str.includes "csc" b = false)
  /\ Normalizer.replace_function ("csc(" ++ a ++ ")" ++ b) "csc"
     = ("(1/Math.sin(" ++ a ++ "))" ++ b)%string.
Proof.
  cbv zeta.
  assert (Na : "Math.sin(x"%string <> EmptyString) by discriminate.
  assert (Ha : Str.all Normalizer.not_rparen "Math.sin(x" = true)
    by reflexivity.
  assert (Hb : Str.includes "csc" "+1)" = false) by reflexivity.
  split.
  - split; [vm_compute; reflexivity|].
    split; [exact Na|]. split; [exact Ha|exact Hb].
  - exact (proj1 (reciprocal_argument "Math.sin(x" "+1)" Na Ha) Hb).
Defined.

(* ------------------------------------------------------------------ *)
(** * [parse]: the characters of the rewritten text                     *)
(* ------------------------------------------------------------------ *)

Section Characters.

Import Re.

Local Open Scope string_scope.

(** The characters allowed. *)
Variable P : ascii -> bool.

Local Abbreviation ok := (fun t : string => Str.all P t = true).

Lemma all_append (a b : string) :
  Str.all P (a ++ b) = Str.all P a && Str.all P b.
Proof.
  induction a as [|c a IH]; cbn [append Str.all]; [reflexivity|].
  rewrite IH. apply andb_assoc.
Qed.

Lemma all_take (n : nat) :
  forall s, ok s -> ok (Str.take n s).
Proof.
  induction n as [|n IH]; intros [|c s] H; cbn [Str.take Str.all]; try reflexivity.
  cbn [Str.all] in H. apply andb_prop in H. destruct H as [H1 H2].
  rewrite H1. apply IH. exact H2.
Qed.

Lemma star_chars {A : Type} (p : ascii -> bool) (s : string) :
  forall prev (k : option ascii -> string -> option A) x,
    ok s -> star p prev s k = Some x ->
    exists prev' s', k prev' s' = Some x /\ ok s'.
Proof.
  induction s as [|c s IH]; intros prev k x H E; cbn [star] in E.
  - exists prev, EmptyString. split; [exact E|reflexivity].
  - pose proof H as H'. cbn [Str.all] in H'. apply andb_prop in H'.
    destruct H' as [_ Hs].
    destruct (p c).
    + destruct (star p (Some c) s k) as [y|] eqn:S.
      * injection E as <-. apply (IH _ _ _ Hs S).
      * exists prev, (String c s). split; [exact E|exact H].
    + exists prev, (String c s). split; [exact E|exact H].
Qed.

(** A match only moves forward in the text, and what it captures is made
    of characters of the text. *)
Lemma run_chars {A : Type} (r : regex) :
  forall prev s caps
         (k : option ascii -> string -> list string -> option A) x,
    ok s -> Forall ok caps ->
    run r prev s caps k = Some x ->
    exists prev' s' caps',
      k prev' s' caps' = Some x /\ ok s' /\ Forall ok caps'.
Proof.
  induction r as [|c|p| |r1 IH1 r2 IH2|r1 IH1 r2 IH2|p|r0 IH0];
    intros prev s caps k x Hs Hc E; cbn [run] in E.
  - exists prev, s, caps. auto.
  - destruct s as [|d s]; [discriminate|].
    destruct (Ascii.eqb c d); [|discriminate].
    cbn [Str.all] in Hs. apply andb_prop in Hs.
    exists (Some d), s, caps. split; [exact E|]. split; [apply Hs|exact Hc].
  - destruct s as [|d s]; [discriminate|].
    destruct (p d); [|discriminate].
    cbn [Str.all] in Hs. apply andb_prop in Hs.
    exists (Some d), s, caps. split; [exact E|]. split; [apply Hs|exact Hc].
  - destruct (xorb _ _); [|discriminate].
    exists prev, s, caps. auto.
  - destruct (IH1 _ _ _ _ _ Hs Hc E) as (p1 & s1 & c1 & E1 & Hs1 & Hc1).
    apply (IH2 _ _ _ _ _ Hs1 Hc1 E1).
  - destruct (run r1 prev s caps k) as [y|] eqn:R1.
    + injection E as <-. apply (IH1 _ _ _ _ _ Hs Hc R1).
    + apply (IH2 _ _ _ _ _ Hs Hc E).
  - destruct (star_chars p s prev _ x Hs E) as (p' & s' & E' & Hs').
    exists p', s', caps. auto.
  - destruct (IH0 _ _ _ _ _ Hs Hc E) as (p1 & s1 & c1 & E1 & Hs1 & Hc1).
    eexists p1, s1, _. split; [exact E1|]. split; [exact Hs1|].
    apply Forall_app. split; [exact Hc1|]. constructor; [|constructor].
    apply all_take. exact Hs.
Qed.

Lemma match_at_chars (r : regex) (prev : option ascii) (s : string)
      (caps : list string) (rest : string) :
  ok s -> match_at r prev s = Some (caps, rest) -> Forall ok caps.
Proof.
  intros Hs E. unfold match_at in E.
  destruct (run_chars r prev s [] _ _ Hs (Forall_nil _) E)
    as (p' & s' & c' & E' & _ & Hc).
  injection E' as <- _. exact Hc.
Qed.

Lemma nth_error_ok (caps : list string) (n : nat) (t : string) :
  Forall ok caps -> nth_error caps n = Some t -> ok t.
Proof.
  intros H E. apply nth_error_In in E. rewrite Forall_forall in H.
  apply H. exact E.
Qed.

(** The text of a replacement is made of characters of the template and of
    the captures. *)
Lemma expand_chars (caps : list string) (n : nat) :
  forall tmpl,
    (String.length tmpl <= n)%nat ->
    ok tmpl -> Forall ok caps -> ok (expand tmpl caps).
Proof.
  induction n as [|n IH]; intros tmpl L Ht Hc.
  - destruct tmpl; [reflexivity|cbn in L; lia].
  - destruct tmpl as [|c rest]; [reflexivity|].
    cbn [String.length] in L.
    pose proof Ht as Ht'. cbn [Str.all] in Ht'. apply andb_prop in Ht'.
    destruct Ht' as [Pc Hr].
    cbn [expand]. destruct (Ascii.eqb c "$").
    + destruct rest as [|d rest'].
      * cbn [Str.all]. rewrite Pc. reflexivity.
      * pose proof Hr as Hr'. cbn [Str.all] in Hr'. apply andb_prop in Hr'.
        destruct Hr' as [Pd Hr''].
        cbn [String.length] in L.
        destruct (Chars.between 49 57 d).
        -- destruct (nth_error caps _) as [t|] eqn:N.
           ++ rewrite all_append, (nth_error_ok caps _ t Hc N).
              apply IH; [lia|exact Hr''|exact Hc].
           ++ cbn [Str.all]. rewrite Pc, Pd. apply IH; [lia|exact Hr''|exact Hc].
        -- cbn [Str.all]. rewrite Pc. apply IH; [cbn [String.length]; lia|exact Hr|exact Hc].
    + cbn [Str.all]. rewrite Pc. apply IH; [lia|exact Hr|exact Hc].
Qed.

(** A replacement makes its text of characters of the subject and of the
    template. *)
Lemma replace_from_chars (r : regex) (tmpl : string) (s : string) :
  ok tmpl ->
  forall prev skip, ok s -> ok (replace_from r tmpl prev s skip).
Proof.
  intros Ht. induction s as [|c s IH]; intros prev skip Hs.
  - cbn [replace_from]. destruct skip; [|reflexivity].
    destruct (match_at r prev EmptyString) as [[caps rest]|] eqn:M;
      [|reflexivity].
    apply (expand_chars caps (String.length tmpl)); [lia|exact Ht|].
    apply (match_at_chars r prev EmptyString caps rest Hs M).
  - pose proof Hs as Hs'. cbn [Str.all] in Hs'. apply andb_prop in Hs'.
    destruct Hs' as [Pc Hs'].
    destruct skip as [|n].
    + change (replace_from r tmpl prev (String c s) 0)
        with (match match_at r prev (String c s) with
              | Some (caps, rest) =>
                  match (String.length (String c s) - String.length rest)%nat with
                  | O => expand tmpl caps
                         ++ String c (replace_from r tmpl (Some c) s 0)
                  | S n => expand tmpl caps
                           ++ replace_from r tmpl (Some c) s n
                  end
              | None => String c (replace_from r tmpl (Some c) s 0)
              end).
      destruct (match_at r prev (String c s)) as [[caps rest]|] eqn:M.
      * assert (X : ok (expand tmpl caps)).
        { apply (expand_chars caps (String.length tmpl)); [lia|exact Ht|].
          apply (match_at_chars r prev (String c s) caps rest Hs M). }
        destruct (String.length (String c s) - String.length rest)%nat.
        -- rewrite all_append, X. cbn [Str.all andb]. rewrite Pc.
           apply IH. exact Hs'.
        -- rewrite all_append, X. apply IH. exact Hs'.
      * cbn [Str.all]. rewrite Pc. apply IH. exact Hs'.
    + cbn [replace_from]. apply IH. exact Hs'.
Qed.

Lemma replace_all_chars (r : regex) (tmpl s : string) :
  ok tmpl -> ok s -> ok (replace_all r tmpl s).
Proof. intros Ht Hs. apply replace_from_chars; assumption. Qed.

End Characters.

Section Caret.

Import Re Normalizer Text.

Local Open Scope string_scope.

Local Abbreviation ok := (fun t : string => Str.all not_caret t = true).

(** [/\\^/g] to [**]: every caret goes. *)
Lemma caret_pass (s : string) :
  forall prev, ok (replace_from caret_re "**" prev s 0).
Proof.
  induction s as [|c s IH]; intros prev; [reflexivity|].
  change (replace_from caret_re "**" prev (String c s) 0)
    with (match match_at caret_re prev (String c s) with
          | Some (caps, rest) =>
              match (String.length (String c s) - String.length rest)%nat with
              | O => expand "**" caps
                     ++ String c (replace_from caret_re "**" (Some c) s 0)
              | S n => expand "**" caps
                       ++ replace_from caret_re "**" (Some c) s n
              end
          | None => String c (replace_from caret_re "**" (Some c) s 0)
          end).
  unfold match_at, caret_re. cbn [run].
  destruct (Ascii.eqb "^" c) eqn:E.
  - cbn [String.length]. rewrite one_more. cbn [expand append Str.all].
    apply IH.
  - cbn [Str.all]. unfold not_caret at 1. rewrite Ascii.eqb_sym, E.
    apply IH.
Qed.

Lemma replace_function_chars (e name : string) :
  ok name -> ok e -> ok (replace_function e name).
Proof.
  intros Hn He. unfold replace_function.
  repeat match goal with
         | |- context [if ?b then _ else _] =>
             destruct b;
             [apply replace_all_chars; [reflexivity|exact He]|]
         end.
  apply replace_all_chars; [|exact He].
  rewrite !all_append, Hn. reflexivity.
Qed.

Lemma functions_chars (names : list string) :
  Forall ok names ->
  forall e, ok e -> ok (fold_left replace_function names e).
Proof.
  induction 1 as [|name names Hn _ IH]; intros e He; [exact He|].
  cbn [fold_left]. apply IH. apply replace_function_chars; assumption.
Qed.

Lemma not_caret_includes (s : string) :
  ok s -> Str.includes "^" s = false.
Proof.
  induction s as [|c s IH]; [reflexivity|].
  cbn [Str.all]. intros H. apply andb_prop in H. destruct H as [Pc Hs].
  change (Str.includes "^" (String c s))
    with (Str.starts_with "^" (String c s) || Str.includes "^" s).
  rewrite (IH Hs), orb_false_r. cbn [Str.starts_with].
  unfold not_caret in Pc. apply negb_true_iff in Pc.
  rewrite Ascii.eqb_sym, Pc. reflexivity.
Qed.

End Caret.

(** [parse], lines 59 to 106. Whatever the expression, the text handed to
    the engine holds no [^]: each one has become [**], and no later
    replacement brings one back, in its own text or in what it carries
    over from the expression. The operator [^] of JavaScript is never
    applied. *)
Theorem caret_never_reaches_engine (expression : string) :
  Str.includes "^" (Normalizer.normalize expression) = false.
Proof.
  apply not_caret_includes.
  unfold Normalizer.normalize, Normalizer.implicit_multiplication. cbv zeta.
  do 5 (apply replace_all_chars; [reflexivity|]).
  apply functions_chars; [repeat constructor|].
  unfold Normalizer.constants. cbn [fold_left].
  unfold Normalizer.replace_constant. cbn [fst snd].
  do 2 (apply replace_all_chars; [reflexivity|]).
  apply caret_pass.
Qed.

(* ------------------------------------------------------------------ *)
(** * [parse]: a digit before a constant                             *)
(* ------------------------------------------------------------------ *)

Lemma parse_err_intro (host : MathHost) (bound : string -> bool)
      (expression : string) (e : Ast.expr) :
  Str.blank expression = false ->
  Normalizer.parens_balanced (Normalizer.normalize expression) = true ->
  Ast.parse_text bound (Normalizer.normalize expression) = Parsed e ->
  (forall x, Num.isFinite (evaluate_number (generated host e) x) = false) ->
  parse host bound expression = Err NoValidResult.
Proof.
  intros H1 H2 H3 H4. unfold parse, new_Function.
  rewrite H1, H2, H3. cbv beta iota delta [negb].
  rewrite hasValidResult_spec.
  assert (X : existsb (fun t => Num.isFinite
                                  (evaluate_number (generated host e) t))
                      testValues = false).
  { induction testValues as [|t l IH]; cbn [existsb]; [reflexivity|].
    rewrite H4, IH. reflexivity. }
  rewrite X. reflexivity.
Qed.

(** The product of anything and of a name that nothing declares: the
    reference throws, and [evaluate] gives [NaN]. *)
Lemma free_product_nan (host : MathHost) (v : float) (name : string)
      (x : float) :
  evaluate (generated host (Ast.Bin Ast.Mul (Ast.Lit v) (Ast.Free name))) x
  = VNum Num.NaN.
Proof. reflexivity. Qed.

Section FreeProduct.

Import Js Ast.

Variable bound : string -> bool.

(** A number, [*] and a name that is not [x] and that nothing declares:
    the engine reads the product of the number and of the free name. *)
Lemma free_product_fuel (k : nat) (v : float) (name : string) :
  (name =? "x")%string = false ->
  bound name = false ->
  p_additive bound (S (S (S (S (S (S (S k))))))) [TNum v; TStar; TId name]
  = Parsed (Bin Mul (Lit v) (Free name), []).
Proof.
  intros A B.
  cbn [p_additive p_additive_more p_multiplicative p_multiplicative_more
       p_exponent p_unary p_primary p_calls].
  rewrite A, B. reflexivity.
Qed.

Lemma free_product_tokens (v : float) (name : string) :
  (name =? "x")%string = false ->
  bound name = false ->
  p_expression bound [TNum v; TStar; TId name]
  = Parsed (Bin Mul (Lit v) (Free name)).
Proof.
  intros A B. unfold p_expression.
  assert (F : (8 * List.length [TNum v; TStar; TId name] + 8)%nat
              = S (S (S (S (S (S (S 25)))))))
    by (cbn [List.length]; lia).
  rewrite F, (free_product_fuel _ v name A B). reflexivity.
Qed.

Lemma free_product_text (text : string) (v : float) (name : string) :
  tokens text = Parsed [TNum v; TStar; TId name] ->
  (name =? "x")%string = false ->
  bound name = false ->
  parse_text bound text = Parsed (Bin Mul (Lit v) (Free name)).
Proof.
  intros T A B. unfold parse_text. rewrite T.
  exact (free_product_tokens v name A B).
Qed.

End FreeProduct.



(* ------------------------------------------------------------------ *)
(** * [isOneToOne]: the classification and its examples              *)
(* ------------------------------------------------------------------ *)

Section InjectivityExamples.

Import FunctionAnalyzer.

Local Open Scope float_scope.

(** The loop sees the function through its values at the test points. *)
Lemma isOneToOne_loop_ext (f g : jsfun) (xs : list float) :
  Forall (fun x => evaluate_number f x = evaluate_number g x) xs ->
  forall ys, isOneToOne_loop f xs ys = isOneToOne_loop g xs ys.
Proof.
  induction 1 as [|x xs E _ IH]; intros ys; cbn [isOneToOne_loop];
    [reflexivity|].
  cbv zeta. rewrite E, !IH. reflexivity.
Qed.

Lemma exact_squares_values (host : MathHost) (ps : list float) :
  Host.exact_squares host ps = true ->
  Forall (fun x => evaluate_number (Compiled.square host) x
                   = evaluate_number Host.product_square x) ps.
Proof.
  unfold Host.exact_squares. rewrite forallb_forall, Forall_forall.
  intros H x Hx. apply FloatAxioms.Leibniz.eqb_spec. apply (H x Hx).
Qed.

Lemma exact_cubes_values (host : MathHost) (ps : list float) :
  Host.exact_cubes host ps = true ->
  Forall (fun x => evaluate_number (Compiled.cube host) x
                   = evaluate_number Host.product_cube x) ps.
Proof.
  unfold Host.exact_cubes. rewrite forallb_forall, Forall_forall.
  intros H x Hx. apply FloatAxioms.Leibniz.eqb_spec. apply (H x Hx).
Qed.

(** A near-duplicate among the finite values, in the order of the loop. *)
Lemma ordered_pairs_clash (R : float -> float -> Prop)
      (l1 l2 l3 : list float) (p q : float) :
  ForallOrdPairs R (l1 ++ p :: l2 ++ q :: l3) -> R p q.
Proof.
  induction l1 as [|a l1 IH]; cbn [app]; intros H.
  - inversion H as [|? ? H1 _]; subst. rewrite Forall_forall in H1.
    apply H1. apply in_or_app. right. left. reflexivity.
  - inversion H; subst. apply IH. assumption.
Qed.

(** The self test passes at the probe [1] as soon as the value there is
    finite. *)
Lemma valid_at_one (func : jsfun) :
  Num.isFinite (evaluate_number func 1) = true ->
  hasValidResult func = true.
Proof.
  intros H. rewrite hasValidResult_spec. unfold testValues.
  cbn [existsb]. rewrite H. apply orb_true_r.
Qed.

End InjectivityExamples.

(** C8. [isOneToOne], lines 295 to 323. The loop visits the 21 abscissas
    from [-5] to [5], [0.5] apart; the values that are not finite are left
    aside; the answer is "not one-to-one" as soon as a finite value is
    within [1e-8] of a finite value met before it, and "one-to-one" exactly
    when six finite values or more were met and none was within [1e-8] of
    one met before. The function of [x] is reported one-to-one. The
    function of [x^2] is reported not one-to-one, for an engine whose [**]
    gives the squares of the 21 abscissas. *)
Theorem isOneToOne_classification (host : MathHost)
        (bound : string -> bool) :
  FunctionAnalyzer.injectivity_points
  = Some [-5; -4.5; -4; -3.5; -3; -2.5; -2; -1.5; -1; -0.5; 0;
          0.5; 1; 1.5; 2; 2.5; 3; 3.5; 4; 4.5; 5]%float
  /\ (forall func : jsfun,
        let collected :=
          Words.finite_values func Samples.injectivity_points in
        exists b,
          FunctionAnalyzer.isOneToOne func = Some b
          /\ (forall l1 p l2 q l3,
                 collected = l1 ++ p :: l2 ++ q :: l3 ->
                 (abs (q - p) <? 1e-8)%float = true -> b = false)
          /\ (b = true
              <-> (6 <= List.length collected)%nat
                  /\ ForallOrdPairs
                       (fun p q => (abs (q - p) <? 1e-8)%float = false)
                       collected))
  /\ (parse host bound "x" = Ok (Compiled.identity host)
      /\ FunctionAnalyzer.isOneToOne (Compiled.identity host) = Some true)
  /\ (Host.exact_squares host Samples.injectivity_points = true ->
      parse host bound "x^2" = Ok (Compiled.square host)
      /\ FunctionAnalyzer.isOneToOne (Compiled.square host) = Some false).
Proof.
  split; [vm_compute; reflexivity|]. split; [|split].
  - intros func collected. eexists. split; [apply isOneToOne_eq|].
    assert (S : FunctionAnalyzer.isOneToOne_loop
                  func Samples.injectivity_points [] = true
                <-> (6 <= List.length collected)%nat
                    /\ ForallOrdPairs
                         (fun p q => (abs (q - p) <? 1e-8)%float = false)
                         collected).
    { rewrite (isOneToOne_loop_spec func Samples.injectivity_points []).
      cbn [List.length Nat.add]. fold collected. split.
      - intros (_ & H2 & H3). split; [lia|exact H2].
      - intros (H1 & H2). split; [|split; [exact H2|lia]].
        apply Forall_forall. intros v _. constructor. }
    split; [|exact S].
    intros l1 p l2 q l3 E C.
    destruct (FunctionAnalyzer.isOneToOne_loop
                func Samples.injectivity_points []); [|reflexivity].
    destruct (proj1 S eq_refl) as [_ P]. rewrite E in P.
    apply ordered_pairs_clash in P. congruence.
  - split; [apply parse_identity|]. vm_compute. reflexivity.
  - intros H. pose proof (exact_squares_values host _ H) as V.
    split.
    + apply parse_ok_intro; try (vm_compute; reflexivity).
      apply valid_at_one. rewrite Forall_forall in V.
      assert (V1 : evaluate_number (Compiled.square host) 1
                   = evaluate_number Host.product_square 1)
        by (apply V; vm_compute; tauto).
      unfold Compiled.square in V1. rewrite V1. reflexivity.
    + rewrite isOneToOne_eq.
      rewrite (isOneToOne_loop_ext _ _ _ V). vm_compute. reflexivity.
Qed.

Lemma isOneToOne_classification_witness :
  Host.exact_squares Reference.host Samples.injectivity_points = true
  /\ parse Reference.host Reference.nothing_bound "x^2"
     = Ok (Compiled.square Reference.host)
  /\ FunctionAnalyzer.isOneToOne (Compiled.square Reference.host)
     = Some false.
Proof.
  assert (H : Host.exact_squares Reference.host Samples.injectivity_points
              = true) by (vm_compute; reflexivity).
  split; [exact H|].
  exact (proj2 (proj2 (proj2
           (isOneToOne_classification Reference.host
                                      Reference.nothing_bound))) H).
Defined.

(* ------------------------------------------------------------------ *)
(** * [checkSymmetry]: the classification and its examples           *)
(* ------------------------------------------------------------------ *)

Section SymmetryCounts.

Import FunctionAnalyzer.

Local Open Scope float_scope.

Variable func : jsfun.

Local Abbreviation f := (evaluate_number func).

(** The tests of the loop, on an abscissa: both values are finite; they are
    within the tolerance of each other; of the opposite of each other. *)
Local Abbreviation valid_test :=
  (fun x : float => Num.isFinite (f x) && Num.isFinite (f (- x))).
Local Abbreviation even_test :=
  (fun x : float => abs (f (- x) - f x) <? 1e-10).
Local Abbreviation odd_test :=
  (fun x : float => abs (f (- x) + f x) <? 1e-10).

(** What the counters hold after the loop: the number of abscissas that
    pass each test. *)
Lemma symmetry_counts_filter (xs : list float) :
  Forall (fun x => (x =? 0) = false) xs ->
  forall c,
    let c' := fold_left (symmetry_step func) xs c in
    let valid := filter valid_test xs in
    totalTests c' = (totalTests c + List.length valid)%nat
    /\ evenCount c'
       = (evenCount c + List.length (filter even_test valid))%nat
    /\ oddCount c'
       = (oddCount c + List.length (filter odd_test valid))%nat.
Proof.
  induction 1 as [|x xs Hx _ IH]; intros c; cbn [fold_left filter].
  - cbv zeta. cbn [filter List.length]. lia.
  - specialize (IH (symmetry_step func c x)). cbv zeta in IH |- *.
    destruct IH as (I1 & I2 & I3). rewrite I1, I2, I3. clear I1 I2 I3.
    destruct (Num.isFinite (f x)) eqn:F1;
      [destruct (Num.isFinite (f (- x))) eqn:F2|]; cbn [andb].
    + rewrite (symmetry_step_valid func c x Hx F1 F2).
      cbn [totalTests evenCount oddCount filter List.length].
      unfold Num.Math_abs, symmetry_tolerance.
      rewrite FloatOrder.sub_opp.
      destruct (abs (f (- x) - f x) <? 1e-10),
        (abs (f (- x) + f x) <? 1e-10); cbn [List.length]; lia.
    + unfold symmetry_step. rewrite Hx, F1, F2. cbn [negb].
      rewrite !orb_true_r. lia.
    + unfold symmetry_step. rewrite Hx, F1. cbn [negb].
      rewrite orb_true_r. cbn [orb]. lia.
Qed.

End SymmetryCounts.

Section SymmetryExamples.

Import FunctionAnalyzer.

Local Open Scope float_scope.

(** The loop sees the function through its values at the test points and
    at their opposites. *)
Lemma count_symmetry_ext (f g : jsfun) (xs : list float) :
  Forall (fun x => evaluate_number f x = evaluate_number g x
                   /\ evaluate_number f (- x) = evaluate_number g (- x))
         xs ->
  forall c,
    fold_left (symmetry_step f) xs c = fold_left (symmetry_step g) xs c.
Proof.
  induction 1 as [|x xs [E1 E2] _ IH]; intros c; cbn [fold_left];
    [reflexivity|].
  unfold symmetry_step at 2 4. rewrite E1, E2. apply IH.
Qed.

(** The opposite of a test point is a test point. *)
Lemma symmetry_points_opposite (x : float) :
  In x symmetry_points -> In (- x) symmetry_points.
Proof.
  unfold symmetry_points. cbn [In].
  intros H; repeat (destruct H as [<-|H]; [vm_compute; tauto|]);
    destruct H.
Qed.

Lemma checkSymmetry_ext (f g : jsfun) :
  Forall (fun x => evaluate_number f x = evaluate_number g x)
         symmetry_points ->
  checkSymmetry f = checkSymmetry g.
Proof.
  intros V. rewrite Forall_forall in V.
  unfold checkSymmetry, count_symmetry.
  rewrite (count_symmetry_ext f g symmetry_points); [reflexivity|].
  apply Forall_forall. intros x Hx. split; apply V;
    [exact Hx|apply symmetry_points_opposite, Hx].
Qed.

End SymmetryExamples.

(** C7. [checkSymmetry], lines 249 to 293. The eight abscissas are [-3],
    [-2], [-1], [-0.5], [0.5], [1], [2] and [3]. A test counts when the
    values at [x] and at [-x] are finite; it counts as even when
    [|f(-x) - f(x)| < 1e-10] and as odd when [|f(-x) + f(x)| < 1e-10]. The
    function is reported even (odd) exactly when a test counted and the
    even (odd) counter is at least 80% of the number of tests that counted:
    with no such test, it is reported neither. The function of [x+1] is
    reported neither even nor odd. The function of [x^2] is reported even
    and not odd, and the function of [x^3] odd and not even, for an engine
    whose [**] gives the squares and the cubes of the eight abscissas. *)
Theorem checkSymmetry_classification (host : MathHost)
        (bound : string -> bool) :
  FunctionAnalyzer.symmetry_points = [-3; -2; -1; -0.5; 0.5; 1; 2; 3]%float
  /\ (forall func : jsfun,
        let f := evaluate_number func in
        let valid :=
          filter (fun x => Num.isFinite (f x) && Num.isFinite (f (- x)%float))
                 FunctionAnalyzer.symmetry_points in
        let c := FunctionAnalyzer.count_symmetry func in
        FunctionAnalyzer.totalTests c = List.length valid
        /\ FunctionAnalyzer.evenCount c
           = List.length
               (filter (fun x => (abs (f (- x) - f x) <? 1e-10)%float) valid)
        /\ FunctionAnalyzer.oddCount c
           = List.length
               (filter (fun x => (abs (f (- x) + f x) <? 1e-10)%float) valid)
        /\ (FunctionAnalyzer.isEven (FunctionAnalyzer.checkSymmetry func)
            = true
            <-> (0 < FunctionAnalyzer.totalTests c
                 /\ 4 * FunctionAnalyzer.totalTests c
                    <= 5 * FunctionAnalyzer.evenCount c)%nat)
        /\ (FunctionAnalyzer.isOdd (FunctionAnalyzer.checkSymmetry func)
            = true
            <-> (0 < FunctionAnalyzer.totalTests c
                 /\ 4 * FunctionAnalyzer.totalTests c
                    <= 5 * FunctionAnalyzer.oddCount c)%nat))
  /\ (Host.exact_squares host FunctionAnalyzer.symmetry_points = true ->
      parse host bound "x^2" = Ok (Compiled.square host)
      /\ FunctionAnalyzer.checkSymmetry (Compiled.square host)
         = {| FunctionAnalyzer.isEven := true;
              FunctionAnalyzer.isOdd := false |})
  /\ (Host.exact_cubes host FunctionAnalyzer.symmetry_points = true ->
      parse host bound "x^3" = Ok (Compiled.cube host)
      /\ FunctionAnalyzer.checkSymmetry (Compiled.cube host)
         = {| FunctionAnalyzer.isEven := false;
              FunctionAnalyzer.isOdd := true |})
  /\ (parse host bound "x+1" = Ok (Compiled.successor host)
      /\ FunctionAnalyzer.checkSymmetry (Compiled.successor host)
         = {| FunctionAnalyzer.isEven := false;
              FunctionAnalyzer.isOdd := false |}).
Proof.
  split; [reflexivity|]. split; [|split; [|split]].
  - intros func f valid c.
    destruct (symmetry_counts_filter
                func FunctionAnalyzer.symmetry_points
                symmetry_points_nonzero
                {| FunctionAnalyzer.oddCount := 0;
                   FunctionAnalyzer.evenCount := 0;
                   FunctionAnalyzer.totalTests := 0 |}) as (T & E & O).
    cbv zeta in T, E, O.
    split; [exact T|]. split; [exact E|]. split; [exact O|].
    assert (Ec : c = fold_left (FunctionAnalyzer.symmetry_step func)
                               FunctionAnalyzer.symmetry_points
                               {| FunctionAnalyzer.oddCount := 0;
                                  FunctionAnalyzer.evenCount := 0;
                                  FunctionAnalyzer.totalTests := 0 |})
      by reflexivity.
    destruct (symmetry_threshold_generic
                func FunctionAnalyzer.symmetry_points (Nat.le_refl 8) c Ec)
      as (_ & _ & _ & He & Ho).
    split; [exact He|exact Ho].
  - intros H. pose proof (exact_squares_values host _ H) as V.
    split.
    + apply parse_ok_intro; try (vm_compute; reflexivity).
      apply valid_at_one.
      assert (V1 : evaluate_number (Compiled.square host) 1
                   = evaluate_number Host.product_square 1)
        by (rewrite Forall_forall in V; apply V; vm_compute; tauto).
      unfold Compiled.square in V1. rewrite V1. reflexivity.
    + rewrite (checkSymmetry_ext _ _ V). vm_compute. reflexivity.
  - intros H. pose proof (exact_cubes_values host _ H) as V.
    split.
    + apply parse_ok_intro; try (vm_compute; reflexivity).
      apply valid_at_one.
      assert (V1 : evaluate_number (Compiled.cube host) 1
                   = evaluate_number Host.product_cube 1)
        by (rewrite Forall_forall in V; apply V; vm_compute; tauto).
      unfold Compiled.cube in V1. rewrite V1. reflexivity.
    + rewrite (checkSymmetry_ext _ _ V). vm_compute. reflexivity.
  - split; [apply parse_successor|]. vm_compute. reflexivity.
Qed.

Lemma checkSymmetry_classification_witness :
  (Host.exact_squares Reference.host FunctionAnalyzer.symmetry_points = true
   /\ Host.exact_cubes Reference.host FunctionAnalyzer.symmetry_points = true)
  /\ FunctionAnalyzer.checkSymmetry (Compiled.square Reference.host)
     = {| FunctionAnalyzer.isEven := true; FunctionAnalyzer.isOdd := false |}
  /\ FunctionAnalyzer.checkSymmetry (Compiled.cube Reference.host)
     = {| FunctionAnalyzer.isEven := false; FunctionAnalyzer.isOdd := true |}.
Proof.
  assert (H2 : Host.exact_squares Reference.host
                                  FunctionAnalyzer.symmetry_points = true)
    by (vm_compute; reflexivity).
  assert (H3 : Host.exact_cubes Reference.host
                                FunctionAnalyzer.symmetry_points = true)
    by (vm_compute; reflexivity).
  split; [split; [exact H2|exact H3]|].
  destruct (checkSymmetry_classification Reference.host
                                         Reference.nothing_bound)
    as (_ & _ & S & C & _).
  split; [exact (proj2 (S H2))|exact (proj2 (C H3))].
Defined.

(* ------------------------------------------------------------------ *)
(** * [analyzeDomain]: the forms, the sweep and the examples         *)
(* ------------------------------------------------------------------ *)

Section PatternFacts.

Import Re.

Lemma word_append (a b : string) (tail : regex) :
  word (a ++ b) tail = word a (word b tail).
Proof.
  induction a as [|c a IH]; [reflexivity|].
  cbn [append word]. rewrite IH. reflexivity.
Qed.

Lemma starts_with_includes (p s : string) :
  Str.starts_with p s = true -> Str.includes p s = true.
Proof. intros H. destruct s; cbn [Str.includes]; rewrite H; reflexivity. Qed.

(** A pattern that starts with the letters of [w] is found only in a text
    that holds [w]. *)
Lemma search_word (w : string) (tail : regex) (s : string) :
  forall prev,
    search_from (word w tail) prev s = true -> Str.includes w s = true.
Proof.
  induction s as [|c s IH]; intros prev.
  - cbn [search_from]. unfold match_at.
    destruct (Str.starts_with w EmptyString) eqn:E.
    + intros _. apply starts_with_includes, E.
    + rewrite run_word_fail by exact E. discriminate.
  - change (search_from (word w tail) prev (String c s))
      with (match match_at (word w tail) prev (String c s) with
            | Some _ => true
            | None => search_from (word w tail) (Some c) s
            end).
    change (Str.includes w (String c s))
      with (Str.starts_with w (String c s) || Str.includes w s).
    unfold match_at.
    destruct (Str.starts_with w (String c s)) eqn:E; [reflexivity|].
    rewrite run_word_fail by exact E. cbn [orb]. apply IH.
Qed.

(** One of two patterns is found where either is. *)
Lemma search_alt (r1 r2 : regex) (s : string) :
  forall prev,
    search_from (Alt r1 r2) prev s
    = search_from r1 prev s || search_from r2 prev s.
Proof.
  assert (M : forall prev t,
             match_at (Alt r1 r2) prev t
             = match match_at r1 prev t with
               | Some x => Some x
               | None => match_at r2 prev t
               end) by reflexivity.
  induction s as [|c s IH]; intros prev.
  - cbn [search_from]. rewrite M.
    destruct (match_at r1 prev EmptyString); [reflexivity|].
    destruct (match_at r2 prev EmptyString); reflexivity.
  - change (search_from (Alt r1 r2) prev (String c s))
      with (match match_at (Alt r1 r2) prev (String c s) with
            | Some _ => true
            | None => search_from (Alt r1 r2) (Some c) s
            end).
    change (search_from r1 prev (String c s))
      with (match match_at r1 prev (String c s) with
            | Some _ => true
            | None => search_from r1 (Some c) s
            end).
    change (search_from r2 prev (String c s))
      with (match match_at r2 prev (String c s) with
            | Some _ => true
            | None => search_from r2 (Some c) s
            end).
    rewrite M.
    destruct (match_at r1 prev (String c s)); [reflexivity|].
    destruct (match_at r2 prev (String c s)); [apply eq_sym, orb_true_r|].
    apply IH.
Qed.

(** A text that holds [c] followed by [q] holds [q]. *)
Lemma includes_tail (c : ascii) (q s : string) :
  Str.includes (String c q) s = true -> Str.includes q s = true.
Proof.
  induction s as [|d s IH]; [discriminate|].
  change (Str.includes (String c q) (String d s))
    with (Str.starts_with (String c q) (String d s)
          || Str.includes (String c q) s).
  change (Str.includes q (String d s))
    with (Str.starts_with q (String d s) || Str.includes q s).
  intros H. apply orb_prop in H. destruct H as [H|H].
  - cbn [Str.starts_with] in H. apply andb_prop in H. destruct H as [_ H].
    rewrite (starts_with_includes _ _ H). apply orb_true_r.
  - rewrite (IH H). apply orb_true_r.
Qed.

End PatternFacts.

Section DomainForms.

Import Re FunctionAnalyzer.

(** The pattern with the variable inside the argument is found only in a
    text that holds the name and the opening parenthesis. *)
Lemma inside_includes (name s : string) :
  test (inside_re name) s = true -> Str.includes (name ++ "(") s = true.
Proof.
  unfold test, inside_re. intros H.
  apply (search_word (name ++ "(")
           (Cat (Star Normalizer.not_rparen)
                (Cat (Lit "x"%char)
                     (Cat (Star Normalizer.not_rparen) (Lit ")"%char))))
           s None).
  rewrite word_append. exact H.
Qed.

(** The tests of the code on the text give the answer of the first form
    of the list that applies. *)
Lemma domain_pattern_forms (expression : string) :
  domain_pattern expression
  = DomainPolicy.first_form
      (DomainPolicy.forms (Str.toLowerCase expression)).
Proof.
  unfold domain_pattern, DomainPolicy.forms. cbv zeta.
  set (expr := Str.toLowerCase expression).
  unfold sqrt_x_re, log_x_re. rewrite test_text.
  unfold test at 2. rewrite search_alt.
  change (search_from (text "log(x)") None expr) with (test (text "log(x)") expr).
  change (search_from (text "ln(x)") None expr) with (test (text "ln(x)") expr).
  rewrite !test_text.
  cbn [DomainPolicy.first_form].
  (* the square roots *)
  destruct (Str.includes "sqrt(x)" expr) eqn:R1.
  { rewrite (includes_longer "sqrt(" "x)" _ R1). reflexivity. }
  destruct (test sqrt_inside_re expr) eqn:R2.
  { pose proof (inside_includes "sqrt" expr R2) as I. cbn [append] in I.
    rewrite I. reflexivity. }
  assert (R : (if Str.includes "sqrt(" expr
               then @None domain else None) = None)
    by (destruct (Str.includes "sqrt(" expr); reflexivity).
  rewrite R. clear R.
  (* the logarithms *)
  destruct (Str.includes "log(x)" expr) eqn:L1.
  { rewrite (includes_longer "log(" "x)" _ L1). reflexivity. }
  destruct (Str.includes "ln(x)" expr) eqn:L2.
  { rewrite (includes_longer "ln(" "x)" _ L2), orb_true_r. reflexivity. }
  cbn [orb].
  destruct (test log_inside_re expr) eqn:L3.
  { unfold log_inside_re, test in L3. rewrite search_alt in L3.
    apply orb_prop in L3. destruct L3 as [L3|L3].
    - pose proof (inside_includes "log" expr L3) as I. cbn [append] in I.
      rewrite I. reflexivity.
    - pose proof (inside_includes "ln" expr L3) as I. cbn [append] in I.
      rewrite I, orb_true_r. reflexivity. }
  assert (L : (if Str.includes "log(" expr || Str.includes "ln(" expr
               then @None domain else None) = None)
    by (destruct (Str.includes "log(" expr || Str.includes "ln(" expr);
        reflexivity).
  rewrite L. clear L.
  (* the denominator *)
  destruct (Str.includes "/x" expr) eqn:D1; [reflexivity|].
  destruct (Str.includes "1/x" expr) eqn:D2.
  { rewrite (includes_tail _ _ _ D2) in D1. discriminate. }
  cbn [orb].
  (* the trigonometric functions *)
  destruct (Str.includes "tan(x)" expr), (Str.includes "cot(x)" expr),
    (Str.includes "sec(x)" expr); reflexivity.
Qed.

Lemma exclusions_eq (restrictions : list float) :
  domain_of_restrictions restrictions
  = DomainPolicy.exclusions restrictions.
Proof. destruct restrictions; reflexivity. Qed.

End DomainForms.


(* ------------------------------------------------------------------ *)
(** * [parse]: a reciprocal function of an argument with a call      *)
(* ------------------------------------------------------------------ *)

(** C2, where the code departs from it. [parse], lines 75 to 93. The
    capture [[^)]+] of the pattern for [csc(] stops at the first closing
    parenthesis, so in [csc(sin(x)+1)] the argument taken is [sin(x] and
    [+1)] is left behind the reciprocal: the text made is
    [(1/Math.sin(Math.sin(x))+1)], which the engine reads as
    [1/sin(sin(x)) + 1], while [1/sin(sin(x)+1)] is read as the reciprocal
    of the sine of the whole argument. The two functions differ: with a
    sine that is [0] at [0] the first is [+Infinity] at [0] and the second
    is [1/sin(1)]; both expressions compile. *)
Theorem reciprocal_nested_argument (host : MathHost)
        (bound : string -> bool) :
  Normalizer.normalize "csc(sin(x)+1)" = "(1/Math.sin(Math.sin(x))+1)"%string
  /\ Normalizer.normalize "1/sin(sin(x)+1)"
     = "1/Math.sin(Math.sin(x)+1)"%string
  /\ new_Function host bound (Normalizer.normalize "csc(sin(x)+1)")
     = Parsed (generated host Nested.as_rewritten)
  /\ new_Function host bound (Normalizer.normalize "1/sin(sin(x)+1)")
     = Parsed (generated host Nested.as_claimed)
  /\ (forall x,
         evaluate (generated host Nested.as_rewritten) x
         = VNum (1 / h_sin host (h_sin host x) + 1)%float)
  /\ (forall x,
         evaluate (generated host Nested.as_claimed) x
         = VNum (1 / h_sin host (h_sin host x + 1))%float)
  /\ (h_sin host 0 = 0%float ->
      evaluate (generated host Nested.as_rewritten) 0 = VNum infinity
      /\ evaluate (generated host Nested.as_claimed) 0
         = VNum (1 / h_sin host 1)%float)
  /\ (parse Reference.host bound "csc(sin(x)+1)"
      = Ok (generated Reference.host Nested.as_rewritten)
      /\ parse Reference.host bound "1/sin(sin(x)+1)"
         = Ok (generated Reference.host Nested.as_claimed)
      /\ evaluate (generated Reference.host Nested.as_rewritten) 0
         = VNum infinity
      /\ evaluate (generated Reference.host Nested.as_claimed) 0
         = VNum 1.1883951057781212).
Proof.
  assert (T1 : Ast.parse_text bound (Normalizer.normalize "csc(sin(x)+1)")
               = Parsed Nested.as_rewritten) by (vm_compute; reflexivity).
  assert (T2 : Ast.parse_text bound (Normalizer.normalize "1/sin(sin(x)+1)")
               = Parsed Nested.as_claimed) by (vm_compute; reflexivity).
  split; [vm_compute; reflexivity|]. split; [vm_compute; reflexivity|].
  split; [unfold new_Function; rewrite T1; reflexivity|].
  split; [unfold new_Function; rewrite T2; reflexivity|].
  split; [intros x; reflexivity|]. split; [intros x; reflexivity|].
  split.
  - intros Z.
    change (evaluate (generated host Nested.as_rewritten) 0)
      with (VNum (1 / h_sin host (h_sin host 0) + 1)%float).
    change (evaluate (generated host Nested.as_claimed) 0)
      with (VNum (1 / h_sin host (h_sin host 0 + 1))%float).
    rewrite !Z. split; reflexivity.
  - split; [|split; [|split]].
    + apply parse_ok_intro; [reflexivity|vm_compute; reflexivity|exact T1|].
      vm_compute. reflexivity.
    + apply parse_ok_intro; [reflexivity|vm_compute; reflexivity|exact T2|].
      vm_compute. reflexivity.
    + vm_compute. reflexivity.
    + vm_compute. reflexivity.
Qed.

(* ------------------------------------------------------------------ *)
(** * [parse]: the ways it ends                                      *)
(* ------------------------------------------------------------------ *)

Section ProbeFacts.

Import Script Probes.

Variable store : Type.
Variable func : procedure store.

Lemma tried_app (l1 l2 : list float) :
  forall s s1 s2,
    tried func s l1 s1 -> tried func s1 l2 s2 -> tried func s (l1 ++ l2) s2.
Proof.
  induction l1 as [|x l1 IH]; intros s s1 s2 H1 H2; cbn [app].
  - inversion H1; subst. exact H2.
  - inversion H1; subst.
    + eapply tried_returned; eauto.
    + eapply tried_threw; eauto.
Qed.

(** The probes that were tried are passed over by the self test. *)
Lemma self_test_tried (l1 l2 : list float) :
  forall s s1,
    tried func s l1 s1 ->
    self_test func s (l1 ++ l2) = self_test func s1 l2.
Proof.
  induction l1 as [|x l1 IH]; intros s s1 H; cbn [app].
  - inversion H; subst. reflexivity.
  - inversion H as [|? s0 ? ? ? r E F T|? s0 ? ? ? E T]; subst;
      cbn [self_test]; rewrite E.
    + unfold finite_number in F. rewrite F. apply IH. exact T.
    + apply IH. exact T.
Qed.

(** How the self test ends. *)
Lemma self_test_spec (tests : list float) :
  forall s,
    match self_test func s tests with
    | Returns true s' => passed func s tests s'
    | Returns false s' => tried func s tests s'
    | Throws _ => False
    | Diverges => stuck func s tests
    end.
Proof.
  induction tests as [|x tests IH]; intros s; cbn [self_test].
  - constructor.
  - destruct (func s x) as [r s1|s1|] eqn:E.
    + destruct (is_number r && Num.isFinite (ToNumber r)) eqn:F.
      * exists [], x, tests, s, r. cbn [app].
        split; [reflexivity|]. split; [constructor|]. split; assumption.
      * specialize (IH s1).
        destruct (self_test func s1 tests) as [[|] s2|s2|].
        -- destruct IH as (b & y & a & s3 & r' & -> & T & C & N).
           exists (x :: b), y, a, s3, r'. cbn [app].
           split; [reflexivity|]. split; [|split; assumption].
           eapply tried_returned; eauto.
        -- eapply tried_returned; eauto.
        -- exact IH.
        -- destruct IH as (b & y & a & s3 & -> & T & C).
           exists (x :: b), y, a, s3. cbn [app].
           split; [reflexivity|]. split; [|assumption].
           eapply tried_returned; eauto.
    + specialize (IH s1).
      destruct (self_test func s1 tests) as [[|] s2|s2|].
      * destruct IH as (b & y & a & s3 & r' & -> & T & C & N).
        exists (x :: b), y, a, s3, r'. cbn [app].
        split; [reflexivity|]. split; [|split; assumption].
        eapply tried_threw; eauto.
      * eapply tried_threw; eauto.
      * exact IH.
      * destruct IH as (b & y & a & s3 & -> & T & C).
        exists (x :: b), y, a, s3. cbn [app].
        split; [reflexivity|]. split; [|assumption].
        eapply tried_threw; eauto.
    + exists [], x, tests, s. cbn [app].
      split; [reflexivity|]. split; [constructor|assumption].
Qed.

Lemma self_test_failed (tests : list float) (s s' : store) :
  self_test func s tests = Returns false s' <-> tried func s tests s'.
Proof.
  split.
  - intros H. pose proof (self_test_spec tests s) as P.
    rewrite H in P. exact P.
  - intros H. rewrite <- (app_nil_r tests).
    rewrite (self_test_tried tests [] s s' H). reflexivity.
Qed.

Lemma self_test_passed (tests : list float) (s s' : store) :
  self_test func s tests = Returns true s' <-> passed func s tests s'.
Proof.
  split.
  - intros H. pose proof (self_test_spec tests s) as P.
    rewrite H in P. exact P.
  - intros (b & y & a & s1 & r & -> & T & C & N).
    rewrite (self_test_tried b (y :: a) s s1 T). cbn [self_test].
    rewrite C. unfold finite_number in N. rewrite N. reflexivity.
Qed.

Lemma self_test_stuck (tests : list float) (s : store) :
  self_test func s tests = Diverges <-> stuck func s tests.
Proof.
  split.
  - intros H. pose proof (self_test_spec tests s) as P.
    rewrite H in P. exact P.
  - intros (b & y & a & s1 & -> & T & C).
    rewrite (self_test_tried b (y :: a) s s1 T). cbn [self_test].
    rewrite C. reflexivity.
Qed.

Lemma self_test_never_throws (tests : list float) (s s' : store) :
  self_test func s tests <> Throws s'.
Proof.
  intros H. pose proof (self_test_spec tests s) as P.
  rewrite H in P. exact P.
Qed.

End ProbeFacts.

Section Outcomes.

Import Script Probes.

Variable store : Type.
Variable engine : string -> parsed (procedure store).
Variables (expression : string) (s : store).

Local Abbreviation text := (Normalizer.normalize expression).
Local Abbreviation out := (Script.parse engine expression s).

(** [parse] up to the call of the engine. *)
Lemma parse_cases :
  (Str.blank expression = true /\ out = Refused EmptyExpression s)
  \/ (Str.blank expression = false
      /\ Normalizer.parens_balanced text = false
      /\ out = Refused MismatchedParentheses s)
  \/ (Str.blank expression = false
      /\ Normalizer.parens_balanced text = true
      /\ out = match engine text with
               | Rejected => Refused EngineSyntaxError s
               | Unmodelled => NotModelled
               | Parsed func =>
                   match self_test func s testValues with
                   | Returns true s' => Compiled func s'
                   | Returns false s' => Refused NoValidResult s'
                   | Throws s' => Refused NoValidResult s'
                   | Diverges => Hangs
                   end
               end).
Proof.
  unfold Script.parse.
  destruct (Str.blank expression); [left; auto|right].
  destruct (Normalizer.parens_balanced text); cbn [negb]; [right|left]; auto.
Qed.

Lemma parse_empty_iff (s' : store) :
  out = Refused EmptyExpression s'
  <-> s' = s /\ Str.blank expression = true.
Proof.
  destruct parse_cases as [[B ->]|[(B & P & ->)|(B & P & ->)]].
  - split; [intros H; injection H as <-; auto|intros [-> _]; reflexivity].
  - split; [discriminate|intros [_ H]; congruence].
  - split; [|intros [_ H]; congruence].
    destruct (engine text) as [f| |]; try discriminate.
    destruct (self_test f s testValues) as [[|] ?|?|]; discriminate.
Qed.

Lemma parse_mismatched_iff (s' : store) :
  out = Refused MismatchedParentheses s'
  <-> s' = s /\ Str.blank expression = false
      /\ Normalizer.parens_balanced text = false.
Proof.
  destruct parse_cases as [[B ->]|[(B & P & ->)|(B & P & ->)]].
  - split; [discriminate|intros (_ & H & _); congruence].
  - split; [intros H; injection H as <-; auto|intros (-> & _); reflexivity].
  - split; [|intros (_ & _ & H); congruence].
    destruct (engine text) as [f| |]; try discriminate.
    destruct (self_test f s testValues) as [[|] ?|?|]; discriminate.
Qed.

Lemma parse_engine_iff (s' : store) :
  out = Refused EngineSyntaxError s'
  <-> s' = s /\ Str.blank expression = false
      /\ Normalizer.parens_balanced text = true
      /\ engine text = Rejected.
Proof.
  destruct parse_cases as [[B ->]|[(B & P & ->)|(B & P & ->)]].
  - split; [discriminate|intros (_ & H & _); congruence].
  - split; [discriminate|intros (_ & _ & H & _); congruence].
  - destruct (engine text) as [f| |].
    + split; [|intros (_ & _ & _ & H); discriminate].
      destruct (self_test f s testValues) as [[|] ?|?|]; discriminate.
    + split; [intros H; injection H as <-; auto|intros (-> & _); reflexivity].
    + split; [discriminate|intros (_ & _ & _ & H); discriminate].
Qed.

Lemma parse_unevaluable_iff (s' : store) :
  out = Refused NoValidResult s'
  <-> Str.blank expression = false
      /\ Normalizer.parens_balanced text = true
      /\ exists func, engine text = Parsed func
                      /\ tried func s testValues s'.
Proof.
  destruct parse_cases as [[B ->]|[(B & P & ->)|(B & P & ->)]].
  - split; [discriminate|intros (H & _); congruence].
  - split; [discriminate|intros (_ & H & _); congruence].
  - destruct (engine text) as [f| |].
    + split.
      * intros H.
        destruct (self_test f s testValues) as [[|] s1|s1|] eqn:T;
          try discriminate.
        -- injection H as <-. split; [exact B|]. split; [exact P|].
           exists f. split; [reflexivity|].
           apply self_test_failed. exact T.
        -- destruct (self_test_never_throws store f testValues s s1 T).
      * intros (_ & _ & g & E & H). injection E as <-.
        apply self_test_failed in H. rewrite H. reflexivity.
    + split; [discriminate|intros (_ & _ & g & E & _); discriminate].
    + split; [discriminate|intros (_ & _ & g & E & _); discriminate].
Qed.

Lemma parse_compiled_iff (func : procedure store) (s' : store) :
  out = Compiled func s'
  <-> Str.blank expression = false
      /\ Normalizer.parens_balanced text = true
      /\ engine text = Parsed func
      /\ passed func s testValues s'.
Proof.
  destruct parse_cases as [[B ->]|[(B & P & ->)|(B & P & ->)]].
  - split; [discriminate|intros (H & _); congruence].
  - split; [discriminate|intros (_ & H & _); congruence].
  - destruct (engine text) as [f| |].
    + split.
      * intros H.
        destruct (self_test f s testValues) as [[|] s1|s1|] eqn:T;
          try discriminate.
        assert (E1 : f = func)
          by exact (f_equal (fun c => match c with
                                      | Compiled g _ => g
                                      | _ => f
                                      end) H).
        assert (E2 : s1 = s')
          by exact (f_equal (fun c => match c with
                                      | Compiled _ t => t
                                      | _ => s1
                                      end) H).
        subst. split; [exact B|]. split; [exact P|].
        split; [reflexivity|]. apply self_test_passed. exact T.
      * intros (_ & _ & E & H).
        assert (E1 : f = func)
          by exact (f_equal (fun c => match c with
                                      | Parsed g => g
                                      | _ => f
                                      end) E).
        subst. apply self_test_passed in H. rewrite H. reflexivity.
    + split; [discriminate|intros (_ & _ & E & _); discriminate].
    + split; [discriminate|intros (_ & _ & E & _); discriminate].
Qed.

Lemma parse_hangs_iff :
  out = Hangs
  <-> Str.blank expression = false
      /\ Normalizer.parens_balanced text = true
      /\ exists func, engine text = Parsed func
                      /\ stuck func s testValues.
Proof.
  destruct parse_cases as [[B ->]|[(B & P & ->)|(B & P & ->)]].
  - split; [discriminate|intros (H & _); congruence].
  - split; [discriminate|intros (_ & H & _); congruence].
  - destruct (engine text) as [f| |].
    + destruct (self_test f s testValues) as [[|] s1|s1|] eqn:T.
      * split; [discriminate|].
        intros (_ & _ & g & E & H). injection E as <-.
        apply self_test_stuck in H. congruence.
      * split; [discriminate|].
        intros (_ & _ & g & E & H). injection E as <-.
        apply self_test_stuck in H. congruence.
      * destruct (self_test_never_throws store f testValues s s1 T).
      * split; [|reflexivity]. intros _. split; [exact B|].
        split; [exact P|]. exists f. split; [reflexivity|].
        apply self_test_stuck. exact T.
    + split; [discriminate|intros (_ & _ & g & E & _); discriminate].
    + split; [discriminate|intros (_ & _ & g & E & _); discriminate].
Qed.

End Outcomes.

(** The scan of the parentheses fails exactly when a prefix has more
    closing than opening parentheses, or the text as a whole does not have
    as many of the ones as of the others. *)
Lemma unbalanced_spec (t : string) :
  Normalizer.parens_balanced t = false
  <-> (exists n, (Text.depth (Str.take n t) < 0)%Z)
      \/ Text.depth t <> 0%Z.
Proof.
  destruct (Normalizer.parens_balanced t) eqn:P.
  - apply parens_balanced_spec in P. destruct P as [P1 P2].
    split; [discriminate|].
    intros [[n H]|H]; [specialize (P1 n); lia|contradiction].
  - split; [|reflexivity]. intros _.
    destruct (Z.eq_dec (Text.depth t) 0) as [D|D]; [|right; exact D].
    left.
    assert (N : ~ forall n, (0 <= Text.depth (Str.take n t))%Z).
    { intros A.
      assert (T : Normalizer.parens_balanced t = true)
        by (apply parens_balanced_spec; auto).
      congruence. }
    assert (X : forall m : nat,
               (forall n, (n < m)%nat ->
                          (0 <= Text.depth (Str.take n t))%Z)
               \/ exists n, (Text.depth (Str.take n t) < 0)%Z).
    { induction m as [|m [IH|IH]].
      - left. intros n H. lia.
      - destruct (Z_lt_dec (Text.depth (Str.take m t)) 0) as [L|L].
        + right. exists m. exact L.
        + left. intros n H.
          destruct (Nat.eq_dec n m) as [->|]; [lia|apply IH; lia].
      - right. exact IH. }
    destruct (X (S (String.length t))) as [A|A]; [|exact A].
    exfalso. apply N. intros n.
    destruct (Nat.lt_ge_cases n (S (String.length t))) as [L|L];
      [apply A; exact L|].
    assert (E : forall (u : string) (k : nat),
               (String.length u <= k)%nat -> Str.take k u = u).
    { induction u as [|c u IH]; intros k H.
      - destruct k; reflexivity.
      - destruct k; cbn [String.length] in H; [lia|].
        cbn [Str.take]. rewrite IH by lia. reflexivity. }
    rewrite (E t n) by lia.
    rewrite <- (E t (String.length t)) by lia. apply A. lia.
Qed.

(** C3, as the code has it. [parse], lines 50 to 164. A call of [parse]
    ends in one of these ways, each exactly in the case stated, [text]
    being the expression rewritten:
    - "Expression cannot be empty", for a blank expression;
    - "Mismatched parentheses", when the counter of the scan of [text]
      goes below zero or is not zero at the end;
    - the [SyntaxError] of the engine, when [text] is balanced and the
      engine refuses to make a function of it;
    - "Expression does not produce valid numeric results", when the
      function is made and, called on each probe in turn, never gives a
      finite number;
    - the function, when one of its calls on the probes gives a finite
      number: the probes after it are not called;
    - no end at all, when a call on a probe does not return.
    There is no other way, for a text that the model of the engine knows.
    The stores show that [parse] writes nothing itself: what is written is
    written by the calls on the probes. The expressions ["(x+1"] and
    ["x+1)"] get "Mismatched parentheses" and ["x+"] gets the
    [SyntaxError] of the engine; for an expression of the fragment every
    call returns, so [parse] ends. *)
Theorem parse_outcomes (store : Type)
        (engine : string -> parsed (Script.procedure store))
        (expression : string) (s : store) :
  let text := Normalizer.normalize expression in
  let out := Script.parse engine expression s in
  (forall s',
      out = Script.Refused EmptyExpression s'
      <-> s' = s /\ Str.blank expression = true)
  /\ (forall s',
         out = Script.Refused MismatchedParentheses s'
         <-> s' = s /\ Str.blank expression = false
             /\ ((exists n, (Text.depth (Str.take n text) < 0)%Z)
                 \/ Text.depth text <> 0%Z))
  /\ (forall s',
         out = Script.Refused EngineSyntaxError s'
         <-> s' = s /\ Str.blank expression = false
             /\ Normalizer.parens_balanced text = true
             /\ engine text = Rejected)
  /\ (forall s',
         out = Script.Refused NoValidResult s'
         <-> Str.blank expression = false
             /\ Normalizer.parens_balanced text = true
             /\ exists func,
                 engine text = Parsed func
                 /\ Probes.tried func s testValues s')
  /\ (forall func s',
         out = Script.Compiled func s'
         <-> Str.blank expression = false
             /\ Normalizer.parens_balanced text = true
             /\ engine text = Parsed func
             /\ Probes.passed func s testValues s')
  /\ (out = Script.Hangs
      <-> Str.blank expression = false
          /\ Normalizer.parens_balanced text = true
          /\ exists func,
              engine text = Parsed func
              /\ Probes.stuck func s testValues)
  /\ (engine text <> Unmodelled ->
      (exists e s', out = Script.Refused e s')
      \/ (exists func s', out = Script.Compiled func s')
      \/ out = Script.Hangs)
  /\ (Script.parse engine "" s = Script.Refused EmptyExpression s
      /\ Script.parse engine "(x+1" s
         = Script.Refused MismatchedParentheses s
      /\ Script.parse engine "x+1)" s
         = Script.Refused MismatchedParentheses s)
  /\ (forall host bound,
         Script.parse (Script.fragment_engine host bound) "x+" s
         = Script.Refused EngineSyntaxError s
         /\ Script.parse (Script.fragment_engine host bound) expression s
            <> Script.Hangs).
Proof.
  intros text out. subst text out.
  split; [intros s'; apply parse_empty_iff|].
  split.
  { intros s'. rewrite parse_mismatched_iff, unbalanced_spec. reflexivity. }
  split; [intros s'; apply parse_engine_iff|].
  split; [intros s'; apply parse_unevaluable_iff|].
  split; [intros func s'; apply parse_compiled_iff|].
  split; [apply parse_hangs_iff|].
  split.
  { intros M.
    destruct (parse_cases store engine expression s)
      as [[_ E]|[(_ & _ & E)|(_ & _ & E)]]; rewrite E; eauto.
    destruct (engine (Normalizer.normalize expression)) as [f| |];
      [|eauto|congruence].
    destruct (Script.self_test f s testValues) as [[|] s1|s1|]; eauto. }
  split.
  - split; [|split]; vm_compute; reflexivity.
  - intros host bound. split.
    + rewrite parse_fragment.
      assert (E : parse host bound "x+" = Err EngineSyntaxError)
        by (vm_compute; reflexivity).
      rewrite E. reflexivity.
    + rewrite parse_fragment.
      destruct (parse host bound expression); discriminate.
Qed.

(** C3 as it is stated fails: ["x+"] is not blank and its parentheses are
    balanced, yet [parse] raises an error before any probe is tried, the
    [SyntaxError] of the engine; and for a text whose function loops at
    the first probe [parse] neither raises an error nor returns. *)
Lemma parse_claim_fails :
  let engine := Probes.engine Reference.host Reference.nothing_bound in
  ~ (forall expression e s',
        Script.parse engine expression [] = Script.Refused e s' ->
        e = EmptyExpression \/ e = MismatchedParentheses
        \/ e = NoValidResult)
  /\ ~ (forall expression,
           (exists e s',
               Script.parse engine expression [] = Script.Refused e s')
           \/ (exists func s',
                  Script.parse engine expression []
                  = Script.Compiled func s')).
Proof.
  cbv zeta.
  assert (P1 : Script.parse (Probes.engine Reference.host
                                           Reference.nothing_bound) "x+" []
               = Script.Refused EngineSyntaxError [])
    by (vm_compute; reflexivity).
  assert (P2 : Script.parse (Probes.engine Reference.host
                                           Reference.nothing_bound)
                            Probes.stall_text []
               = Script.Hangs)
    by (vm_compute; reflexivity).
  split.
  - intros H. destruct (H _ _ _ P1) as [E|[E|E]]; discriminate.
  - intros H. destruct (H Probes.stall_text) as [(e & s' & E)|(f & s' & E)];
      rewrite P2 in E; discriminate.
Qed.

(* ------------------------------------------------------------------ *)
(** * [drawAsymptotes]: the pole of the reciprocal                   *)
(* ------------------------------------------------------------------ *)

Section PoleFacts.

Import Asymptotes Pole.

Local Open Scope float_scope.

Lemma opp_nonpos (t : float) : (0 <=? t) = true -> (- t <=? 0) = true.
Proof.
  rewrite !leb_spec, opp_spec, FloatMore.Prim2SF_zero.
  destruct (Prim2SF t) as [[]|[]| |[] m e]; cbn; congruence.
Qed.

(** Two values of the same sign are not on the two sides of a threshold
    that is not negative and of its opposite. *)
Lemma same_side (t a b : float) :
  (0 <=? t) = true ->
  (0 <=? a) && (0 <=? b) || (a <=? 0) && (b <=? 0) = true ->
  (t <? a) && (b <? - t) || (a <? - t) && (t <? b) = false.
Proof.
  intros Ht H. pose proof (opp_nonpos t Ht) as Hn.
  apply orb_prop in H. destruct H as [H|H]; apply andb_prop in H;
    destruct H as [Ha Hb].
  - rewrite (FloatOrder.leb_not_ltb _ _ (FloatOrder.leb_trans _ _ _ Hn Hb)).
    rewrite (FloatOrder.leb_not_ltb _ _ (FloatOrder.leb_trans _ _ _ Hn Ha)).
    rewrite andb_false_r. reflexivity.
  - rewrite (FloatOrder.leb_not_ltb _ _ (FloatOrder.leb_trans _ _ _ Ha Ht)).
    rewrite (FloatOrder.leb_not_ltb _ _ (FloatOrder.leb_trans _ _ _ Hb Ht)).
    rewrite andb_false_r. reflexivity.
Qed.

Variable func : jsfun.
Variable yThreshold : float.
Hypothesis not_negative : (0 <=? yThreshold) = true.

Lemma quiet_step (acc : list float) (x : float) :
  quiet func x = true -> scan_step func step yThreshold acc x = acc.
Proof.
  unfold quiet, scan_step. cbv zeta. intros H.
  apply andb_prop in H. destruct H as [H H3].
  apply andb_prop in H. destruct H as [H1 H2].
  rewrite H1, H2, (same_side _ _ _ not_negative H3).
  cbn [negb andb]. rewrite !andb_false_r.
  destruct (Num.isFinite (evaluate_number func (x - step))
            && Num.isFinite (evaluate_number func (x + step)));
    reflexivity.
Qed.

Lemma quiet_fold (xs : list float) :
  forallb (quiet func) xs = true ->
  forall acc, fold_left (scan_step func step yThreshold) xs acc = acc.
Proof.
  induction xs as [|x xs IH]; intros H acc; [reflexivity|].
  cbn [forallb] in H. apply andb_prop in H. destruct H as [Hx H].
  cbn [fold_left]. rewrite (quiet_step acc x Hx). apply IH. exact H.
Qed.

Lemma loud_step (bound : float) (acc : list float) (x : float) :
  (yThreshold <=? bound) = true ->
  loud func bound x = true ->
  scan_step func step yThreshold acc x = acc ++ [x].
Proof.
  unfold loud, scan_step. cbv zeta. intros Hb H.
  apply andb_prop in H. destruct H as [H H6].
  apply andb_prop in H. destruct H as [H H5].
  apply andb_prop in H. destruct H as [H H4].
  apply andb_prop in H. destruct H as [H H3].
  apply andb_prop in H. destruct H as [H1 H2].
  rewrite H1, H2, H3, H6.
  rewrite (FloatOrder.leb_ltb_trans _ _ _ Hb H4).
  rewrite (FloatOrder.leb_ltb_trans _ _ _ Hb H5).
  reflexivity.
Qed.

(** The candidates of a scan whose abscissas are quiet but for two that
    follow each other, the first of them loud. *)
Lemma candidates_around (bound : float) (before after : list float)
      (c0 c1 : float) :
  (yThreshold <=? bound) = true ->
  forallb (quiet func) before = true ->
  loud func bound c0 = true ->
  forallb (quiet func) after = true ->
  let found :=
    fold_left (scan_step func step yThreshold)
              (before ++ c0 :: c1 :: after) [] in
  found = [c0] \/ found = [c0; c1].
Proof.
  intros Hb Q1 L Q2. cbv zeta.
  rewrite fold_left_app, (quiet_fold before Q1). cbn [fold_left].
  rewrite (loud_step bound [] c0 Hb L). cbn [app].
  destruct (scan_step_cases func step yThreshold [c0] c1) as [[E _]|[E _]];
    rewrite E, (quiet_fold after Q2); [left|right]; reflexivity.
Qed.

End PoleFacts.

Lemma scan_points_visited :
  Loop.for_values Asymptotes.scan_fuel (-10) 10 Pole.step
  = Some (Samples.scan_points (-10) 10).
Proof. apply values_of_some. vm_compute. discriminate. Qed.

(** The abscissas of the scan, in three parts. *)
Lemma scan_points_parts :
  Samples.scan_points (-10) 10
  = firstn 1000 (Samples.scan_points (-10) 10)
    ++ Pole.nearest :: Pole.next
    :: skipn 1002 (Samples.scan_points (-10) 10).
Proof. vm_compute. reflexivity. Qed.

Lemma candidates_reciprocal (host : MathHost) (yThreshold : float) :
  (0 <=? yThreshold)%float = true -> (yThreshold <=? 99)%float = true ->
  exists found,
    Asymptotes.candidates (Compiled.reciprocal host) (-10) 10 yThreshold
    = Some found
    /\ (found = [Pole.nearest] \/ found = [Pole.nearest; Pole.next]).
Proof.
  intros H0 H99.
  pose (body := Asymptotes.scan_step (Compiled.reciprocal host) Pole.step
                                     yThreshold).
  assert (E : Asymptotes.candidates (Compiled.reciprocal host) (-10) 10
                                    yThreshold
              = Some (fold_left body (Samples.scan_points (-10) 10) []))
    by exact (proj2 (for_loop_fold 10 Pole.step body Asymptotes.scan_fuel
                       (-10) (Samples.scan_points (-10) 10) []
                       scan_points_visited)).
  eexists. split; [exact E|].
  assert (Q1 : forallb (Pole.quiet (Compiled.reciprocal host))
                       (firstn 1000 (Samples.scan_points (-10) 10)) = true)
    by (vm_compute; reflexivity).
  assert (Q2 : forallb (Pole.quiet (Compiled.reciprocal host))
                       (skipn 1002 (Samples.scan_points (-10) 10)) = true)
    by (vm_compute; reflexivity).
  assert (L : Pole.loud (Compiled.reciprocal host) 99 Pole.nearest = true)
    by (vm_compute; reflexivity).
  pose proof (candidates_around (Compiled.reciprocal host) yThreshold H0 99
                _ _ Pole.nearest Pole.next H99 Q1 L Q2) as C.
  cbv zeta in C. fold body in C.
  rewrite <- (f_equal (fun l => fold_left body l []) scan_points_parts) in C.
  exact C.
Qed.

(** C4. [drawAsymptotes], lines 695 to 765, on the function of [1/x]. The
    scan of [[-10, 10]] takes the 2001 abscissas from [-10], 2000 steps of
    [0.01]. For every threshold from [0] to [99] the candidates are the
    abscissa nearest to [0], [-1.69e-13], and for the lower thresholds the
    one after it; the second is less than ten steps from the first and is
    dropped, so that one line is drawn, less than one step away from [0].
    So it is for a canvas of 800 by 600 with 40 pixels to the unit, where
    the range is [[-10, 10]] and the threshold 3.75. *)
Theorem scan_reciprocal (host : MathHost) (bound : string -> bool)
        (yThreshold : float) :
  (0 <=? yThreshold)%float = true -> (yThreshold <=? 99)%float = true ->
  let func := Compiled.reciprocal host in
  parse host bound "1/x" = Ok func
  /\ List.length (Samples.scan_points (-10) 10) = 2001%nat
  /\ Samples.visits 10 Pole.step (-10) (Samples.scan_points (-10) 10)
  /\ (exists found,
         Asymptotes.candidates func (-10) 10 yThreshold = Some found
         /\ (found = [Pole.nearest] \/ found = [Pole.nearest; Pole.next])
         /\ Asymptotes.clean (Pole.step * 10) found = [Pole.nearest])
  /\ Asymptotes.scan func (-10) 10 yThreshold = Some [Pole.nearest]
  /\ (abs (Pole.nearest - 0) <? Pole.step)%float = true
  /\ (abs (Pole.next - Pole.nearest) <? Pole.step * 10)%float = true
  /\ Asymptotes.drawAsymptotes func 800 600 40 = Some [Pole.nearest].
Proof.
  intros H0 H99 func.
  assert (S : forall t,
             (0 <=? t)%float = true -> (t <=? 99)%float = true ->
             exists found,
               Asymptotes.candidates func (-10) 10 t = Some found
               /\ (found = [Pole.nearest]
                   \/ found = [Pole.nearest; Pole.next])
               /\ Asymptotes.clean (Pole.step * 10) found = [Pole.nearest]).
  { intros t T0 T99.
    destruct (candidates_reciprocal host t T0 T99) as (found & C & F).
    exists found. split; [exact C|]. split; [exact F|].
    destruct F as [-> | ->]; vm_compute; reflexivity. }
  assert (D : forall t,
             (0 <=? t)%float = true -> (t <=? 99)%float = true ->
             Asymptotes.scan func (-10) 10 t = Some [Pole.nearest]).
  { intros t T0 T99. destruct (S t T0 T99) as (found & C & _ & K).
    unfold Asymptotes.scan. cbv zeta. rewrite C.
    exact (f_equal Some K). }
  split; [apply parse_reciprocal|].
  split; [vm_compute; reflexivity|].
  split.
  { exact (proj1 (for_loop_fold 10 Pole.step (fun (u : unit) _ => u)
                    Asymptotes.scan_fuel (-10)
                    (Samples.scan_points (-10) 10) tt
                    scan_points_visited)). }
  split; [exact (S yThreshold H0 H99)|].
  split; [exact (D yThreshold H0 H99)|].
  split; [vm_compute; reflexivity|].
  split; [vm_compute; reflexivity|].
  exact (D (600 / (4 * 40))%float eq_refl eq_refl).
Qed.

Lemma scan_reciprocal_witness :
  ((0 <=? 5)%float = true /\ (5 <=? 99)%float = true)
  /\ Asymptotes.scan (Compiled.reciprocal Reference.host) (-10) 10 5
     = Some [Pole.nearest]
  /\ (abs (Pole.nearest - 0) <? Pole.step)%float = true.
Proof.
  split; [split; reflexivity|].
  destruct (scan_reciprocal Reference.host Reference.nothing_bound 5
                            eq_refl eq_refl)
    as (_ & _ & _ & _ & S & N & _).
  split; [exact S|exact N].
Defined.

(* ------------------------------------------------------------------ *)
(** * [analyzeRange]: the policy and the examples                    *)
(* ------------------------------------------------------------------ *)

Section TrackingFacts.

Import FunctionAnalyzer Words Conditions Tracking.

Local Open Scope float_scope.

Variable func : jsfun.

Local Abbreviation f := (evaluate_number func).

Lemma finite_values_snoc (seen : list float) (x : float) :
  finite_values func (seen ++ [x])
  = finite_values func seen ++ (if Num.isFinite (f x) then [f x] else []).
Proof.
  unfold finite_values. rewrite map_app, filter_app. reflexivity.
Qed.

Lemma finite_values_finite (seen : list float) (v : float) :
  In v (finite_values func seen) -> Num.isFinite v = true.
Proof. unfold finite_values. intros H. apply filter_In in H. tauto. Qed.

Lemma tracked_start : tracked func sweep_start [].
Proof.
  constructor; try reflexivity.
  - intros _. split; reflexivity.
  - intros H. destruct H. reflexivity.
  - intros H. destruct H. reflexivity.
Qed.

(** The flags, as the fold of the loop leaves them. *)
Lemma tracked_flags (xs : list float) :
  let s := fold_left (range_step func) xs sweep_start in
  hasPositiveInfinite s = hits_plus_infinity func xs
  /\ hasNegativeInfinite s = hits_minus_infinity func xs
  /\ hasInfiniteValues s = negb (finite_on func xs).
Proof.
  destruct (flags_fold func xs sweep_start) as (P & N & I).
  cbv zeta in *. rewrite P, N, I. repeat split.
Qed.

(** The count and the extremes, one step further. *)
Lemma extremes_step (s : sweep) (seen : list float) (x : float) :
  let fv := finite_values func seen in
  let s' := range_step func s x in
  let fv' := finite_values func (seen ++ [x]) in
  validPoints s = List.length fv ->
  (fv = [] -> minY s = infinity /\ maxY s = neg_infinity) ->
  (fv <> [] ->
   In (minY s) fv /\ Forall (fun v => (minY s <=? v) = true) fv) ->
  (fv <> [] ->
   In (maxY s) fv /\ Forall (fun v => (v <=? maxY s) = true) fv) ->
  validPoints s' = List.length fv'
  /\ (fv' = [] -> minY s' = infinity /\ maxY s' = neg_infinity)
  /\ (fv' <> [] ->
      In (minY s') fv' /\ Forall (fun v => (minY s' <=? v) = true) fv')
  /\ (fv' <> [] ->
      In (maxY s') fv' /\ Forall (fun v => (v <=? maxY s') = true) fv').
Proof.
  cbv zeta. intros Hc He Hmin Hmax.
  rewrite finite_values_snoc. unfold range_step.
  destruct (Num.isFinite (f x)) eqn:Fx; cbn [negb];
    cbn [minY maxY validPoints].
  2:{ rewrite app_nil_r. auto. }
  pose proof (FloatOrder.finite_not_nan _ Fx) as Nx.
  pose proof (FloatOrder.leb_refl _ Nx) as Rx.
  split; [rewrite length_app, Hc; cbn; lia|].
  split; [intros H; destruct (finite_values func seen); discriminate|].
  destruct (finite_values func seen) as [|v0 fv] eqn:E.
  - destruct (He eq_refl) as [-> ->].
    rewrite (FloatOrder.finite_below_infinity _ Fx).
    rewrite (FloatOrder.finite_above_neg_infinity _ Fx).
    cbn [app]. split; intros _; (split; [left; reflexivity|]);
      constructor; auto.
  - assert (Ne : v0 :: fv <> []) by discriminate.
    destruct (Hmin Ne) as [Imin Amin]. destruct (Hmax Ne) as [Imax Amax].
    assert (Fmin : Num.isFinite (minY s) = true)
      by (apply (finite_values_finite seen); rewrite E; exact Imin).
    assert (Fmax : Num.isFinite (maxY s) = true)
      by (apply (finite_values_finite seen); rewrite E; exact Imax).
    pose proof (FloatOrder.finite_not_nan _ Fmin) as Nmin.
    pose proof (FloatOrder.finite_not_nan _ Fmax) as Nmax.
    split; intros _.
    + split.
      * apply in_or_app. destruct (f x <? minY s);
          [right; left; reflexivity|left; exact Imin].
      * apply Forall_app. split.
        -- eapply Forall_impl; [|exact Amin]. cbn. intros a Ha.
           destruct (f x <? minY s) eqn:L; [|exact Ha].
           apply FloatOrder.ltb_leb.
           eapply FloatOrder.ltb_leb_trans; eauto.
        -- constructor; [|constructor].
           destruct (f x <? minY s) eqn:L; [exact Rx|].
           apply FloatOrder.not_ltb_leb; auto.
    + split.
      * apply in_or_app. destruct (maxY s <? f x);
          [right; left; reflexivity|left; exact Imax].
      * apply Forall_app. split.
        -- eapply Forall_impl; [|exact Amax]. cbn. intros a Ha.
           destruct (maxY s <? f x) eqn:L; [|exact Ha].
           apply FloatOrder.ltb_leb.
           eapply FloatOrder.leb_ltb_trans; eauto.
        -- constructor; [|constructor].
           destruct (maxY s <? f x) eqn:L; [exact Rx|].
           apply FloatOrder.not_ltb_leb; auto.
Qed.

Lemma extremes_fold (xs : list float) :
  forall (s : sweep) (seen : list float),
    let fv := finite_values func seen in
    validPoints s = List.length fv ->
    (fv = [] -> minY s = infinity /\ maxY s = neg_infinity) ->
    (fv <> [] ->
     In (minY s) fv /\ Forall (fun v => (minY s <=? v) = true) fv) ->
    (fv <> [] ->
     In (maxY s) fv /\ Forall (fun v => (v <=? maxY s) = true) fv) ->
    let s' := fold_left (range_step func) xs s in
    let fv' := finite_values func (seen ++ xs) in
    validPoints s' = List.length fv'
    /\ (fv' = [] -> minY s' = infinity /\ maxY s' = neg_infinity)
    /\ (fv' <> [] ->
        In (minY s') fv' /\ Forall (fun v => (minY s' <=? v) = true) fv')
    /\ (fv' <> [] ->
        In (maxY s') fv' /\ Forall (fun v => (v <=? maxY s') = true) fv').
Proof.
  induction xs as [|x xs IH]; intros s seen; cbv zeta;
    intros Hc He Hmin Hmax; cbn [fold_left].
  - rewrite app_nil_r. auto.
  - replace (seen ++ x :: xs) with ((seen ++ [x]) ++ xs)
      by (rewrite <- app_assoc; reflexivity).
    destruct (extremes_step s seen x Hc He Hmin Hmax) as (A & B & C & D).
    exact (IH (range_step func s x) (seen ++ [x]) A B C D).
Qed.

(** The sweep keeps what [tracked] says, whatever the function. *)
Lemma tracked_fold (xs : list float) :
  tracked func (fold_left (range_step func) xs sweep_start) xs.
Proof.
  destruct (tracked_flags xs) as (P & N & I).
  destruct (extremes_fold xs sweep_start [] eq_refl
              (fun _ => conj eq_refl eq_refl)
              (fun H => False_ind _ (H eq_refl))
              (fun H => False_ind _ (H eq_refl))) as (A & B & C & D).
  cbv zeta in *. cbn [app] in *.
  constructor; assumption.
Qed.

End TrackingFacts.

(** ** The sign of a rounded difference *)

Module FloatDiff.

Import SpecFloat.

Local Open Scope Z_scope.

Lemma shl_align_value m e e' :
  e' <= e -> Zpos (fst (shl_align m e e')) = Zpos m * 2 ^ (e - e').
Proof.
  intros H. unfold shl_align. destruct (e' - e) as [|d|d] eqn:E; cbn [fst].
  - replace (e - e') with 0 by lia. lia.
  - lia.
  - rewrite FloatArith.iter_xO_value. f_equal. f_equal. lia.
Qed.

(** The mantissa and the exponent of a number of binary64. *)
Lemma valid_finite (x : float) s m e :
  Prim2SF x = S754_finite s m e ->
  -1074 <= e
  /\ Zpos m < 2 ^ 53
  /\ (-1074 < e -> 2 ^ 52 <= Zpos m).
Proof.
  intros E. pose proof (Prim2SF_valid x) as V. rewrite E in V.
  cbn [valid_binary] in V. unfold bounded, canonical_mantissa in V.
  apply andb_prop in V. destruct V as [V _]. apply Z.eqb_eq in V.
  rewrite FloatArith.fexp64_eq in V. unfold Words.fexp64 in V.
  rewrite FloatArith.digits2_log2 in V.
  pose proof (Z.log2_spec (Zpos m) ltac:(lia)) as [L1 L2].
  split; [lia|]. split.
  - assert (Z.log2 (Zpos m) + 1 <= 53) by lia.
    eapply Z.lt_le_trans; [exact L2|].
    apply Z.pow_le_mono_r; lia.
  - intros H. assert (Z.log2 (Zpos m) = 52) as <- by lia. exact L1.
Qed.

Lemma shifted_above (m m' : positive) (d : Z) :
  2 ^ 52 <= Zpos m -> Zpos m' < 2 ^ 53 -> 0 < d ->
  Zpos m' <= Zpos m * 2 ^ d.
Proof.
  intros H1 H2 Hd.
  assert (P : 2 ^ 1 <= 2 ^ d) by (apply Z.pow_le_mono_r; lia).
  change (2 ^ 1) with 2 in P. change (2 ^ 53) with (2 ^ 52 * 2) in H2. nia.
Qed.

(** The rounded difference of a number and of a smaller one is not
    negative. *)
Lemma normalize_not_negative (M ez : Z) :
  0 <= M -> -1074 <= ez ->
  match binary_normalize FloatOps.prec FloatOps.emax M ez false with
  | S754_zero _ | S754_finite false _ _ | S754_infinity false => True
  | _ => False
  end.
Proof.
  intros HM He. destruct M as [|p|p]; cbn [binary_normalize]; [exact I| |lia].
  destruct (FloatArith.binary_round_lower false p ez) as [H|(m' & e' & H & _)].
  - pose proof (Pos2Z.is_pos (digits2_pos p)). lia.
  - rewrite H. exact I.
  - rewrite H. exact I.
Qed.

Lemma SFsub_not_negative (x y : spec_float) (a b : float) :
  Prim2SF a = x -> Prim2SF b = y ->
  is_finite a = true -> is_finite b = true ->
  SFleb x y = true ->
  match SFsub FloatOps.prec FloatOps.emax y x with
  | S754_zero _ | S754_finite false _ _ | S754_infinity false => True
  | _ => False
  end.
Proof.
  intros Ex Ey Fa Fb L.
  destruct (FloatOrder.finite_cases a Fa) as [[sa Ea]|(sa & ma & ea & Ea)];
    destruct (FloatOrder.finite_cases b Fb) as [[sb Eb]|(sb & mb & eb & Eb)];
    rewrite Ea in Ex; rewrite Eb in Ey; subst x y.
  - destruct sa, sb; exact I.
  - cbn [SFsub]. destruct sb; [discriminate|exact I].
  - cbn [SFsub]. destruct sa; [exact I|discriminate].
  - destruct (valid_finite a _ _ _ Ea) as (La & Ua & Na).
    destruct (valid_finite b _ _ _ Eb) as (Lb & Ub & Nb).
    cbn [SFsub]. apply normalize_not_negative; [|lia].
    rewrite !shl_align_value by lia.
    unfold SFleb, SFcompare in L.
    destruct sa, sb; cbn [cond_Zopp]; try discriminate.
    + (* both negative *)
      destruct (Z.compare_spec ea eb) as [E|E|E]; try discriminate.
      * subst eb. rewrite Z.min_id, Z.sub_diag.
        change (Pos.compare_cont Eq ma mb) with (Pos.compare ma mb) in L.
        destruct (Pos.compare_spec ma mb); cbn in L; try discriminate; lia.
      * rewrite Z.min_l by lia. rewrite Z.sub_diag.
        pose proof (shifted_above ma mb (ea - eb) (Na ltac:(lia)) Ub
                                  ltac:(lia)).
        lia.
    + (* a negative, b positive *)
      pose proof (Z.pow_nonneg 2 (eb - Z.min eb ea) ltac:(lia)).
      pose proof (Z.pow_nonneg 2 (ea - Z.min eb ea) ltac:(lia)).
      nia.
    + (* both positive *)
      destruct (Z.compare_spec ea eb) as [E|E|E]; try discriminate.
      * subst eb. rewrite Z.min_id, Z.sub_diag.
        change (Pos.compare_cont Eq ma mb) with (Pos.compare ma mb) in L.
        destruct (Pos.compare_spec ma mb); cbn in L; try discriminate; lia.
      * rewrite Z.min_r by lia. rewrite Z.sub_diag.
        pose proof (shifted_above mb ma (eb - ea) (Nb ltac:(lia)) Ua
                                  ltac:(lia)).
        lia.
Qed.

Local Open Scope float_scope.

(** For finite [a <= b], the difference [b - a] compares with any number
    as its absolute value does. *)
Lemma difference_magnitude (a b c : float) :
  is_finite a = true -> is_finite b = true -> (a <=? b) = true ->
  (abs (b - a) <? c) = (b - a <? c)
  /\ (c <? abs (b - a)) = (c <? b - a).
Proof.
  intros Fa Fb L. rewrite leb_spec in L.
  pose proof (SFsub_not_negative _ _ a b eq_refl eq_refl Fa Fb L) as S.
  rewrite !ltb_spec, abs_spec, sub_spec. unfold SF64sub.
  destruct (SFsub FloatOps.prec FloatOps.emax (Prim2SF b) (Prim2SF a))
    as [s|s| |s m e]; try destruct s; try contradiction;
    split; try reflexivity; destruct (Prim2SF c) as [[]|[]| |[] ? ?];
    reflexivity.
Qed.

End FloatDiff.

Section PolicyFacts.

Import FunctionAnalyzer Tracking.

Local Open Scope float_scope.

Lemma min_bound (a b c : float) :
  is_finite a = true -> is_finite b = true ->
  (c <=? Num.Math_min a b) = (c <=? a) && (c <=? b).
Proof.
  intros Fa Fb.
  pose proof (FloatOrder.finite_not_nan _ Fa) as Na.
  pose proof (FloatOrder.finite_not_nan _ Fb) as Nb.
  unfold Num.Math_min. rewrite Na, Nb.
  destruct (a <? b) eqn:Eab.
  - destruct (c <=? a) eqn:Eca; [|reflexivity].
    rewrite (FloatOrder.leb_trans _ _ _ Eca (FloatOrder.ltb_leb _ _ Eab)).
    reflexivity.
  - destruct (b <? a) eqn:Eba.
    + destruct (c <=? b) eqn:Ecb; [|apply eq_sym, andb_false_r].
      rewrite (FloatOrder.leb_trans _ _ _ Ecb (FloatOrder.ltb_leb _ _ Eba)).
      reflexivity.
    + pose proof (FloatOrder.not_ltb_leb _ _ Na Nb Eab) as Hba.
      pose proof (FloatOrder.not_ltb_leb _ _ Nb Na Eba) as Hab.
      destruct (c <=? a) eqn:Eca, (c <=? b) eqn:Ecb;
        destruct (get_sign a); cbn; try congruence.
      all: try (rewrite (FloatOrder.leb_trans _ _ _ Eca Hab) in Ecb;
                discriminate).
      all: try (rewrite (FloatOrder.leb_trans _ _ _ Ecb Hba) in Eca;
                discriminate).
Qed.

Lemma max_bound (a b c : float) :
  is_finite a = true -> is_finite b = true ->
  (Num.Math_max a b <=? c) = (a <=? c) && (b <=? c).
Proof.
  intros Fa Fb.
  pose proof (FloatOrder.finite_not_nan _ Fa) as Na.
  pose proof (FloatOrder.finite_not_nan _ Fb) as Nb.
  unfold Num.Math_max. rewrite Na, Nb.
  destruct (a <? b) eqn:Eab.
  - destruct (b <=? c) eqn:Ebc; [|apply eq_sym, andb_false_r].
    rewrite (FloatOrder.leb_trans _ _ _ (FloatOrder.ltb_leb _ _ Eab) Ebc).
    reflexivity.
  - destruct (b <? a) eqn:Eba.
    + destruct (a <=? c) eqn:Eac; [|reflexivity].
      rewrite (FloatOrder.leb_trans _ _ _ (FloatOrder.ltb_leb _ _ Eba) Eac).
      reflexivity.
    + pose proof (FloatOrder.not_ltb_leb _ _ Na Nb Eab) as Hba.
      pose proof (FloatOrder.not_ltb_leb _ _ Nb Na Eba) as Hab.
      destruct (a <=? c) eqn:Eac, (b <=? c) eqn:Ebc;
        destruct (get_sign a); cbn; try congruence.
      all: try (rewrite (FloatOrder.leb_trans _ _ _ Hba Eac) in Ebc;
                discriminate).
      all: try (rewrite (FloatOrder.leb_trans _ _ _ Hab Ebc) in Eac;
                discriminate).
Qed.

(** Step 4 of the code is step 4 of the specification. *)
Lemma range_of_probes_policy (s : sweep) (a b c d e : float) :
  range_of_probes [a; b; c; d; e] s
  = RangePolicy.probe_verdict s [a; b; c; d; e].
Proof.
  unfold range_of_probes, RangePolicy.probe_verdict.
  destruct (forallb Num.isFinite [a; b; c; d; e]) eqn:F; [|reflexivity].
  cbn [forallb] in F. unfold Num.isFinite in F.
  repeat (apply andb_prop in F; destruct F as [? F]).
  rewrite min_bound, max_bound by assumption.
  unfold RangePolicy.near_zero, RangePolicy.increasing,
    RangePolicy.decreasing.
  destruct ((100 <? a) && (100 <? e) && ((c <=? a) && (c <=? e)));
    [destruct ((-0.1 <=? minY s) && (minY s <=? 0.1)); reflexivity|].
  destruct ((a <? -100) && (e <? -100) && ((a <=? c) && (e <=? c)));
    [destruct ((-0.1 <=? maxY s) && (maxY s <=? 0.1)); reflexivity|].
  unfold Num.Math_abs.
  destruct (0.1 <? abs ((e - a) / 200)).
  - rewrite !andb_true_r.
    destruct ((a <? b) && (b <? c) && (c <? d) && (d <? e)); [reflexivity|].
    cbn [orb]. reflexivity.
  - rewrite !andb_false_r. reflexivity.
Qed.

(** With ten finite values or more, the least is at most the greatest. *)
Lemma tracked_ordered (func : jsfun) (s : sweep) (seen : list float) :
  tracked func s seen ->
  (validPoints s <? 10)%nat = false ->
  (minY s <=? maxY s) = true.
Proof.
  intros T C. apply Nat.ltb_ge in C.
  rewrite (tracked_count _ _ _ T) in C.
  assert (Ne : Words.finite_values func seen <> []).
  { intros E. rewrite E in C. cbn in C. lia. }
  destruct (tracked_min _ _ _ T Ne) as [_ A].
  destruct (tracked_max _ _ _ T Ne) as [I _].
  rewrite Forall_forall in A. exact (A _ I).
Qed.

(** The part of [analyzeRange] after the loop applies the nine steps of the
    specification, in their order: the flag of the infinite values, which
    the code tests first, is raised whenever one of the two others is; and
    the absolute value that the code takes of [maxY - minY] changes
    nothing, the difference being that of a number and of a smaller
    one. *)
Lemma range_decision_policy (func : jsfun) (s : sweep) (seen : list float) :
  tracked func s seen ->
  range_decision func s
  = RangePolicy.range_policy s (List.map (evaluate_number func) range_probes).
Proof.
  intros T.
  assert (Hp : hasPositiveInfinite s = true -> hasInfiniteValues s = true).
  { rewrite (tracked_plus _ _ _ T), (tracked_any _ _ _ T). intros H.
    rewrite (hits_not_finite func seen); [reflexivity|].
    rewrite H. reflexivity. }
  assert (Hn : hasNegativeInfinite s = true -> hasInfiniteValues s = true).
  { rewrite (tracked_minus _ _ _ T), (tracked_any _ _ _ T). intros H.
    rewrite (hits_not_finite func seen); [reflexivity|].
    rewrite H. apply orb_true_r. }
  assert (X : (validPoints s <? 10)%nat = false ->
              Num.isFinite (minY s) = true -> Num.isFinite (maxY s) = true ->
              range_of_extremes s
              = (if maxY s - minY s <? 0.01
                 then NearlyConstant ((minY s + maxY s) / 2)
                 else if (-1.1 <=? minY s) && (maxY s <=? 1.1)
                         && (minY s <=? -0.9) && (0.9 <=? maxY s)
                 then UnitInterval
                 else if RangePolicy.near_zero (minY s)
                 then (if 100 <? maxY s then AtLeastZero
                       else ZeroUpTo (maxY s))
                 else if RangePolicy.near_zero (maxY s)
                 then (if minY s <? -100 then AtMostZero
                       else UpToZero (minY s))
                 else if 100 <? maxY s - minY s then WholeLine
                 else Between (minY s) (maxY s))).
  { intros C Fmin Fmax.
    pose proof (tracked_ordered func s seen T C) as O.
    unfold range_of_extremes. cbv zeta.
    unfold Num.Math_abs, RangePolicy.near_zero.
    destruct (FloatDiff.difference_magnitude (minY s) (maxY s) 0.01
                Fmin Fmax O) as [-> _].
    destruct (FloatDiff.difference_magnitude (minY s) (maxY s) 100
                Fmin Fmax O) as [_ ->].
    reflexivity. }
  unfold range_decision, RangePolicy.range_policy, range_of_infinities.
  destruct (hasPositiveInfinite s) eqn:P, (hasNegativeInfinite s) eqn:N,
    (hasInfiniteValues s) eqn:I; cbn [andb];
    try (specialize (Hp eq_refl); discriminate);
    try (specialize (Hn eq_refl); discriminate);
    try reflexivity.
  all: rewrite (orb_comm (_ || _) (validPoints s <? 10)%nat), orb_assoc.
  all: destruct (validPoints s <? 10)%nat eqn:C; [reflexivity|].
  all: destruct (Num.isFinite (minY s)) eqn:Fmin; [|reflexivity].
  all: destruct (Num.isFinite (maxY s)) eqn:Fmax; [|reflexivity].
  all: cbn [negb orb].
  all: cbn [List.map range_probes]; rewrite range_of_probes_policy.
  all: destruct (RangePolicy.probe_verdict s _); [reflexivity|].
  all: exact (X eq_refl eq_refl eq_refl).
Qed.

End PolicyFacts.

Section SampledFacts.

Import FunctionAnalyzer Conditions.

Local Open Scope float_scope.

Variable host : MathHost.

Lemma forallb_weaken {A : Type} (p q : A -> bool) (l : list A) :
  (forall a, p a = true -> q a = true) ->
  forallb p l = true -> forallb q l = true.
Proof.
  intros H. rewrite !forallb_forall. intros F a Ha. apply H, F, Ha.
Qed.

(** What [Sampled.sine] gives of the function of [sin(x)]. *)
Lemma sampled_sine :
  Sampled.sine host = true ->
  is_finite (h_sin host 0) = true
  /\ finite_on (Compiled.sine host) Samples.range_points = true
  /\ within_on (Compiled.sine host) (-1.1) 1.1 Samples.range_points = true
  /\ reaches_below (Compiled.sine host) (-0.9) Samples.range_points = true
  /\ reaches_above (Compiled.sine host) 0.9 Samples.range_points = true
  /\ probes_decide (probe_values (Compiled.sine host)) = false.
Proof.
  unfold Sampled.sine. intros H.
  apply andb_prop in H. destruct H as [H H8].
  apply andb_prop in H. destruct H as [H H7].
  apply andb_prop in H. destruct H as [H H6].
  apply andb_prop in H. destruct H as [H H5].
  apply andb_prop in H. destruct H as [H H4].
  apply andb_prop in H. destruct H as [H H3].
  apply andb_prop in H. destruct H as [H1 H2].
  apply negb_true_iff in H7. apply negb_true_iff in H8.
  split.
  { cbn [forallb range_probes] in H4.
    repeat (apply andb_prop in H4; destruct H4 as [? H4]); assumption. }
  split.
  { unfold finite_on. revert H1. apply forallb_weaken. intros p Hp.
    apply andb_prop in Hp. destruct Hp as [Hp _].
    apply andb_prop in Hp. destruct Hp as [Hp _]. exact Hp. }
  split.
  { unfold within_on. revert H1. apply forallb_weaken. intros p Hp.
    apply andb_prop in Hp. destruct Hp as [Hp Hc].
    apply andb_prop in Hp. destruct Hp as [_ Hb].
    change (evaluate_number (Compiled.sine host) p) with (h_sin host p).
    rewrite Hb, Hc. reflexivity. }
  split; [exact H2|]. split; [exact H3|].
  unfold probes_decide, probe_values, range_probes. cbn [List.map].
  change (evaluate_number (Compiled.sine host) (-100))
    with (h_sin host (-100)).
  change (evaluate_number (Compiled.sine host) (-10)) with (h_sin host (-10)).
  change (evaluate_number (Compiled.sine host) 0) with (h_sin host 0).
  change (evaluate_number (Compiled.sine host) 10) with (h_sin host 10).
  change (evaluate_number (Compiled.sine host) 100) with (h_sin host 100).
  unfold bowl, dome, rising, falling.
  assert (B : (100 <? h_sin host (-100)) = false).
  { destruct (100 <? h_sin host (-100)) eqn:E; [|reflexivity].
    pose proof (FloatOrder.ltb_leb_trans _ _ _ E H6) as X.
    vm_compute in X. discriminate. }
  assert (D : (h_sin host (-100) <? -100) = false).
  { destruct (h_sin host (-100) <? -100) eqn:E; [|reflexivity].
    pose proof (FloatOrder.leb_ltb_trans _ _ _ H5 E) as X.
    vm_compute in X. discriminate. }
  rewrite B, D, H7, H8. cbn [andb orb].
  rewrite ?andb_false_r. cbn [andb orb]. rewrite ?andb_false_r.
  reflexivity.
Qed.

(** What [Sampled.squares] gives of the function of [x^2]. *)
Lemma sampled_squares :
  Sampled.squares host = true ->
  is_finite (h_pow host 0 2) = true
  /\ finite_on (Compiled.square host) Samples.range_points = true
  /\ at_least_on (Compiled.square host) (-0.1) Samples.range_points = true
  /\ reaches_below (Compiled.square host) 0.1 Samples.range_points = true
  /\ bowl_probes (probe_values (Compiled.square host)) = true.
Proof.
  unfold Sampled.squares. intros H.
  apply andb_prop in H. destruct H as [H H7].
  apply andb_prop in H. destruct H as [H H6].
  apply andb_prop in H. destruct H as [H H5].
  apply andb_prop in H. destruct H as [H H4].
  apply andb_prop in H. destruct H as [H H3].
  apply andb_prop in H. destruct H as [H1 H2].
  assert (F : is_finite (h_pow host (-100) 2) = true
              /\ is_finite (h_pow host (-10) 2) = true
              /\ is_finite (h_pow host 0 2) = true
              /\ is_finite (h_pow host 10 2) = true
              /\ is_finite (h_pow host 100 2) = true).
  { cbn [forallb range_probes] in H3.
    repeat (apply andb_prop in H3; destruct H3 as [? H3]). auto. }
  destruct F as (Fa & Fb & Fc & Fd & Fe).
  split; [exact Fc|]. split.
  { unfold finite_on. revert H1. apply forallb_weaken. intros p Hp.
    apply andb_prop in Hp. destruct Hp as [Hp _]. exact Hp. }
  split.
  { unfold at_least_on. revert H1. apply forallb_weaken. intros p Hp.
    apply andb_prop in Hp. destruct Hp as [_ Hp].
    change (evaluate_number (Compiled.square host) p) with (h_pow host p 2).
    eapply FloatOrder.leb_trans; [|exact Hp]. reflexivity. }
  split; [exact H2|].
  unfold bowl_probes, probe_values, range_probes. cbn [List.map].
  change (evaluate_number (Compiled.square host) (-100))
    with (h_pow host (-100) 2).
  change (evaluate_number (Compiled.square host) (-10))
    with (h_pow host (-10) 2).
  change (evaluate_number (Compiled.square host) 0) with (h_pow host 0 2).
  change (evaluate_number (Compiled.square host) 10) with (h_pow host 10 2).
  change (evaluate_number (Compiled.square host) 100)
    with (h_pow host 100 2).
  cbn [forallb]. unfold Num.isFinite. rewrite Fa, Fb, Fc, Fd, Fe.
  unfold bowl. rewrite H4, H5, (min_bound _ _ _ Fa Fe), H6, H7.
  reflexivity.
Qed.

End SampledFacts.

(** C5. [analyzeRange], lines 397 to 540. The loop goes from [-50] by
    steps of [0.1] while [x <= 50], over 1000 abscissas; it counts the
    finite values, keeps the least and the greatest of them, and raises a
    flag for [+Infinity] and one for [-Infinity]; the answer is the one
    that the nine steps of the specification give, in their order, for
    these variables and the values at the five probes. The answer is
    "-1 <= y <= 1" for [sin(x)] and "y >= 0" for [x^2], for an engine
    whose sine and squares are, at the abscissas sampled, as [Sampled]
    says. *)
Theorem analyzeRange_policy (func : jsfun) (host : MathHost)
        (bound : string -> bool) :
  (exists s,
      FunctionAnalyzer.range_sweep func = Some s
      /\ Samples.visits 50 0.1 (-50) Samples.range_points
      /\ List.length Samples.range_points = 1000%nat
      /\ Tracking.tracked func s Samples.range_points
      /\ FunctionAnalyzer.analyzeRange func
         = Some (RangePolicy.range_policy
                   s (List.map (evaluate_number func)
                               FunctionAnalyzer.range_probes)))
  /\ (Sampled.sine host = true ->
      parse host bound "sin(x)" = Ok (Compiled.sine host)
      /\ FunctionAnalyzer.analyzeRange (Compiled.sine host)
         = Some FunctionAnalyzer.UnitInterval)
  /\ (Sampled.squares host = true ->
      parse host bound "x^2" = Ok (Compiled.square host)
      /\ FunctionAnalyzer.analyzeRange (Compiled.square host)
         = Some FunctionAnalyzer.AtLeastZero).
Proof.
  split; [|split].
  - eexists. split; [apply range_sweep_eq|].
    split.
    { exact (proj1 (for_loop_fold 50 0.1 (fun (u : unit) _ => u)
                      FunctionAnalyzer.range_fuel (-50)
                      Samples.range_points tt range_points_visited)). }
    split; [apply range_points_length|].
    pose proof (tracked_fold func Samples.range_points) as T.
    split; [exact T|].
    rewrite analyzeRange_eq. f_equal.
    exact (range_decision_policy func _ _ T).
  - intros H. destruct (sampled_sine host H) as (F0 & F & B & L & U & P).
    split; [apply parse_sine; exact F0|].
    rewrite analyzeRange_eq. f_equal.
    exact (decision_unit_interval (Compiled.sine host) Samples.range_points
             range_points_enough F B L U P).
  - intros H. destruct (sampled_squares host H) as (F0 & F & A & L & P).
    split; [apply parse_square; exact F0|].
    rewrite analyzeRange_eq. f_equal.
    exact (decision_bowl (Compiled.square host) Samples.range_points
             range_points_enough F A L P).
Qed.

Lemma analyzeRange_policy_witness :
  (Sampled.sine Reference.host = true
   /\ Sampled.squares Reference.host = true)
  /\ FunctionAnalyzer.analyzeRange (Compiled.sine Reference.host)
     = Some FunctionAnalyzer.UnitInterval
  /\ FunctionAnalyzer.analyzeRange (Compiled.square Reference.host)
     = Some FunctionAnalyzer.AtLeastZero.
Proof.
  assert (H1 : Sampled.sine Reference.host = true)
    by (vm_compute; reflexivity).
  assert (H2 : Sampled.squares Reference.host = true)
    by (vm_compute; reflexivity).
  split; [split; [exact H1|exact H2]|].
  destruct (analyzeRange_policy (Compiled.identity Reference.host)
                                Reference.host Reference.nothing_bound)
    as (_ & S & Q).
  split; [exact (proj2 (S H1))|exact (proj2 (Q H2))].
Defined.
